(** * Avantor scraper: specification extraction and CSV flattening

    A shallow embedding of [src/avantorsciences_scraper.py]:
    - [PyStr]: the Python [str] operations the scraper uses;
    - [Csv]: [save_to_csv] and its helper [clean_text_for_csv], over a heap
      of dictionaries;
    - [Extract]: [extract_product_data], over an abstract WebDriver. *)

From Stdlib Require Import List NArith ZArith Bool Arith Lia String Ascii.
From Stdlib Require Import Permutation Sorted.
Import ListNotations.

(* ===================================================================== *)
(** * Python strings *)
(* ===================================================================== *)

Module PyStr.

(** A Python [str] is a sequence of Unicode code points. *)
Definition codepoint := N.
Definition str := list codepoint.

(** ASCII literals of the source, as code points. *)
Definition py (s : string) : str :=
  map N_of_ascii (list_ascii_of_string s).

Definition SP : codepoint := 32%N.
Definition LF : codepoint := 10%N.
Definition CR : codepoint := 13%N.

(** [str.isspace] on one code point ([Py_UNICODE_ISSPACE]); the same set is
    what [str.strip()] removes and what [\s] matches in a [str] pattern. *)
Definition isspace (c : codepoint) : bool :=
  ((9 <=? c) && (c <=? 13) || (28 <=? c) && (c <=? 32)
   || (c =? 133) || (c =? 160) || (c =? 5760)
   || (8192 <=? c) && (c <=? 8202)
   || (c =? 8232) || (c =? 8233) || (c =? 8239) || (c =? 8287)
   || (c =? 12288))%N.

Fixpoint str_eqb (a b : str) : bool :=
  match a, b with
  | [], [] => true
  | x :: a', y :: b' => (x =? y)%N && str_eqb a' b'
  | _, _ => false
  end.

(** [a < b] on [str]: lexicographic on code points. *)
Fixpoint str_ltb (a b : str) : bool :=
  match a, b with
  | _, [] => false
  | [], _ :: _ => true
  | x :: a', y :: b' => (x <? y)%N || ((x =? y)%N && str_ltb a' b')
  end.

Definition str_leb (a b : str) : bool := negb (str_ltb b a).

(** [s.startswith(p)] *)
Fixpoint starts_with (p s : str) : bool :=
  match p, s with
  | [], _ => true
  | _ :: _, [] => false
  | x :: p', y :: s' => (x =? y)%N && starts_with p' s'
  end.

(** [s.endswith(p)] *)
Definition ends_with (p s : str) : bool := starts_with (rev p) (rev s).

(** [sub in s] *)
Fixpoint contains (sub s : str) : bool :=
  starts_with sub s ||
  match s with
  | [] => false
  | _ :: s' => contains sub s'
  end.

(** [s.lstrip()], [s.rstrip()], [s.strip()] *)
Fixpoint lstrip (s : str) : str :=
  match s with
  | [] => []
  | c :: s' => if isspace c then lstrip s' else s
  end.

Fixpoint rstrip (s : str) : str :=
  match s with
  | [] => []
  | c :: s' =>
      match rstrip s' with
      | [] => if isspace c then [] else [c]
      | r => c :: r
      end
  end.

Definition strip (s : str) : str := rstrip (lstrip s).

(** [s.replace(old, new)] for a non-empty [old]: occurrences are found left
    to right and do not overlap.  [skip] counts the code points of a match
    that are still to be consumed. *)
Fixpoint replace_go (old new : str) (skip : nat) (s : str) : str :=
  match s with
  | [] => []
  | c :: s' =>
      match skip with
      | S k => replace_go old new k s'
      | O =>
          if starts_with old s
          then new ++ replace_go old new (List.length old - 1) s'
          else c :: replace_go old new 0 s'
      end
  end.

Definition replace (old new s : str) : str := replace_go old new 0 s.

(** [s.split(sep)] and [s.split(sep, maxsplit)] for a non-empty [sep]. *)
Fixpoint split_go (sep : str) (maxsplit : option nat) (skip : nat)
         (cur : str) (s : str) : list str :=
  match s with
  | [] => [rev cur]
  | c :: s' =>
      match skip with
      | S k => split_go sep maxsplit k cur s'
      | O =>
          let allowed := match maxsplit with Some O => false | _ => true end in
          if allowed && starts_with sep s
          then rev cur ::
               split_go sep (option_map Nat.pred maxsplit) (List.length sep - 1) [] s'
          else split_go sep maxsplit 0 (c :: cur) s'
      end
  end.

Definition split (sep s : str) : list str := split_go sep None 0 [] s.
Definition split_max (sep : str) (n : nat) (s : str) : list str :=
  split_go sep (Some n) 0 [] s.

(** [sep.join(parts)] *)
Fixpoint join (sep : str) (parts : list str) : str :=
  match parts with
  | [] => []
  | [p] => p
  | p :: rest => p ++ sep ++ join sep rest
  end.

(** [re.sub(r'\s+', ' ', s)]: every maximal run of whitespace becomes one
    space.  [in_run] tells that the previous code point was whitespace. *)
Fixpoint re_sub_ws (in_run : bool) (s : str) : str :=
  match s with
  | [] => []
  | c :: s' =>
      if isspace c
      then (if in_run then re_sub_ws true s' else SP :: re_sub_ws true s')
      else c :: re_sub_ws false s'
  end.

(** [s.split()] without argument: the maximal runs of non-whitespace. *)
Definition at_word_end (s : str) : bool :=
  match s with
  | [] => true
  | d :: _ => isspace d
  end.

Definition cons_word (c : codepoint) (boundary : bool) (ws : list str)
  : list str :=
  if boundary then [c] :: ws
  else match ws with
       | w :: ws' => (c :: w) :: ws'
       | [] => [[c]]
       end.

Fixpoint words (s : str) : list str :=
  match s with
  | [] => []
  | c :: s' =>
      if isspace c then words s'
      else cons_word c (at_word_end s') (words s')
  end.

Definition trimmed (s : str) : Prop := strip s = s.

(** Normalization as the specification words it: line breaks and runs of
    whitespace become single spaces and the ends are trimmed, which leaves
    the words of [s] with one space between them. *)
Definition unwords_of (s : str) : str := join [SP] (words s).

(** A word: non-empty and free of whitespace. *)
Definition is_word (w : str) : Prop :=
  w <> [] /\ Forall (fun c => isspace c = false) w.

End PyStr.

(* ===================================================================== *)
(** * Statements, exceptions and loops *)
(* ===================================================================== *)

Module Monad.

(** The exceptions that occur.  Every handler of the source is a bare
    [except:] or an [except Exception], so handlers never look at them. *)
Inductive exn : Type :=
| NoSuchElementException
| WebDriverException
| UnboundLocalError
| AttributeError
| TypeError
| KeyError
| ValueError
| OSError
| UnicodeEncodeError.

Inductive result (A : Type) : Type :=
| Ok (a : A)
| Raise (e : exn).
Arguments Ok {A} a.
Arguments Raise {A} e.

(** A statement over a state [S]: it returns or raises, and the state it
    has reached is kept in both cases. *)
Definition M (S A : Type) : Type := S -> result A * S.

Definition ret {S A} (a : A) : M S A := fun s => (Ok a, s).

Definition raise {S A} (e : exn) : M S A := fun s => (Raise e, s).

Definition bind {S A B} (m : M S A) (f : A -> M S B) : M S B :=
  fun s =>
    match m s with
    | (Ok a, s') => f a s'
    | (Raise e, s') => (Raise e, s')
    end.

(** [try: m  except: h] *)
Definition try_except {S A} (m h : M S A) : M S A :=
  fun s =>
    match m s with
    | (Ok a, s') => (Ok a, s')
    | (Raise _, s') => h s'
    end.

Definition get {S} : M S S := fun s => (Ok s, s).
Definition gets {S A} (f : S -> A) : M S A := fun s => (Ok (f s), s).
Definition modify {S} (f : S -> S) : M S unit := fun s => (Ok tt, f s).

(** What the body of a [for] loop asks for when it ends: the next element
    ([continue], or the end of the body) or [break]. *)
Inductive ctl : Type := Next | Break.

Fixpoint for_each {S X} (l : list X) (body : X -> M S ctl) : M S unit :=
  match l with
  | [] => ret tt
  | x :: l' =>
      bind (body x) (fun c =>
        match c with
        | Break => ret tt
        | Next => for_each l' body
        end)
  end.

(** [if c: m] without [else]. *)
Definition when {S} (c : bool) (m : M S unit) : M S unit :=
  if c then m else ret tt.

Declare Scope py_scope.
Delimit Scope py_scope with py.
Notation "x <- c1 ;; c2" := (bind c1 (fun x => c2))
  (at level 61, c1 at next level, right associativity) : py_scope.
Notation "c1 ;; c2" := (bind c1 (fun _ => c2))
  (at level 61, right associativity) : py_scope.

(** Hoare triples with an exceptional postcondition. *)
Definition hoare {S A} (P : S -> Prop) (m : M S A)
           (Q : A -> S -> Prop) (E : S -> Prop) : Prop :=
  forall s, P s ->
    match m s with
    | (Ok a, s') => Q a s'
    | (Raise _, s') => E s'
    end.

(** [m] keeps [I], whether it returns or raises. *)
Definition preserves {S A} (I : S -> Prop) (m : M S A) : Prop :=
  hoare I m (fun _ => I) I.

(** The states that are reached from [w0] in any number of steps. *)
Inductive reachable {W} (step : W -> W -> Prop) (w0 : W) : W -> Prop :=
| reach_here : reachable step w0 w0
| reach_step w w' : reachable step w0 w -> step w w' -> reachable step w0 w'.

End Monad.

(* ===================================================================== *)
(** * [save_to_csv]: flattening product records into a table *)
(* ===================================================================== *)

Module Csv.
Import PyStr Monad.
Local Open Scope py_scope.

(** ** Python values, dictionaries and the heap *)

Definition loc := nat.

(** A value is [None], a [str] or a reference to a dictionary object. *)
Inductive pyval : Type :=
| VNone
| VStr (s : str)
| VRef (l : loc).

(** A [dict] keeps its keys in insertion order. *)
Definition dict (V : Type) : Type := list (str * V).

Fixpoint dict_lookup {V} (d : dict V) (k : str) : option V :=
  match d with
  | [] => None
  | (k', v) :: d' => if str_eqb k' k then Some v else dict_lookup d' k
  end.

(** [k in d] *)
Definition dict_mem {V} (k : str) (d : dict V) : bool :=
  match dict_lookup d k with Some _ => true | None => false end.

(** [d.get(k, default)] *)
Definition dict_get {V} (d : dict V) (k : str) (default : V) : V :=
  match dict_lookup d k with Some v => v | None => default end.

(** [d[k] = v]: an existing key keeps its place, a new key goes last. *)
Fixpoint dict_set {V} (d : dict V) (k : str) (v : V) : dict V :=
  match d with
  | [] => [(k, v)]
  | (k', v') :: d' =>
      if str_eqb k' k then (k', v) :: d' else (k', v') :: dict_set d' k v
  end.

Definition dict_keys {V} (d : dict V) : list str := map fst d.

(** Objects are dictionaries; an address is an index of the heap. *)
Definition heap : Type := list (dict pyval).

(** What is written to a [.csv] file: the header line and the data lines. *)
Record export_table : Type := {
  header : list str;
  body : list (list str)
}.

Record store : Type := {
  objs : heap;
  files : dict export_table
}.

Definition H (A : Type) : Type := M store A.

Definition set_objs (h : heap) (s : store) : store :=
  {| objs := h; files := files s |}.
Definition set_files (fs : dict export_table) (s : store) : store :=
  {| objs := objs s; files := fs |}.

(** A new dictionary object. *)
Definition alloc (d : dict pyval) : H loc :=
  fun s => (Ok (List.length (objs s)), set_objs (objs s ++ [d]) s).

Definition load (l : loc) : H (dict pyval) :=
  fun s =>
    match nth_error (objs s) l with
    | Some d => (Ok d, s)
    | None => (Raise TypeError, s)
    end.

Fixpoint update_nth {X} (n : nat) (x : X) (l : list X) : list X :=
  match l, n with
  | [], _ => []
  | _ :: l', O => x :: l'
  | y :: l', S n' => y :: update_nth n' x l'
  end.

(** The object at [l] is mutated in place. *)
Definition store_at (l : loc) (d : dict pyval) : H unit :=
  modify (fun s => set_objs (update_nth l d (objs s)) s).

(** [obj.get(k, default)]: only a dictionary has the method. *)
Definition py_get (obj : pyval) (k : str) (default : pyval) : H pyval :=
  match obj with
  | VRef l => d <- load l ;; ret (dict_get d k default)
  | _ => raise AttributeError
  end.

(** The truth value of [v]. *)
Definition truthy (v : pyval) : H bool :=
  match v with
  | VNone => ret false
  | VStr s => ret (negb (str_eqb s []))
  | VRef l => d <- load l ;; ret (match d with [] => false | _ => true end)
  end.

(** A Python [set] of strings, as the list of its elements. *)
Definition pyset : Type := list str.

Definition set_mem (k : str) (s : pyset) : bool := existsb (str_eqb k) s.

Definition set_add (s : pyset) (k : str) : pyset :=
  if set_mem k s then s else s ++ [k].

(** [s.update(ks)] *)
Definition set_update (s : pyset) (ks : list str) : pyset :=
  fold_left set_add ks s.

(** [sorted(l)] on strings: a stable sort by [<]. *)
Fixpoint insert_sorted (x : str) (l : list str) : list str :=
  match l with
  | [] => [x]
  | y :: l' => if str_ltb x y then x :: l else y :: insert_sorted x l'
  end.

Definition sorted (l : list str) : list str :=
  fold_left (fun acc x => insert_sorted x acc) l [].

Definition standard_fields : list str :=
  [py "Product Code"; py "Product Name"; py "Model Number"; py "Description";
   py "Price"; py "Currency"; py "Availability"; py "URL"].

Section SaveToCsv.

(** [str(x)] of an object that is not a string, by its address. *)
Variable str_of_ref : loc -> str.
(** The order in which a [set] with the given elements is iterated. *)
Variable set_iter : pyset -> list str.
(** Whether [open(filename, 'w')] succeeds. *)
Variable can_open : str -> bool.
(** [int(time.time())] in decimal. *)
Variable now : str.

Definition py_str (v : pyval) : str :=
  match v with
  | VNone => py "None"
  | VStr s => s
  | VRef l => str_of_ref l
  end.

(** Lines 1593-1606. *)
Definition clean_text_for_csv (text : pyval) : str :=
  match text with
  | VNone => []
  | _ =>
      let text := py_str text in
      let text :=
        replace [CR] [SP] (replace [LF] [SP] (replace [CR; LF] [SP] text)) in
      let text := re_sub_ws false text in
      strip text
  end.

(** Lines 1611-1620: the row literal. *)
Definition new_row (product : pyval) : H loc :=
  code <- py_get product (py "product_code") (VStr []) ;;
  name <- py_get product (py "product_name") (VStr []) ;;
  model <- py_get product (py "model_number") (VStr []) ;;
  desc <- py_get product (py "description") (VStr []) ;;
  price <- py_get product (py "price") (VStr []) ;;
  currency <- py_get product (py "currency") (VStr []) ;;
  avail <- py_get product (py "availability") (VStr []) ;;
  url <- py_get product (py "url") (VStr []) ;;
  alloc [ (py "Product Code", VStr (clean_text_for_csv code));
          (py "Product Name", VStr (clean_text_for_csv name));
          (py "Model Number", VStr (clean_text_for_csv model));
          (py "Description", VStr (clean_text_for_csv desc));
          (py "Price", VStr (clean_text_for_csv price));
          (py "Currency", VStr (clean_text_for_csv currency));
          (py "Availability", VStr (clean_text_for_csv avail));
          (py "URL", url) ].

(** Lines 1627-1634, on the contents of the row. *)
Definition add_spec (row : dict pyval) (kv : str * pyval) : dict pyval :=
  let (key, value) := kv in
  let clean_key := clean_text_for_csv (VStr key) in
  if str_eqb clean_key [] then row
  else if negb (dict_mem clean_key row)
       then dict_set row clean_key (VStr (clean_text_for_csv value))
       else dict_set row clean_key
              (VStr (clean_text_for_csv (dict_get row clean_key VNone)
                     ++ py "; " ++ clean_text_for_csv value)).

(** The same on the row object. *)
Definition add_spec_at (row : loc) (kv : str * pyval) : H unit :=
  d <- load row ;;
  store_at row (add_spec d kv).

(** Lines 1610-1636: one turn of the loop over [products]. *)
Definition flatten_product (product : pyval) : H loc :=
  row <- new_row product ;;
  default <- alloc [] ;;
  specs <- py_get product (py "specifications") (VRef default) ;;
  match specs with
  | VRef ls =>
      items <- load ls ;;
      for_each items (fun kv => add_spec_at row kv ;; ret Next)
  | _ => ret tt
  end ;;
  ret row.

Fixpoint flatten_products (products : list pyval) (rows : list loc)
  : H (list loc) :=
  match products with
  | [] => ret rows
  | product :: rest =>
      row <- flatten_product product ;;
      flatten_products rest (rows ++ [row])
  end.

(** Lines 1639-1641. *)
Fixpoint collect_keys (rows : list loc) (all_keys : pyset) : H pyset :=
  match rows with
  | [] => ret all_keys
  | row :: rest =>
      d <- load row ;;
      collect_keys rest (set_update all_keys (dict_keys d))
  end.

(** Lines 1644-1648. *)
Definition fieldnames_of (all_keys : pyset) : list str :=
  let ordered_keys := filter (fun k => set_mem k all_keys) standard_fields in
  let spec_keys :=
    sorted (filter (fun k => negb (existsb (str_eqb k) standard_fields))
                   (set_iter all_keys)) in
  ordered_keys ++ spec_keys.

(** The text of a cell: the [csv] writer shows [None] as nothing. *)
Definition cell_text (v : pyval) : str :=
  match v with
  | VNone => []
  | _ => py_str v
  end.

(** [open(filename, 'w')] empties the file. *)
Definition open_w (filename : str) : H unit :=
  if can_open filename
  then modify (fun s =>
         set_files (dict_set (files s) filename {| header := []; body := [] |}) s)
  else raise OSError.

(** The file is opened with [encoding='utf-8-sig'] (line 1653): a line is
    encoded when it is written, and a lone surrogate, which a [str] may
    hold, has no encoding. *)
Definition surrogate (c : codepoint) : bool :=
  ((55296 <=? c) && (c <=? 57343))%N.

Definition encodable (s : str) : bool :=
  forallb (fun c => negb (surrogate c)) s.

Definition encodable_line (cells : list str) : bool :=
  forallb encodable cells.

(** [csvfile.write(line)]: the whole line is written, or nothing of it and
    [UnicodeEncodeError] is raised. *)
Definition writeheader (filename : str) (fieldnames : list str) : H unit :=
  if encodable_line fieldnames
  then modify (fun s =>
         let t := dict_get (files s) filename {| header := []; body := [] |} in
         set_files (dict_set (files s) filename
                      {| header := fieldnames; body := body t |}) s)
  else raise UnicodeEncodeError.

Definition writerow (filename : str) (cells : list str) : H unit :=
  if encodable_line cells
  then modify (fun s =>
         let t := dict_get (files s) filename {| header := []; body := [] |} in
         set_files (dict_set (files s) filename
                      {| header := header t; body := body t ++ [cells] |}) s)
  else raise UnicodeEncodeError.

(** Lines 1656-1665. *)
Definition write_product_row (filename : str) (fieldnames : list str)
           (row : loc) : H unit :=
  cleaned_row <- alloc [] ;;
  for_each fieldnames (fun key =>
    d <- load row ;;
    c <- load cleaned_row ;;
    (if dict_mem key d
     then store_at cleaned_row (dict_set c key (dict_get d key VNone))
     else store_at cleaned_row (dict_set c key (VStr []))) ;;
    ret Next) ;;
  c <- load cleaned_row ;;
  writerow filename
    (map (fun key => cell_text (dict_get c key (VStr []))) fieldnames).

(** The argument [product_data]: one dictionary or a list. *)
Inductive product_arg : Type :=
| OneProduct (l : loc)
| ProductList (products : list pyval).

(** Lines 1586-1590. *)
Definition choose_filename (products : list pyval) (filename : option str)
  : H str :=
  match filename with
  | Some (c :: f) => ret (c :: f)
  | _ =>
      match products with
      | [p] =>
          code <- py_get p (py "product_code") VNone ;;
          t <- truthy code ;;
          if t
          then ret (py "product_" ++ py_str code ++ py ".csv")
          else ret (py "products_" ++ now ++ py ".csv")
      | _ => ret (py "products_" ++ now ++ py ".csv")
      end
  end.

(** Lines 1563-1675.  The value is the path returned, [None] otherwise. *)
Definition save_to_csv (product_data : product_arg) (filename : option str)
  : H (option str) :=
  try_except
    (let products :=
       match product_data with
       | OneProduct l => [VRef l]
       | ProductList ps => ps
       end in
     match products with
     | [] => ret None
     | _ =>
         filename <- choose_filename products filename ;;
         rows <- flatten_products products [] ;;
         all_keys <- collect_keys rows [] ;;
         let fieldnames := fieldnames_of all_keys in
         open_w filename ;;
         writeheader filename fieldnames ;;
         for_each rows (fun row =>
           write_product_row filename fieldnames row ;; ret Next) ;;
         ret (Some filename)
     end)
    (ret None).

End SaveToCsv.

(** ** Notions for the statements *)

(** The objects of [h0] are in the store as they were; objects may have
    been added behind them. *)
Definition extends_heap (h0 : heap) (s : store) : Prop :=
  exists added, objs s = h0 ++ added.

(** [a <= b] and [a < b] on strings, as propositions. *)
Definition str_le (a b : str) : Prop := str_ltb b a = false.
Definition str_lt (a b : str) : Prop := str_ltb a b = true.

Section Rows.

Variable str_of_ref : loc -> str.
Variable now : str.

(** The dictionary of a product record. *)
Definition product_dict (h : heap) (p : pyval) : option (dict pyval) :=
  match p with
  | VRef l => nth_error h l
  | _ => None
  end.

(** A product record of the heap [h]: a dictionary of [h] whose values
    that are references (its specifications) are objects of [h] too. *)
Definition closed_product (h : heap) (p : pyval) : Prop :=
  exists d, product_dict h p = Some d /\
    forall k l, dict_lookup d k = Some (VRef l) -> l < List.length h.

(** The entries of the specifications of the record [d]. *)
Definition spec_items (h : heap) (d : dict pyval) : list (str * pyval) :=
  match dict_lookup d (py "specifications") with
  | Some (VRef ls) =>
      match nth_error h ls with
      | Some items => items
      | None => []
      end
  | _ => []
  end.

(** The row literal of lines 1611-1620 for the record [d]. *)
Definition row_literal (d : dict pyval) : dict pyval :=
  [ (py "Product Code",
     VStr (clean_text_for_csv str_of_ref (dict_get d (py "product_code") (VStr []))));
    (py "Product Name",
     VStr (clean_text_for_csv str_of_ref (dict_get d (py "product_name") (VStr []))));
    (py "Model Number",
     VStr (clean_text_for_csv str_of_ref (dict_get d (py "model_number") (VStr []))));
    (py "Description",
     VStr (clean_text_for_csv str_of_ref (dict_get d (py "description") (VStr []))));
    (py "Price",
     VStr (clean_text_for_csv str_of_ref (dict_get d (py "price") (VStr []))));
    (py "Currency",
     VStr (clean_text_for_csv str_of_ref (dict_get d (py "currency") (VStr []))));
    (py "Availability",
     VStr (clean_text_for_csv str_of_ref (dict_get d (py "availability") (VStr []))));
    (py "URL", dict_get d (py "url") (VStr [])) ].

(** The row of the record [d] when the loop over its specifications ends. *)
Definition row_of (h : heap) (d : dict pyval) : dict pyval :=
  fold_left (add_spec str_of_ref) (spec_items h d) (row_literal d).

(** [k] is the normalized, non-empty key of a specification of a record
    of [products]. *)
Definition spec_key_of (h : heap) (products : list pyval) (k : str) : Prop :=
  exists p d raw v,
    In p products /\ product_dict h p = Some d /\
    In (raw, v) (spec_items h d) /\
    k = clean_text_for_csv str_of_ref (VStr raw) /\ k <> [].

(** The name of the file, lines 1586-1590, read from the heap. *)
Definition filename_of (h : heap) (products : list pyval)
           (filename : option str) : str :=
  match filename with
  | Some (c :: f) => c :: f
  | _ =>
      match products with
      | [p] =>
          match product_dict h p with
          | Some d =>
              match dict_get d (py "product_code") VNone with
              | VNone => py "products_" ++ now ++ py ".csv"
              | VStr [] => py "products_" ++ now ++ py ".csv"
              | VStr code => py "product_" ++ code ++ py ".csv"
              | VRef l =>
                  match nth_error h l with
                  | Some (_ :: _) =>
                      py "product_" ++ str_of_ref l ++ py ".csv"
                  | _ => py "products_" ++ now ++ py ".csv"
                  end
              end
          | None => py "products_" ++ now ++ py ".csv"
          end
      | _ => py "products_" ++ now ++ py ".csv"
      end
  end.

End Rows.

(** The rows of the records [products], and the set [all_keys] of lines
    1639-1641 for them. *)
Definition rows_of (str_of_ref : loc -> str) (h : heap)
           (products : list pyval) : list (dict pyval) :=
  map (fun p => match product_dict h p with
                | Some d => row_of str_of_ref h d
                | None => []
                end) products.

Definition all_keys_of (str_of_ref : loc -> str) (h : heap)
           (products : list pyval) : pyset :=
  fold_left (fun acc d => set_update acc (dict_keys d))
            (rows_of str_of_ref h products) [].

(** The header of the file [filename], if the file exists. *)
Definition header_of (s : store) (filename : str) : option (list str) :=
  option_map header (dict_lookup (files s) filename).

End Csv.

(** ** Concrete stores *)

Module CsvFixtures.
Import PyStr Monad Csv.

(** An environment: no object is shown, a set is iterated in the order of
    insertion, every file opens, the clock reads 1700000000. *)
Definition no_repr : loc -> str := fun _ => [].
Definition iter_in_order : pyset -> list str := fun s => s.
Definition always_open : str -> bool := fun _ => true.
Definition clock : str := py "1700000000".
(** The clock a second later. *)
Definition later_clock : str := py "1700000001".

Definition save := save_to_csv no_repr iter_in_order always_open clock.

Definition no_store : store := {| objs := []; files := [] |}.

(** A record whose URL holds two spaces in a row and whose specifications
    have the key [URL]:
    [{'product_code': 'P1', 'url': 'a  b', 'specifications': {'URL': 'x'}}] *)
Definition url_collision_heap : heap :=
  [ [ (py "product_code", VStr (py "P1"));
      (py "url", VStr (py "a  b"));
      (py "specifications", VRef 1) ];
    [ (py "URL", VStr (py "x")) ] ].

(** Two records, with the specifications [{'Purity': '99%'}] and
    [{'Color': 'clear', 'Price': '12'}]. *)
Definition two_records_heap : heap :=
  [ [ (py "product_code", VStr (py "P1"));
      (py "price", VStr (py "10"));
      (py "specifications", VRef 1) ];
    [ (py "Purity", VStr (py "99%")) ];
    [ (py "product_code", VStr (py "P2"));
      (py "specifications", VRef 3) ];
    [ (py "Color", VStr (py "clear")); (py "Price", VStr (py "12")) ] ].

(** A record whose specifications have a key that holds the lone
    surrogate U+D800: [{'product_code': 'P1', 'specifications':
    {'\ud800': 'x'}}] *)
Definition surrogate_key_heap : heap :=
  [ [ (py "product_code", VStr (py "P1"));
      (py "specifications", VRef 1) ];
    [ ([55296%N], VStr (py "x")) ] ].

(** Two records; the name of the second holds a lone surrogate. *)
Definition surrogate_value_heap : heap :=
  [ [ (py "product_code", VStr (py "P1")) ];
    [ (py "product_code", VStr (py "P2"));
      (py "product_name", VStr [55296%N]) ] ].

End CsvFixtures.

(* ===================================================================== *)
(** * [extract_product_data]: the cascade of extraction strategies *)
(* ===================================================================== *)

Module Extract.
Import PyStr Monad.
Import Csv(dict, dict_lookup, dict_mem, dict_get, dict_set, dict_keys).
Local Open Scope py_scope.
Local Open Scope string_scope.
Local Open Scope list_scope.

(** ** The WebDriver

    The rendered page is reached only through the driver.  Every call may
    raise and may find the page in another state than the call before it
    (a click reveals a section, scripts of the page run), so a call is a
    statement over the state [world] of the browser.  A found element is a
    handle of type [elem]. *)
Record WebDriver : Type := {
  world : Type;
  elem : Type;
  (** [driver.current_url] *)
  current_url : world -> result str * world;
  (** [driver.find_elements(By.XPATH, xp)] ([None]) and
      [e.find_elements(By.XPATH, xp)] ([Some e]) *)
  find_elements_by_xpath :
    option elem -> string -> world -> result (list elem) * world;
  (** [e.text] *)
  element_text : elem -> world -> result str * world;
  (** [e.tag_name] *)
  element_tag_name : elem -> world -> result str * world;
  (** [e.click()] *)
  element_click : elem -> world -> result unit * world;
  (** [e.get_attribute(name)] *)
  element_get_attribute :
    elem -> string -> world -> result (option str) * world;
  (** [driver.execute_script(js, e)]; the value is the dictionary a script
      returns, empty for a script that returns nothing *)
  execute_script : string -> elem -> world -> result (dict str) * world;
  (** [time.sleep(_)] *)
  sleep : world -> world
}.

(** A value read by [json.loads].  A number carries its [str()]. *)
#[local] Unset Elimination Schemes.
Inductive json : Type :=
| JNull
| JBool (b : bool)
| JNum (shown : str)
| JStr (s : str)
| JList (l : list json)
| JObj (fields : list (str * json)).
#[local] Set Elimination Schemes.

(** The dictionary [product_data] of lines 781-791. *)
Record product_data : Type := {
  product_code : option str;
  product_name : option str;
  model_number : option str;
  description : option str;
  price : option str;
  currency : option str;
  specifications : dict str;
  availability : option str;
  url : str
}.

Definition with_product_code v (p : product_data) :=
  {| product_code := v; product_name := product_name p;
     model_number := model_number p; description := description p;
     price := price p; currency := currency p;
     specifications := specifications p; availability := availability p;
     url := url p |}.
Definition with_product_name v (p : product_data) :=
  {| product_code := product_code p; product_name := v;
     model_number := model_number p; description := description p;
     price := price p; currency := currency p;
     specifications := specifications p; availability := availability p;
     url := url p |}.
Definition with_description v (p : product_data) :=
  {| product_code := product_code p; product_name := product_name p;
     model_number := model_number p; description := v;
     price := price p; currency := currency p;
     specifications := specifications p; availability := availability p;
     url := url p |}.
Definition with_price v (p : product_data) :=
  {| product_code := product_code p; product_name := product_name p;
     model_number := model_number p; description := description p;
     price := v; currency := currency p;
     specifications := specifications p; availability := availability p;
     url := url p |}.
Definition with_currency v (p : product_data) :=
  {| product_code := product_code p; product_name := product_name p;
     model_number := model_number p; description := description p;
     price := price p; currency := v;
     specifications := specifications p; availability := availability p;
     url := url p |}.
Definition with_specifications v (p : product_data) :=
  {| product_code := product_code p; product_name := product_name p;
     model_number := model_number p; description := description p;
     price := price p; currency := currency p;
     specifications := v; availability := availability p;
     url := url p |}.
Definition with_availability v (p : product_data) :=
  {| product_code := product_code p; product_name := product_name p;
     model_number := model_number p; description := description p;
     price := price p; currency := currency p;
     specifications := specifications p; availability := v;
     url := url p |}.

(** The local variables of the function that matter: [product_data] and
    [spec_section_found], which is unbound ([None]) until assigned. *)
Record locals : Type := {
  data : product_data;
  spec_section_found : option bool
}.

Definition nonempty {X} (l : list X) : bool :=
  match l with [] => false | _ => true end.

(** [x in l] for strings. *)
Definition str_in (x : str) (l : list str) : bool := existsb (str_eqb x) l.

(** ** The XPath expressions and scripts of the source *)

Definition title_selectors : list string :=
  [ "//h1[contains(@class, 'product-title')]";
    "//h1[contains(@class, 'product-name')]";
    "//h1[contains(@class, 'title')]";
    "//h1";
    "//*[contains(@class, 'product-title')]" ].

Definition sku_selectors : list string :=
  [ "//*[contains(text(), 'SKU')]/following-sibling::*";
    "//*[contains(text(), 'Product Code')]/following-sibling::*";
    "//*[contains(text(), 'Catalog Number')]/following-sibling::*";
    "//*[contains(@class, 'sku')]";
    "//*[contains(@class, 'product-code')]";
    "//*[contains(@class, 'catalog-number')]" ].

Definition price_selectors : list string :=
  [ "//*[contains(@class, 'price')]";
    "//*[contains(@class, 'product-price')]";
    "//*[contains(@data-testid, 'price')]";
    "//span[contains(@class, 'price')]" ].

Definition collapsed_xpath : string :=
  "//div[contains(@class, 'no-select-spec') and contains(@class, 'collapsed')]".

Definition expand_link_xpath : string :=
  "//div[contains(@class, 'no-select-spec')]//a[contains(text(), 'More Product Details')] | " ++
  "//div[contains(@class, 'no-select-spec')]//a[contains(text(), 'More')] | " ++
  "//div[contains(@class, 'no-select-spec')]//button[contains(text(), 'More')]".

Definition js_scroll_into_view : string :=
  "arguments[0].scrollIntoView({block: 'center'});".
Definition js_remove_collapsed : string :=
  "arguments[0].classList.remove('collapsed');".
Definition js_click : string := "arguments[0].click();".
Definition js_attributes : string :=
  "var items = {}; " ++
  "for (index = 0; index < arguments[0].attributes.length; ++index) { " ++
  "  items[arguments[0].attributes[index].name] = arguments[0].attributes[index].value " ++
  "}; " ++
  "return items;".

Definition desc_selectors : list string :=
  [ "//div[contains(@class, 'no-select-spec')]";
    "//div[@class='no-select-spec collapsed']";
    "//div[contains(@class, 'no-select-spec') and contains(@class, 'collapsed')]" ].

Definition fallback_selectors : list string :=
  [ "//div[contains(@class, 'no-select-spec')]//div[contains(@class, 'd-block')]";
    "//div[contains(@class, 'no-select-spec')]//p";
    "//div[contains(@class, 'product-description')]";
    "//div[contains(@class, 'description')]";
    "//div[contains(@class, 'product-details')]//p" ].

Definition spec_table_ul_xpath : string :=
  "//ul[contains(@class, 'spec-table')] | " ++
  "//ul[@class='spec-table text-break'] | " ++
  "//ul[contains(@class, 'spec-table') and contains(@class, 'text-break')]".

Definition li_xpath : string := ".//li".
Definition name_col_xpath : string := ".//div[contains(@class, 'name-col')]".
Definition value_col_xpath : string := ".//div[contains(@class, 'value-col')]".

Definition spec_section_selectors : list string :=
  [ "//*[contains(text(), 'Product Details & Documents and Specifications')]";
    "//*[contains(text(), 'Product Details') and contains(text(), 'Specifications')]";
    "//*[contains(text(), 'Specifications')]/ancestor::*[contains(@class, 'accordion') or contains(@class, 'panel') or contains(@class, 'tab')]";
    "//*[contains(text(), 'Product Details')]/ancestor::*[contains(@class, 'accordion') or contains(@class, 'panel')]";
    "//*[contains(text(), 'Specifications')]/parent::*";
    "//button[contains(text(), 'Product Details')] | //a[contains(text(), 'Product Details')]";
    "//button[contains(text(), 'Specifications')] | //a[contains(text(), 'Specifications')]" ].

Definition section_parent_xpath : string :=
  "./ancestor::*[contains(@class, 'accordion') or contains(@class, 'panel') or contains(@class, 'tab-content')][1]".

Definition table_xpath : string := ".//table".
Definition tr_xpath : string := ".//tr".
Definition cells_xpath : string := ".//td | .//th".
Definition dl_xpath : string := ".//dl".
Definition dt_xpath : string := ".//dt".
Definition dd_xpath : string := ".//dd".
Definition following_sibling_xpath : string := "./following-sibling::*".

Definition spec_selectors : list string :=
  [ "//table[contains(@class, 'specification')]";
    "//table[contains(@class, 'spec')]";
    "//table[contains(@class, 'property')]";
    "//table[contains(@class, 'attribute')]";
    "//table[contains(@class, 'details')]";
    "//dl[contains(@class, 'specification')]";
    "//dl[contains(@class, 'property')]";
    "//div[contains(@class, 'specifications')]//table";
    "//div[contains(@class, 'specs')]//table";
    "//*[contains(@class, 'specification-table')]";
    "//*[contains(@class, 'product-specifications')]//table";
    "//*[contains(@class, 'product-specs')]//table" ].

Definition dl_selectors : list string :=
  [ "//dl[contains(@class, 'specification')]";
    "//dl[contains(@class, 'property')]";
    "//dl[contains(@class, 'attribute')]";
    "//dl[contains(@class, 'details')]";
    "//div[contains(@class, 'specifications')]//dl";
    "//div[contains(@class, 'specs')]//dl" ].

Definition spec_items_xpath : string :=
  "//div[contains(@class, 'specification')]//div[contains(@class, 'property')] | " ++
  "//div[contains(@class, 'spec-item')] | " ++
  "//div[contains(@class, 'property-item')] | " ++
  "//div[contains(@class, 'attribute-item')] | " ++
  "//div[contains(@class, 'spec')]//div[contains(@class, 'row')]".

Definition key_elem_xpath : string :=
  ".//*[contains(@class, 'key')] | .//*[contains(@class, 'label')] | .//*[contains(@class, 'name')] | .//strong | .//b".
Definition value_elem_xpath : string :=
  ".//*[contains(@class, 'value')] | .//*[contains(@class, 'data')] | .//span[not(contains(@class, 'key'))]".

Definition spec_lists_xpath : string :=
  "//div[contains(@class, 'specification')]//ul | " ++
  "//div[contains(@class, 'specs')]//ul | " ++
  "//*[contains(@class, 'product-specifications')]//ul | " ++
  "//ul[contains(@class, 'specification')]".

Definition accordion_selectors : list string :=
  [ "//div[contains(@class, 'accordion')]//div[contains(text(), 'Specification') or contains(text(), 'Specs')]/following-sibling::*";
    "//div[contains(@class, 'tab-content')]//div[contains(@class, 'specification')]";
    "//ngb-accordion//*[contains(text(), 'Specification')]/following-sibling::*";
    "//div[contains(@class, 'panel')]//div[contains(@class, 'specification')]" ].

Definition all_spec_divs_xpath : string :=
  "//div[contains(translate(@class, 'ABCDEFGHIJKLMNOPQRSTUVWXYZ', 'abcdefghijklmnopqrstuvwxyz'), 'specification')] | " ++
  "//div[contains(translate(@class, 'ABCDEFGHIJKLMNOPQRSTUVWXYZ', 'abcdefghijklmnopqrstuvwxyz'), 'property')] | " ++
  "//div[contains(translate(@id, 'ABCDEFGHIJKLMNOPQRSTUVWXYZ', 'abcdefghijklmnopqrstuvwxyz'), 'specification')] | " ++
  "//*[contains(translate(text(), 'ABCDEFGHIJKLMNOPQRSTUVWXYZ', 'abcdefghijklmnopqrstuvwxyz'), 'specification')]/following-sibling::*".

Definition json_ld_xpath : string := "//script[@type='application/ld+json']".
Definition all_tables_xpath : string := "//table".

Definition all_text_elements_xpath : string :=
  "//div[contains(@class, 'product')] | " ++
  "//div[contains(@class, 'details')] | " ++
  "//div[contains(@class, 'content')]".

Definition data_elements_xpath : string :=
  "//*[@data-spec] | " ++
  "//*[@data-property] | " ++
  "//*[@data-attribute] | " ++
  "//*[contains(@data-*, 'spec')]".

Definition availability_selectors : list string :=
  [ "//*[contains(@class, 'availability')]";
    "//*[contains(@class, 'stock')]";
    "//*[contains(text(), 'In Stock')] | //*[contains(text(), 'Out of Stock')]" ].

(** The expressions with which the strategies search the whole page. *)
Definition strategy_xpaths : list string :=
  spec_table_ul_xpath :: spec_section_selectors ++ spec_selectors
  ++ dl_selectors
  ++ [spec_items_xpath; spec_lists_xpath] ++ accordion_selectors
  ++ [all_spec_divs_xpath; json_ld_xpath; all_tables_xpath;
      all_text_elements_xpath; data_elements_xpath].

Section ExtractProductData.

Variable D : WebDriver.
(** [str.lower] *)
Variable lower : str -> str.
(** [re.search(r'[\d,]+\.?\d*', t)] and the search for a currency code or sign:
    the text matched, if any. *)
Variable search_price : str -> option str.
Variable search_currency : str -> option str.
(** [json.loads] *)
Variable json_loads : str -> result json.

Record state : Type := {
  browser : world D;
  vars : locals
}.

Definition X (A : Type) : Type := M state A.

(** A call of the driver. *)
Definition call {A} (f : world D -> result A * world D) : X A :=
  fun s =>
    let (r, w) := f (browser s) in
    (r, {| browser := w; vars := vars s |}).

Definition find_elements (ctx : option (elem D)) (xp : string)
  : X (list (elem D)) :=
  call (find_elements_by_xpath D ctx xp).

(** [find_element] gives the first element found and raises when there is
    none. *)
Definition find_element (ctx : option (elem D)) (xp : string) : X (elem D) :=
  found <- find_elements ctx xp ;;
  match found with
  | e :: _ => ret e
  | [] => raise NoSuchElementException
  end.

Definition text (e : elem D) : X str := call (element_text D e).
Definition tag_name (e : elem D) : X str := call (element_tag_name D e).
Definition click (e : elem D) : X unit := call (element_click D e).
Definition get_attribute (e : elem D) (name : string) : X (option str) :=
  call (element_get_attribute D e name).
Definition run_script (js : string) (e : elem D) : X (dict str) :=
  call (execute_script D js e).
Definition time_sleep : X unit :=
  fun s => (Ok tt, {| browser := sleep D (browser s); vars := vars s |}).

Definition update (f : product_data -> product_data) : X unit :=
  modify (fun s =>
    {| browser := browser s;
       vars := {| data := f (data (vars s));
                  spec_section_found := spec_section_found (vars s) |} |}).

(** [product_data["specifications"]] *)
Definition get_specs : X (dict str) :=
  gets (fun s => specifications (data (vars s))).

(** [product_data["specifications"][key] = value] *)
Definition set_spec (key value : str) : X unit :=
  update (fun p => with_specifications (dict_set (specifications p) key value) p).

Definition assign_spec_section_found (b : bool) : X unit :=
  modify (fun s =>
    {| browser := browser s;
       vars := {| data := data (vars s); spec_section_found := Some b |} |}).

(** Reading the variable raises while it is unbound. *)
Definition read_spec_section_found : X bool :=
  fun s =>
    match spec_section_found (vars s) with
    | Some b => (Ok b, s)
    | None => (Raise UnboundLocalError, s)
    end.

(** [if product_data["specifications"]: break] *)
Definition break_if_specs : X ctl :=
  specs <- get_specs ;;
  ret (if nonempty specs then Break else Next).

(** [if not product_data["specifications"]: m] *)
Definition unless_specs (m : X unit) : X unit :=
  specs <- get_specs ;;
  if nonempty specs then ret tt else m.

(** ** The scalar fields (lines 797-925) *)

Definition extract_title : X unit :=
  for_each title_selectors (fun selector =>
    try_except
      (title <- find_element None selector ;;
       t <- text title ;;
       update (with_product_name (Some (strip t))) ;;
       ret Break)
      (ret Next)).

Definition extract_sku : X unit :=
  for_each sku_selectors (fun selector =>
    try_except
      (sku <- find_element None selector ;;
       t <- text sku ;;
       update (with_product_code (Some (strip t))) ;;
       ret Break)
      (ret Next)).

Definition extract_price : X unit :=
  for_each price_selectors (fun selector =>
    try_except
      (price_elem <- find_element None selector ;;
       t <- text price_elem ;;
       let price_text := strip t in
       match search_price price_text with
       | Some m => update (with_price (Some (replace (py ",") [] m)))
       | None => ret tt
       end ;;
       match search_currency price_text with
       | Some m => update (with_currency (Some m))
       | None => ret tt
       end ;;
       ret Break)
      (ret Next)).

(** Lines 859-883. *)
Definition expand_description : X unit :=
  try_except
    (collapsed_section <- find_element None collapsed_xpath ;;
     try_except
       (expand_link <- find_element None expand_link_xpath ;;
        run_script js_scroll_into_view expand_link ;;
        time_sleep ;;
        click expand_link ;;
        time_sleep)
       (try_except
          (run_script js_remove_collapsed collapsed_section ;;
           time_sleep)
          (ret tt)))
    (ret tt).

(** Lines 893-904 and 916-925. *)
Definition description_from (selectors : list string) : X unit :=
  for_each selectors (fun selector =>
    try_except
      (desc_elem <- find_element None selector ;;
       t <- text desc_elem ;;
       let desc_text := strip t in
       if nonempty desc_text && (20 <? List.length desc_text)%nat
       then update (with_description (Some desc_text)) ;; ret Break
       else ret Next)
      (ret Next)).

Definition extract_description : X unit :=
  expand_description ;;
  description_from desc_selectors ;;
  d <- gets (fun s => description (data (vars s))) ;;
  match d with
  | Some (_ :: _) => ret tt
  | _ => description_from fallback_selectors
  end.

(** ** Reading key/value pairs *)

(** One table row (lines 1035-1043, 1136-1144, 1275-1283, 1361-1372); the
    places differ in the test [accept] on the key and the value. *)
Definition scan_row (accept : str -> str -> bool) (row : elem D) : X ctl :=
  try_except
    (cells <- find_elements (Some row) cells_xpath ;;
     match cells with
     | c0 :: c1 :: _ =>
         k <- text c0 ;;
         let key := strip k in
         v <- text c1 ;;
         let value := strip v in
         when (accept key value) (set_spec key value)
     | _ => ret tt
     end ;;
     ret Next)
    (ret Next).

Definition both_nonempty (key value : str) : bool :=
  nonempty key && nonempty value.

(** [parts = s.split(sep, 1)]; [parts[0].strip()], [parts[1].strip()],
    read where [sep in s] has been tested, so that there are two parts. *)
Definition split_pair (sep s : str) : str * str :=
  match split_max sep 1 s with
  | a :: b :: _ => (strip a, strip b)
  | a :: [] => (strip a, [])
  | [] => ([], [])
  end.

(** A line of the text of a section (lines 1062-1074). *)
Definition section_line (line : str) : option (str * str) :=
  let line := strip line in
  if contains (py ":") line && (List.length (split (py ":") line) =? 2)%nat
  then
    let (key, value) := split_pair (py ":") line in
    if both_nonempty key value
       && (2 <? List.length key)%nat && (List.length key <? 80)%nat
    then Some (key, value) else None
  else if contains (py " - ") line
          && (List.length (split (py " - ") line) =? 2)%nat
  then
    let (key, value) := split_pair (py " - ") line in
    if both_nonempty key value
       && (2 <? List.length key)%nat && (List.length key <? 80)%nat
    then Some (key, value) else None
  else None.

(** A line split on its first colon (lines 1092-1098, 1308-1314). *)
Definition colon_line (accept : str -> str -> bool) (line : str)
  : option (str * str) :=
  if contains (py ":") line
  then
    let (key, value) := split_pair (py ":") line in
    if accept key value then Some (key, value) else None
  else None.

(** The text of a list item (lines 1233-1248). *)
Definition list_item_line (text : str) : option (str * str) :=
  if contains (py ":") text
  then
    let (key, value) := split_pair (py ":") text in
    if both_nonempty key value then Some (key, value) else None
  else if contains (py " - ") text
  then
    let (key, value) := split_pair (py " - ") text in
    if both_nonempty key value then Some (key, value) else None
  else None.

Definition skip_words : list str :=
  [py "price"; py "cart"; py "buy"; py "add to"; py "description";
   py "overview"; py "return"].

(** A line of the free text (lines 1400-1416). *)
Definition free_text_line (line : str) : option (str * str) :=
  let line := strip line in
  if contains (py ":") line && (List.length (split (py ":") line) =? 2)%nat
  then
    let (key, value) := split_pair (py ":") line in
    if both_nonempty key value
       && (2 <? List.length key)%nat && (List.length key <? 50)%nat
       && (List.length value <? 200)%nat
    then
      if negb (existsb (fun skip => contains skip (lower key)) skip_words)
      then Some (key, value) else None
    else None
  else if contains (py " - ") line
          && (List.length (split (py " - ") line) =? 2)%nat
  then
    let (key, value) := split_pair (py " - ") line in
    if both_nonempty key value
       && (2 <? List.length key)%nat && (List.length key <? 50)%nat
       && (List.length value <? 200)%nat
    then Some (key, value) else None
  else None.

(** [for line in lines:] with a body that admits a pair or nothing. *)
Definition scan_lines (parse : str -> option (str * str)) (lines : list str)
  : X unit :=
  for_each lines (fun line =>
    match parse line with
    | Some (key, value) => set_spec key value
    | None => ret tt
    end ;;
    ret Next).

(** ** The strategies *)

(** The key of a [name-col] text (lines 958-963). *)
Definition name_key (name_text : str) : str :=
  let key := strip name_text in
  if ends_with (py ":") key then strip (removelast key) else key.

(** Method 0, lines 936-985: the [ul.spec-table] list.  The test
    [if spec_table_ul:] is the loop over an empty list. *)
Definition scan_spec_table_item (li : elem D) : X ctl :=
  try_except
    (name_col <- find_elements (Some li) name_col_xpath ;;
     value_col <- find_elements (Some li) value_col_xpath ;;
     match name_col, value_col with
     | n :: _, v :: _ =>
         k <- text n ;;
         v <- text v ;;
         let value := strip v in
         let key := name_key k in
         when (both_nonempty key value) (set_spec key value)
     | _, _ => ret tt
     end ;;
     ret Next)
    (ret Next).

Definition method0 : X unit :=
  try_except
    (spec_table_ul <- find_elements None spec_table_ul_xpath ;;
     for_each spec_table_ul (fun ul =>
       try_except
         (list_items <- find_elements (Some ul) li_xpath ;;
          for_each list_items scan_spec_table_item ;;
          break_if_specs)
         (ret Next)))
    (ret tt).

(** Lines 1022-1078: the container of the section element. *)
Definition section_table_accept (key value : str) : bool :=
  both_nonempty key value
  && negb (str_in (lower key) [py "property"; py "value"; py "specification"]).

Definition scan_definition_list (dl : elem D) : X ctl :=
  dts <- find_elements (Some dl) dt_xpath ;;
  dds <- find_elements (Some dl) dd_xpath ;;
  for_each (combine dts dds) (fun p =>
    k <- text (fst p) ;;
    v <- text (snd p) ;;
    let key := strip k in
    let value := strip v in
    when (both_nonempty key value) (set_spec key value) ;;
    ret Next) ;;
  ret Next.

Definition scan_section_parent (spec_section_elem : elem D) : X ctl :=
  parent <- find_element (Some spec_section_elem) section_parent_xpath ;;
  tables <- find_elements (Some parent) table_xpath ;;
  for_each tables (fun table =>
    rows <- find_elements (Some table) tr_xpath ;;
    for_each rows (scan_row section_table_accept) ;;
    ret Next) ;;
  unless_specs
    (dls <- find_elements (Some parent) dl_xpath ;;
     for_each dls scan_definition_list) ;;
  unless_specs
    (all_text <- text parent ;;
     scan_lines section_line (split [LF] all_text)) ;;
  break_if_specs.

(** Lines 1083-1102: the siblings that follow the section element. *)
Definition scan_section_siblings (spec_section_elem : elem D) : X unit :=
  try_except
    (following_siblings <-
       find_elements (Some spec_section_elem) following_sibling_xpath ;;
     for_each (firstn 5 following_siblings) (fun sibling =>
       try_except
         (t <- text sibling ;;
          let text := strip t in
          when (nonempty text)
            (scan_lines (colon_line both_nonempty) (split [LF] text)) ;;
          ret Next)
         (ret Next)))
    (ret tt).

(** Lines 1005-1016: a button or a link is clicked. *)
Definition reveal_section (spec_section_elem : elem D) : X unit :=
  tag <- tag_name spec_section_elem ;;
  when (str_in tag [py "button"; py "a"])
    (try_except
       (run_script js_scroll_into_view spec_section_elem ;;
        time_sleep ;;
        click spec_section_elem ;;
        time_sleep)
       (run_script js_click spec_section_elem ;;
        time_sleep)).

(** Lines 1000-1108: the loop over [spec_section_selectors].  It is not
    under the test of line 988. *)
Definition scan_labeled_sections : X unit :=
  for_each spec_section_selectors (fun selector =>
    try_except
      (spec_section_elem <- find_element None selector ;;
       reveal_section spec_section_elem ;;
       assign_spec_section_found true ;;
       c <- try_except
              (scan_section_parent spec_section_elem)
              (scan_section_siblings spec_section_elem ;; ret Next) ;;
       match c with
       | Break => ret Break
       | Next => break_if_specs
       end)
      (ret Next)).

(** Lines 988-1111. *)
Definition labeled_section : X unit :=
  unless_specs (assign_spec_section_found false) ;;
  scan_labeled_sections ;;
  found <- read_spec_section_found ;;
  ret tt.

(** Method 1, lines 1114-1150: tables with a class hint.  It is under no
    test of [product_data["specifications"]]. *)
Definition table_accept (key value : str) : bool :=
  both_nonempty key value
  && negb (str_in (lower key)
             [[]; py "property"; py "value"; py "specification"]).

Definition method1 : X unit :=
  for_each spec_selectors (fun selector =>
    try_except
      (spec_table <- find_element None selector ;;
       rows <- find_elements (Some spec_table) tr_xpath ;;
       for_each rows (scan_row table_accept) ;;
       break_if_specs)
      (ret Next)).

(** Method 2, lines 1153-1186: definition lists. *)
Definition method2 : X unit :=
  unless_specs
    (try_except
       (for_each dl_selectors (fun dl_selector =>
          try_except
            (dl_elements <- find_elements None dl_selector ;;
             for_each dl_elements (fun dl =>
               dts <- find_elements (Some dl) dt_xpath ;;
               dds <- find_elements (Some dl) dd_xpath ;;
               for_each (combine dts dds) (fun p =>
                 try_except
                   (k <- text (fst p) ;;
                    v <- text (snd p) ;;
                    let key := strip k in
                    let value := strip v in
                    when (both_nonempty key value) (set_spec key value) ;;
                    ret Next)
                   (ret Next)) ;;
               ret Next) ;;
             break_if_specs)
            (ret Next)))
       (ret tt)).

(** Method 3, lines 1189-1217: key and value inside a [div]. *)
Definition method3 : X unit :=
  unless_specs
    (try_except
       (spec_items <- find_elements None spec_items_xpath ;;
        for_each spec_items (fun item =>
          try_except
            (key_elem <- find_elements (Some item) key_elem_xpath ;;
             value_elem <- find_elements (Some item) value_elem_xpath ;;
             match key_elem, value_elem with
             | ke :: _, ve :: _ =>
                 k <- text ke ;;
                 v <- text ve ;;
                 let key := strip k in
                 let value := strip v in
                 when (both_nonempty key value) (set_spec key value)
             | _, _ => ret tt
             end ;;
             ret Next)
            (ret Next)))
       (ret tt)).

(** Method 4, lines 1220-1255: the text of list items. *)
Definition method4 : X unit :=
  unless_specs
    (try_except
       (spec_lists <- find_elements None spec_lists_xpath ;;
        for_each spec_lists (fun ul =>
          try_except
            (list_items <- find_elements (Some ul) li_xpath ;;
             for_each list_items (fun li =>
               t <- text li ;;
               match list_item_line (strip t) with
               | Some (key, value) => set_spec key value
               | None => ret tt
               end ;;
               ret Next) ;;
             ret Next)
            (ret Next)))
       (ret tt)).

(** Method 5, lines 1258-1290: accordions and tabs. *)
Definition method5 : X unit :=
  unless_specs
    (try_except
       (for_each accordion_selectors (fun selector =>
          try_except
            (spec_section <- find_element None selector ;;
             rows <- find_elements (Some spec_section) tr_xpath ;;
             for_each rows (scan_row both_nonempty) ;;
             ret Next)
            (ret Next)))
       (ret tt)).

(** Method 6, lines 1293-1321: elements tagged by class or id. *)
Definition generic_accept (key value : str) : bool :=
  both_nonempty key value
  && (List.length key <? 100)%nat && (List.length value <? 500)%nat.

Definition method6 : X unit :=
  unless_specs
    (try_except
       (all_spec_divs <- find_elements None all_spec_divs_xpath ;;
        for_each all_spec_divs (fun div =>
          try_except
            (t <- text div ;;
             scan_lines (colon_line generic_accept) (split [LF] (strip t)) ;;
             ret Next)
            (ret Next)))
       (ret tt)).

(** Method 7, lines 1324-1347: JSON-LD. *)
Definition json_get (k : str) (j : json) : option json :=
  match j with
  | JObj fields => dict_lookup fields k
  | _ => None
  end.

(** [str(value)] where [isinstance(value, (str, int, float))]; a [bool] is
    an [int]. *)
Definition scalar_str (value : json) : option str :=
  match value with
  | JStr s => Some s
  | JNum shown => Some shown
  | JBool true => Some (py "True")
  | JBool false => Some (py "False")
  | _ => None
  end.

Definition json_ld_stop : list str :=
  [py "@type"; py "@context"; py "name"; py "image"; py "description"].

(** The object [data['offers']['itemOffered']], when the tests of lines
    1332-1334 pass. *)
Definition item_offered (data : json) : option json :=
  match data with
  | JObj _ =>
      match json_get (py "offers") data with
      | Some (JObj offers) => dict_lookup offers (py "itemOffered")
      | _ => None
      end
  | _ => None
  end.

Definition scan_json_ld (script : elem D) : X ctl :=
  try_except
    (html <- get_attribute script "innerHTML" ;;
     data <- match html with
             | Some t => fun s => (json_loads t, s)
             | None => raise TypeError
             end ;;
     match item_offered data with
     | Some (JObj item) =>
         for_each item (fun kv =>
           when (negb (str_in (fst kv) json_ld_stop))
             (match scalar_str (snd kv) with
              | Some shown => set_spec (fst kv) shown
              | None => ret tt
              end) ;;
           ret Next)
     | Some _ => raise AttributeError
     | None => ret tt
     end ;;
     ret Next)
    (ret Next).

Definition method7 : X unit :=
  unless_specs
    (try_except
       (json_ld_scripts <- find_elements None json_ld_xpath ;;
        for_each json_ld_scripts scan_json_ld)
       (ret tt)).

(** Method 8, lines 1350-1381: any table of the page. *)
Definition any_table_accept (key value : str) : bool :=
  both_nonempty key value
  && (0 <? List.length key)%nat && (List.length key <? 100)%nat
  && negb (str_in (lower key)
             [py "home"; py "products"; py "services"; py "about";
              py "contact"; py "menu"]).

Definition method8 : X unit :=
  unless_specs
    (try_except
       (all_tables <- find_elements None all_tables_xpath ;;
        for_each all_tables (fun table =>
          try_except
            (rows <- find_elements (Some table) tr_xpath ;;
             if (2 <=? List.length rows)%nat
             then for_each rows (scan_row any_table_accept) ;;
                  break_if_specs
             else ret Next)
            (ret Next)))
       (ret tt)).

(** Method 9, lines 1384-1423: lines of free text. *)
Definition method9 : X unit :=
  unless_specs
    (try_except
       (all_text_elements <- find_elements None all_text_elements_xpath ;;
        for_each all_text_elements (fun e =>
          try_except
            (t <- text e ;;
             scan_lines free_text_line (split [LF] (strip t)) ;;
             ret Next)
            (ret Next)))
       (ret tt)).

(** Method 10, lines 1426-1458: attributes of elements. *)
Definition attr_accept (attr_name : str) : bool :=
  contains (py "spec") (lower attr_name)
  || contains (py "property") (lower attr_name).

Definition method10 : X unit :=
  unless_specs
    (try_except
       (data_elements <- find_elements None data_elements_xpath ;;
        for_each data_elements (fun e =>
          try_except
            (attrs <- run_script js_attributes e ;;
             for_each attrs (fun a =>
               when (attr_accept (fst a)) (set_spec (fst a) (snd a)) ;;
               ret Next) ;;
             ret Next)
            (ret Next)))
       (ret tt)).

(** Lines 1470-1481. *)
Definition extract_availability : X unit :=
  for_each availability_selectors (fun selector =>
    try_except
      (avail <- find_element None selector ;;
       t <- text avail ;;
       update (with_availability (Some (strip t))) ;;
       ret Break)
      (ret Next)).

(** Lines 927-1458: the specifications. *)
Definition extract_specifications : X unit :=
  method0 ;;
  labeled_section ;;
  method1 ;;
  method2 ;;
  method3 ;;
  method4 ;;
  method5 ;;
  method6 ;;
  method7 ;;
  method8 ;;
  method9 ;;
  method10.

(** Lines 793-1486: the body of the outer [try]. *)
Definition extract_body : X unit :=
  extract_title ;;
  extract_sku ;;
  extract_price ;;
  extract_description ;;
  extract_specifications ;;
  extract_availability.

(** Lines 781-791: the dictionary literal, for the URL that was read. *)
Definition initial_product_data (current_url : str) : product_data :=
  {| product_code := None; product_name := None; model_number := None;
     description := None; price := None; currency := None;
     specifications := []; availability := None;
     url := current_url |}.

Definition initial_state (current_url : str) (w : world D) : state :=
  {| browser := w;
     vars := {| data := initial_product_data current_url;
                spec_section_found := None |} |}.

(** Lines 793-1488: the [try] statement and the [return]. *)
Definition extract_product_data_from : X product_data :=
  try_except extract_body (ret tt) ;;
  gets (fun s => data (vars s)).

(** [extract_product_data()] with the browser in state [w].  The URL is
    read at line 790, before the [try] of line 793: an exception of that
    command leaves the function. *)
Definition extract_product_data (w : world D)
  : result product_data * world D :=
  match current_url D w with
  | (Ok u, w1) =>
      let (r, s) := extract_product_data_from (initial_state u w1) in
      (r, browser s)
  | (Raise e, w1) => (Raise e, w1)
  end.

(** One strategy alone, on a record without specifications. *)
Definition strategy_alone (strategy : X unit) (w : world D) : dict str :=
  specifications (data (vars (snd (strategy (initial_state [] w))))).

(** ** Notions for the statements *)

(** An assertion about [product_data["specifications"]]. *)
Definition on_specs (P : dict str -> Prop) : state -> Prop :=
  fun s => P (specifications (data (vars s))).

(** No strategy finds a structure: whatever the state of the browser, a
    search of the whole page with an expression of a strategy finds no
    element (or fails). *)
Definition no_structure : Prop :=
  forall xp w, In xp strategy_xpaths ->
    match fst (find_elements_by_xpath D None xp w) with
    | Ok found => found = []
    | Raise _ => True
    end.

(** One command of the driver takes the browser from [w] to [w']. *)
Inductive step : world D -> world D -> Prop :=
| step_current_url w : step w (snd (current_url D w))
| step_find_elements ctx xp w :
    step w (snd (find_elements_by_xpath D ctx xp w))
| step_text e w : step w (snd (element_text D e w))
| step_tag_name e w : step w (snd (element_tag_name D e w))
| step_click e w : step w (snd (element_click D e w))
| step_get_attribute e name w :
    step w (snd (element_get_attribute D e name w))
| step_script js e w : step w (snd (execute_script D js e w))
| step_sleep w : step w (sleep D w).

(** The entry that the JSON-LD strategy stores as it finds it, when the
    function is entered with the browser in state [w0]: the search of line
    1327 has found the script on the page, its [innerHTML] has been read
    after that, and the entry is a property of the [itemOffered] object of
    that text, outside the names of line 1338 and with a value of line
    1339. *)
Definition json_ld_entry (w0 : world D) (k v : str) : Prop :=
  exists w1 scripts script w2 t data item value,
    reachable step w0 w1
    /\ fst (find_elements_by_xpath D None json_ld_xpath w1) = Ok scripts
    /\ In script scripts
    /\ reachable step (snd (find_elements_by_xpath D None json_ld_xpath w1)) w2
    /\ fst (element_get_attribute D script "innerHTML" w2) = Ok (Some t)
    /\ json_loads t = Ok data
    /\ item_offered data = Some (JObj item)
    /\ In (k, value) item
    /\ str_in k json_ld_stop = false
    /\ scalar_str value = Some v.

(** The entry that the attribute strategy stores as it finds it: the
    search of line 1431 has found the element on the page, the script of
    line 1441 has listed its attributes after that, and the entry is one
    of them, with a name that line 1452 accepts. *)
Definition attribute_entry (w0 : world D) (k v : str) : Prop :=
  exists w1 data_elements e w2 attrs,
    reachable step w0 w1
    /\ fst (find_elements_by_xpath D None data_elements_xpath w1)
       = Ok data_elements
    /\ In e data_elements
    /\ reachable step
         (snd (find_elements_by_xpath D None data_elements_xpath w1)) w2
    /\ fst (execute_script D js_attributes e w2) = Ok attrs
    /\ In (k, v) attrs
    /\ attr_accept k = true.

Definition verbatim_entry (w0 : world D) (k v : str) : Prop :=
  json_ld_entry w0 k v \/ attribute_entry w0 k v.

(** A key that a strategy stores as it finds it on the page. *)
Definition verbatim_key (w0 : world D) (k : str) : Prop :=
  exists v, verbatim_entry w0 k v.

Definition good_key (w0 : world D) (k : str) : Prop :=
  trimmed k \/ verbatim_key w0 k.

Definition good_keys (w0 : world D) (specs : dict str) : Prop :=
  forall k, In k (dict_keys specs) -> good_key w0 k.

(** An assertion about the browser and about the specifications. *)
Definition on_page (R : world D -> Prop) (P : dict str -> Prop)
  : state -> Prop :=
  fun s => R (browser s) /\ P (specifications (data (vars s))).

(** The browser has been in a state of [R], a call [f] has returned [a]
    there, and the state now is a state after that call. *)
Definition since {A} (R : world D -> Prop)
           (f : world D -> result A * world D) (a : A) : world D -> Prop :=
  fun w =>
    R w /\ exists w1, R w1 /\ fst (f w1) = Ok a
                      /\ reachable step (snd (f w1)) w.

End ExtractProductData.

Arguments browser {D} s.
Arguments vars {D} s.

End Extract.

(** ** Concrete pages *)

Module ExtractFixtures.
Import PyStr Monad Extract.
Import Csv(dict).
Local Open Scope string_scope.
Local Open Scope list_scope.

(** [str.lower] on the letters A-Z; the pages below hold no other cased
    letter. *)
Definition ascii_lower (s : str) : str :=
  map (fun c => if ((65 <=? c) && (c <=? 90))%N then (c + 32)%N else c) s.

Definition no_match : str -> option str := fun _ => None.
Definition no_json : str -> result json := fun _ => Raise ValueError.

(** The elements of the pages. *)
Inductive node : Type :=
| Ul | Li | NameCol | ValueCol
| H1 | H3 | Panel | Table | Tr | Td1 | Td2 | Div.

(** A page that does not change and whose driver does not fail: [query]
    answers the searches, [txt] is the text of an element and [tag] its
    tag. *)
Definition static_page (query : option node -> string -> list node)
           (txt : node -> str) (tag : node -> str) : WebDriver :=
  {| world := unit;
     elem := node;
     current_url :=
       fun w => (Ok (py "https://www.avantorsciences.com/us/en/product/1"), w);
     find_elements_by_xpath := fun ctx xp w => (Ok (query ctx xp), w);
     element_text := fun e w => (Ok (txt e), w);
     element_tag_name := fun e w => (Ok (tag e), w);
     element_click := fun e w => (Ok tt, w);
     element_get_attribute := fun e name w => (Ok None, w);
     execute_script := fun js e w => (Ok [], w);
     sleep := fun w => w |}.

Definition extract (page : WebDriver) (w : world page) :=
  extract_product_data page ascii_lower no_match no_match no_json w.

Definition same (a b : string) : bool := String.eqb a b.

Definition tag_of (e : node) : str :=
  match e with
  | Ul => py "ul" | Li => py "li"
  | NameCol | ValueCol | Panel | Div => py "div"
  | H1 => py "h1" | H3 => py "h3"
  | Table => py "table" | Tr => py "tr" | Td1 | Td2 => py "td"
  end.

(** A page with a specification list and a labeled section:
<<
<ul class="spec-table text-break">
  <li><div class="name-col">Purity:</div><div class="value-col">99%</div></li>
</ul>
<div class="panel">
  <h3>Product Details and Specifications</h3>
  <table><tr><td>Color</td><td>clear</td></tr></table>
</div>
>> *)
Definition list_and_section_query (ctx : option node) (xp : string)
  : list node :=
  match ctx with
  | None =>
      if same xp spec_table_ul_xpath then [Ul]
      else if same xp (nth 1 spec_section_selectors "") then [H3]
      else if same xp (nth 2 spec_section_selectors "") then [Panel]
      else if same xp (nth 3 spec_section_selectors "") then [Panel]
      else if same xp (nth 4 spec_section_selectors "") then [Panel]
      else if same xp all_spec_divs_xpath then [Table]
      else if same xp all_tables_xpath then [Table]
      else []
  | Some Ul => if same xp li_xpath then [Li] else []
  | Some Li =>
      if same xp name_col_xpath then [NameCol]
      else if same xp value_col_xpath then [ValueCol]
      else []
  | Some H3 =>
      if same xp section_parent_xpath then [Panel]
      else if same xp following_sibling_xpath then [Table]
      else []
  | Some Panel =>
      if same xp table_xpath then [Table]
      else if same xp tr_xpath then [Tr]
      else if same xp cells_xpath then [Td1; Td2]
      else []
  | Some Table =>
      if same xp tr_xpath then [Tr]
      else if same xp cells_xpath then [Td1; Td2]
      else []
  | Some Tr => if same xp cells_xpath then [Td1; Td2] else []
  | Some _ => []
  end.

Definition list_and_section_text (e : node) : str :=
  match e with
  | NameCol => py "Purity:"
  | ValueCol => py "99%"
  | Li | Ul => py "Purity:" ++ [LF] ++ py "99%"
  | H3 => py "Product Details and Specifications"
  | Td1 => py "Color"
  | Td2 => py "clear"
  | Tr | Table => py "Color clear"
  | Panel => py "Product Details and Specifications" ++ [LF] ++ py "Color clear"
  | _ => []
  end.

Definition list_and_section_page : WebDriver :=
  static_page list_and_section_query list_and_section_text tag_of.

(** A page with a table whose name cell ends in a colon:
<<
<table class="specification"><tr><td>Purity:</td><td>99%</td></tr></table>
>> *)
Definition colon_table_query (ctx : option node) (xp : string) : list node :=
  match ctx with
  | None =>
      if same xp (nth 0 spec_selectors "") then [Table]
      else if same xp (nth 1 spec_selectors "") then [Table]
      else if same xp all_tables_xpath then [Table]
      else []
  | Some Table =>
      if same xp tr_xpath then [Tr]
      else if same xp cells_xpath then [Td1; Td2]
      else []
  | Some Tr => if same xp cells_xpath then [Td1; Td2] else []
  | Some _ => []
  end.

Definition colon_table_text (e : node) : str :=
  match e with
  | Td1 => py "Purity:"
  | Td2 => py "99%"
  | Tr | Table => py "Purity: 99%"
  | _ => []
  end.

Definition colon_table_page : WebDriver :=
  static_page colon_table_query colon_table_text tag_of.

(** A page with a title and nothing else: [<h1>Widget</h1>] *)
Definition title_query (ctx : option node) (xp : string) : list node :=
  match ctx with
  | None => if same xp (nth 3 title_selectors "") then [H1] else []
  | Some _ => []
  end.

Definition title_text (e : node) : str :=
  match e with
  | H1 => py "Widget"
  | _ => []
  end.

Definition title_page : WebDriver :=
  static_page title_query title_text tag_of.

(** The same page with a JavaScript alert.  While the alert is open (the
    state [true]) a command of the driver raises
    [UnexpectedAlertPresentException], a [WebDriverException], and the
    alert is dismissed by it. *)
Definition alerting {A} (a : A) (w : bool) : result A * bool :=
  if w then (Raise WebDriverException, false) else (Ok a, false).

Definition alert_page : WebDriver :=
  {| world := bool;
     elem := node;
     current_url :=
       alerting (py "https://www.avantorsciences.com/us/en/product/1");
     find_elements_by_xpath := fun ctx xp => alerting (title_query ctx xp);
     element_text := fun e => alerting (title_text e);
     element_tag_name := fun e => alerting (tag_of e);
     element_click := fun e => alerting tt;
     element_get_attribute := fun e name => alerting None;
     execute_script := fun js e => alerting [];
     sleep := fun w => w |}.

(** A page with one line of free text:
    [<div class="content">Price - 10 USD</div>] *)
Definition free_text_query (ctx : option node) (xp : string) : list node :=
  match ctx with
  | None => if same xp all_text_elements_xpath then [Div] else []
  | Some _ => []
  end.

Definition free_text_text (e : node) : str :=
  match e with
  | Div => py "Price - 10 USD"
  | _ => []
  end.

Definition free_text_page : WebDriver :=
  static_page free_text_query free_text_text tag_of.

(** A page with embedded JSON-LD and nothing else:
<<
<script type="application/ld+json">
{"offers": {"itemOffered": {"@type": "Product", " Material ": "steel"}}}
</script>
>> *)
Definition json_ld_page : WebDriver :=
  {| world := unit;
     elem := node;
     current_url :=
       fun w => (Ok (py "https://www.avantorsciences.com/us/en/product/2"), w);
     find_elements_by_xpath :=
       fun ctx xp w =>
         (Ok (match ctx with
              | None => if same xp json_ld_xpath then [Div] else []
              | Some _ => []
              end), w);
     element_text := fun e w => (Ok [], w);
     element_tag_name := fun e w => (Ok (py "script"), w);
     element_click := fun e w => (Ok tt, w);
     element_get_attribute :=
       fun e name w =>
         (Ok (if same name "innerHTML" then Some (py "{...}") else None), w);
     execute_script := fun js e w => (Ok [], w);
     sleep := fun w => w |}.

(** [json.loads] on the text of that script. *)
Definition read_offer : str -> result json :=
  fun _ =>
    Ok (JObj [ (py "offers",
                JObj [ (py "itemOffered",
                        JObj [ (py "@type", JStr (py "Product"));
                               (py " Material ", JStr (py "steel")) ]) ]) ]).

End ExtractFixtures.

(* ===================================================================== *)
(** * Further notions for the statements *)
(* ===================================================================== *)

Module Shapes.
Import PyStr.

(** No two whitespace code points stand side by side. *)
Fixpoint no_double_space (s : str) : bool :=
  match s with
  | c :: (d :: _) as s' => negb (isspace c && isspace d) && no_double_space s'
  | _ => true
  end.

(** A whitespace code point is an ordinary space. *)
Definition space_is_sp (c : codepoint) : Prop := isspace c = true -> c = SP.

(** The code points of [s] that are not whitespace. *)
Definition visible (s : str) : str := filter (fun c => negb (isspace c)) s.

End Shapes.

Module TableNotions.
Import PyStr Csv.

(** A value that is no dictionary: [None] or a string. *)
Definition not_a_dict (v : pyval) : bool :=
  match v with
  | VRef _ => false
  | _ => true
  end.

(** An assertion about the files. *)
Definition on_files (Q : dict export_table -> Prop) : store -> Prop :=
  fun s => Q (files s).

Section Table.

Variable str_of_ref : loc -> str.

(** The cells of the row [d] under the columns [fieldnames]: the value of
    the row, nothing where the row has no such column. *)
Definition row_cells (fieldnames : list str) (d : dict pyval) : list str :=
  map (fun key => cell_text str_of_ref (dict_get d key (VStr []))) fieldnames.

(** The dictionary [cleaned_row] of lines 1658-1664. *)
Definition cleaned_row_of (fieldnames : list str) (d : dict pyval)
  : dict pyval :=
  fold_left (fun c key =>
               if dict_mem key d then dict_set c key (dict_get d key VNone)
               else dict_set c key (VStr []))
            fieldnames [].

End Table.

(** The lines that reach the file: those before the first line that
    cannot be encoded. *)
Fixpoint written_lines (lines : list (list str)) : list (list str) :=
  match lines with
  | [] => []
  | line :: rest =>
      if encodable_line line then line :: written_lines rest else []
  end.

(** What the [with] block of lines 1653-1665 leaves in the file it has
    opened: the header and the lines up to the first that cannot be
    encoded, nothing when the header itself cannot. *)
Definition table_written (fieldnames : list str) (lines : list (list str))
  : export_table :=
  if encodable_line fieldnames
  then {| header := fieldnames; body := written_lines lines |}
  else {| header := []; body := [] |}.

(** The header and every line can be encoded. *)
Definition all_written (fieldnames : list str) (lines : list (list str))
  : bool :=
  encodable_line fieldnames && forallb encodable_line lines.

End TableNotions.

Module RowNotions.
Import PyStr Csv Shapes.

(** The columns of the row literal whose values are normalized, lines
    1612-1618, each with the field of the record it is read from. *)
Definition cleaned_columns : list (str * str) :=
  [ (py "Product Code", py "product_code");
    (py "Product Name", py "product_name");
    (py "Model Number", py "model_number");
    (py "Description", py "description");
    (py "Price", py "price");
    (py "Currency", py "currency");
    (py "Availability", py "availability") ].

(** Every cell of [row] outside the column [URL] is a string whose only
    whitespace is the ordinary space. *)
Definition one_line_cells (row : dict pyval) : Prop :=
  forall k v, k <> py "URL" -> dict_lookup row k = Some v ->
    exists s, v = VStr s /\ Forall space_is_sp s.

End RowNotions.

Module RecordNotions.
Import PyStr Monad Extract.
Import Csv(dict, dict_lookup, dict_mem, dict_get, dict_set, dict_keys).
Local Open Scope py_scope.

Section Record.

Variable D : WebDriver.
Variable lower : str -> str.
Variable json_loads : str -> result json.

(** An assertion about the dictionary [product_data]. *)
Definition on_data (P : product_data -> Prop) : state D -> Prop :=
  fun s => P (data (vars s)).

(** Methods 2 to 10, lines 1153-1458: the strategies under the test
    [if not product_data["specifications"]]. *)
Definition later_strategies : X D unit :=
  method2 D ;;
  method3 D ;;
  method4 D ;;
  method5 D ;;
  method6 D ;;
  method7 D json_loads ;;
  method8 D lower ;;
  method9 D lower ;;
  method10 D lower.

(** The scalar fields as the function can leave them, when the URL read
    on entry is [current_url]. *)
Definition scalars_shaped (current_url : str) (p : product_data) : Prop :=
  model_number p = None
  /\ url p = current_url
  /\ (forall t, product_name p = Some t -> trimmed t)
  /\ (forall t, product_code p = Some t -> trimmed t)
  /\ (forall t, availability p = Some t -> trimmed t)
  /\ (forall t, description p = Some t -> trimmed t /\ 20 < List.length t)
  /\ (forall t, price p = Some t -> ~ In 44%N t).

(** A pair read from the page: key and value are trimmed and not empty. *)
Definition plain_entry (k v : str) : Prop :=
  k <> [] /\ v <> [] /\ trimmed k /\ trimmed v.

Definition good_entries (w0 : world D) (specs : dict str) : Prop :=
  forall k v, In (k, v) specs ->
    plain_entry k v \/ verbatim_entry D lower json_loads w0 k v.

(** The bounds of lines 1404 and 1414. *)
Definition free_text_entry (k v : str) : Prop :=
  2 < List.length k < 50 /\ 0 < List.length v < 200
  /\ trimmed k /\ trimmed v.

End Record.

End RecordNotions.

(* ===================================================================== *)
(** * [_extract_specs_from_all_elements]: the scan of every element *)
(* ===================================================================== *)

Module AllElements.
Import PyStr Monad Extract.
Import Csv(dict, dict_lookup, dict_mem, dict_get, dict_set, dict_keys).
Local Open Scope py_scope.
Local Open Scope string_scope.
Local Open Scope list_scope.

Definition all_elements_xpath : string := "//*[text()]".
Definition ancestors_xpath : string := "./ancestor::*[@class]".
Definition value_sibling_xpath : string :=
  "./following-sibling::dd | ./following-sibling::td | ./following-sibling::*[1]".

Definition element_words : list str :=
  [py "spec"; py "property"; py "attribute"; py "detail"; py "feature"].
Definition parent_words : list str :=
  [py "spec"; py "property"; py "attribute"; py "detail"].
Definition skip_patterns : list str :=
  [py "javascript"; py "function"; py "click"; py "button"; py "link";
   py "http"; py "www"].
Definition key_tags : list str := [py "dt"; py "th"; py "strong"; py "b"].

(** [x or ''] for an attribute. *)
Definition or_empty (o : option str) : str :=
  match o with
  | Some s => s
  | None => []
  end.

(** [key and value and 2 < len(key) < 80] *)
Definition key_value_ok (key value : str) : bool :=
  both_nonempty key value
  && (2 <? List.length key)%nat && (List.length key <? 80)%nat.

Section AllElements.

Variable D : WebDriver.
Variable lower : str -> str.

(** Lines 692-710: the pair read from the text of an element. *)
Definition element_pair (is_spec_related : bool) (text : str)
  : option (str * str) :=
  if is_spec_related || contains (py ":") text
  then
    if contains (py ":") text && (List.length (split (py ":") text) =? 2)%nat
    then
      let (key, value) := split_pair (py ":") text in
      if key_value_ok key value
      then
        if negb (existsb (fun pattern => contains pattern (lower key))
                         skip_patterns)
        then Some (key, value) else None
      else None
    else if contains (py " - ") text
            && (List.length (split (py " - ") text) =? 2)%nat
    then
      let (key, value) := split_pair (py " - ") text in
      if key_value_ok key value then Some (key, value) else None
    else None
  else None.

(** The browser and the local variables [specs] and [is_spec_related]. *)
Record scan_state : Type := {
  page : world D;
  specs : dict str;
  is_spec_related : bool
}.

Definition Scan (A : Type) : Type := M scan_state A.

(** A call of the driver. *)
Definition drive {A} (f : world D -> result A * world D) : Scan A :=
  fun s =>
    let (r, w) := f (page s) in
    (r, {| page := w; specs := specs s;
           is_spec_related := is_spec_related s |}).

Definition assign_is_spec_related (b : bool) : Scan unit :=
  modify (fun s =>
    {| page := page s; specs := specs s; is_spec_related := b |}).

(** [specs[key] = value] *)
Definition put_spec (key value : str) : Scan unit :=
  modify (fun s =>
    {| page := page s; specs := dict_set (specs s) key value;
       is_spec_related := is_spec_related s |}).

(** Lines 672-679. *)
Definition check_element_classes (e : elem D) : Scan unit :=
  try_except
    (elem_class <- drive (element_get_attribute D e "class") ;;
     elem_id <- drive (element_get_attribute D e "id") ;;
     when (existsb
             (fun word =>
                contains word
                  (lower (or_empty elem_class) ++ lower (or_empty elem_id)))
             element_words)
       (assign_is_spec_related true))
    (ret tt).

(** Lines 682-689. *)
Definition check_parent_classes (parent_classes : list (elem D)) : Scan unit :=
  for_each (firstn 3 parent_classes) (fun parent =>
    try_except
      (parent_class <- drive (element_get_attribute D parent "class") ;;
       if existsb (fun word => contains word (lower (or_empty parent_class)))
                  parent_words
       then assign_is_spec_related true ;; ret Break
       else ret Next)
      (ret Next)).

(** Lines 713-725. *)
Definition adjacent_pair (e : elem D) : Scan unit :=
  try_except
    (elem_tag <- drive (element_tag_name D e) ;;
     when (str_in elem_tag key_tags)
       (value_elem <-
          drive (find_elements_by_xpath D (Some e) value_sibling_xpath) ;;
        match value_elem with
        | ve :: _ =>
            k <- drive (element_text D e) ;;
            let key := strip k in
            v <- drive (element_text D ve) ;;
            let value := strip v in
            when (key_value_ok key value) (put_spec key value)
        | [] => ret tt
        end))
    (ret tt).

(** Lines 661-728: one turn of the loop over the elements. *)
Definition scan_element (e : elem D) : Scan ctl :=
  try_except
    (t <- drive (element_text D e) ;;
     let text := strip t in
     if negb (nonempty text) || (List.length text <? 3)%nat
     then ret Next
     else
       parent_classes <-
         drive (find_elements_by_xpath D (Some e) ancestors_xpath) ;;
       assign_is_spec_related false ;;
       check_element_classes e ;;
       check_parent_classes parent_classes ;;
       related <- gets is_spec_related ;;
       match element_pair related text with
       | Some (key, value) => put_spec key value
       | None => ret tt
       end ;;
       adjacent_pair e ;;
       ret Next)
    (ret Next).

(** Lines 648-736, from the state the function is entered in. *)
Definition extract_specs_from : Scan (dict str) :=
  try_except
    (all_elements <-
       drive (find_elements_by_xpath D None all_elements_xpath) ;;
     for_each all_elements scan_element)
    (ret tt) ;;
  gets specs.

(** [_extract_specs_from_all_elements()] with the browser in state [w]. *)
Definition _extract_specs_from_all_elements (w : world D)
  : result (dict str) * world D :=
  let (r, s) :=
    extract_specs_from {| page := w; specs := []; is_spec_related := false |} in
  (r, page s).

(** An assertion about [specs]. *)
Definition on_found (P : dict str -> Prop) : scan_state -> Prop :=
  fun s => P (specs s).

(** A pair as the scan stores it. *)
Definition scanned_entry (k v : str) : Prop :=
  2 < List.length k < 80 /\ v <> [] /\ trimmed k /\ trimmed v.

End AllElements.

Arguments page {D} s.
Arguments specs {D} s.
Arguments is_spec_related {D} s.

End AllElements.

(* ===================================================================== *)
(** * [load_product_codes_from_csv]: the product codes of a batch *)
(* ===================================================================== *)

Module ProductCodes.
Import PyStr Monad.
Import Csv(dict, dict_lookup, dict_mem, dict_get, dict_set, dict_keys,
           pyset, set_mem, set_add).
Import Extract(nonempty).
Local Open Scope py_scope.

(** A row of [csv.DictReader]: a column of a line that is too short has the
    value [None]. *)
Definition csv_row : Type := dict (option str).

(** What the reader yields: rows, and then the end of the file or an
    exception. *)
Record reader : Type := {
  rows : list csv_row;
  ending : option exn
}.

Definition possible_columns : list str :=
  [py "product_code"; py "product code"; py "Product Code"; py "code";
   py "Code"; py "catalog_number"; py "catalog number"; py "Catalog Number";
   py "SKU"; py "sku"].

(** Lines 137-146: the column of the codes, for a first row that is not
    empty. *)
Definition product_code_column (first_row : csv_row) : str :=
  match find (fun col => dict_mem col first_row) possible_columns with
  | Some col => col
  | None =>
      match first_row with
      | (k, _) :: _ => k
      | [] => []
      end
  end.

(** Lines 159-164: the codes without duplicates, in the order of their
    first occurrence. *)
Fixpoint unique_codes (seen : pyset) (product_codes : list str) : list str :=
  match product_codes with
  | [] => []
  | code :: rest =>
      if nonempty code && negb (set_mem code seen)
      then code :: unique_codes (set_add seen code) rest
      else unique_codes seen rest
  end.

Section Load.

(** [os.path.exists] *)
Variable path_exists : str -> bool.
(** [open(csv_file, 'r')] with [csv.DictReader] on it. *)
Variable open_csv : str -> result reader.

(** The statements run on the list [product_codes]. *)
Definition Codes (A : Type) : Type := M (list str) A.

Definition append (code : str) : Codes unit :=
  modify (fun product_codes => product_codes ++ [code]).

(** Lines 153-156: one turn of the loop over the remaining rows. *)
Definition read_row (column : str) (row : csv_row) : Codes ctl :=
  code <- match dict_get row column (Some []) with
          | Some v => ret (strip v)
          | None => raise AttributeError
          end ;;
  when (nonempty code) (append code) ;;
  ret Next.

(** Lines 123-167: the body of the [try]. *)
Definition load_body (csv_file : str) : Codes (list str) :=
  r <- (fun s => (open_csv csv_file, s)) ;;
  match rows r with
  | [] =>
      match ending r with
      | Some e => raise e
      | None => get
      end
  | [] :: _ => get
  | first_row :: rest =>
      let column := product_code_column first_row in
      match dict_get first_row column None with
      | Some v => when (nonempty v) (append (strip v))
      | None => ret tt
      end ;;
      for_each rest (read_row column) ;;
      match ending r with
      | Some e => raise e
      | None => ret tt
      end ;;
      product_codes <- get ;;
      ret (unique_codes [] product_codes)
  end.

(** Lines 114-171. *)
Definition load_product_codes_from_csv (csv_file : str) : list str :=
  if negb (path_exists csv_file) then []
  else
    match try_except (load_body csv_file) get [] with
    | (Ok product_codes, _) => product_codes
    | (Raise _, product_codes) => product_codes
    end.

End Load.

(** The code that line 154 reads from a row: nothing where the row has no
    such column. *)
Definition cell_code (column : str) (row : csv_row) : str :=
  match dict_lookup row column with
  | Some (Some v) => strip v
  | _ => []
  end.

(** The codes that lines 149-156 append for the first row and the rows
    [rest], when no row of [rest] is too short. *)
Definition codes_read (first_row : csv_row) (rest : list csv_row) : list str :=
  match dict_get first_row (product_code_column first_row) None with
  | Some v => if nonempty v then [strip v] else []
  | None => []
  end
  ++ filter nonempty (map (cell_code (product_code_column first_row)) rest).

(** The cells of the column of the codes, stripped. *)
Definition stripped_cells (r : reader) : list str :=
  match rows r with
  | [] => []
  | first_row :: _ =>
      flat_map (fun row =>
                  match dict_lookup row (product_code_column first_row) with
                  | Some (Some v) => [strip v]
                  | _ => []
                  end) (rows r)
  end.

(** The first row has a column, and no row after it is too short for the
    column of the codes. *)
Definition no_short_row (r : reader) : Prop :=
  match rows r with
  | [] => True
  | first_row :: rest =>
      first_row <> [] /\
      forall row, In row rest ->
        dict_lookup row (product_code_column first_row) <> Some None
  end.

End ProductCodes.

Module ProductCodesFixtures.
Import PyStr Monad ProductCodes.

(** A file with the column [code]:
<<
code
A-1
 A-1
B-2
>> *)
Definition three_codes : reader :=
  {| rows := [ [(py "code", Some (py "A-1"))];
               [(py "code", Some (py " A-1"))];
               [(py "code", Some (py "B-2"))] ];
     ending := None |}.

(** A file with two columns whose last line is too short:
<<
code,name
A-1,x
A-1,y
B-2
>> where the column of the codes is the second one. *)
Definition short_line : reader :=
  {| rows := [ [(py "name", Some (py "x")); (py "code", Some (py "A-1"))];
               [(py "name", Some (py "y")); (py "code", Some (py "A-1"))];
               [(py "name", Some (py "B-2")); (py "code", None)];
               [(py "name", Some (py "z")); (py "code", Some (py "C-3"))] ];
     ending := None |}.

Definition every_path : str -> bool := fun _ => true.
Definition open_three : str -> result reader := fun _ => Ok three_codes.
Definition open_short : str -> result reader := fun _ => Ok short_line.

End ProductCodesFixtures.

Module BatchNotions.
Import PyStr Csv.

(** The entry that [scrape_products_from_csv] records for a product that
    could not be scraped (lines 260-264 and 278-282 of
    [scrape_with_country_selection.py]). *)
Definition failed_entry (product_code error : str) : dict pyval :=
  [ (py "product_code", VStr product_code);
    (py "product_name", VNone);
    (py "error", VStr error) ].

End BatchNotions.

(* ===================================================================== *)
(** * [scrape_product]: from the start page to the record *)
(* ===================================================================== *)

Module Navigate.
Import PyStr Monad Extract AllElements.
Import Csv(dict, dict_lookup, dict_mem, dict_get, dict_set, dict_keys).
Local Open Scope py_scope.
Local Open Scope string_scope.
Local Open Scope list_scope.

(** What [WebDriverWait(...).until(...)] comes to: the condition holds, the
    time is over ([TimeoutException]), or the wait fails otherwise. *)
Inductive waited (A : Type) : Type :=
| Found (a : A)
| TimedOut
| Failed (e : exn).
Arguments Found {A} a.
Arguments TimedOut {A}.
Arguments Failed {A} e.

(** The browser: the WebDriver of [extract_product_data] with the calls
    that the other methods make.  Files written for debugging are part of
    the state of the browser's machine. *)
Record Browser : Type := {
  driver : WebDriver;
  (** [driver.get(url)] *)
  driver_get : str -> world driver -> result unit * world driver;
  (** [WebDriverWait(driver, t).until(EC.element_to_be_clickable((By.XPATH, xp)))] *)
  until_clickable :
    nat -> string -> world driver -> waited (elem driver) * world driver;
  (** [WebDriverWait(driver, t).until(EC.presence_of_element_located((By.XPATH, xp)))] *)
  until_present :
    nat -> string -> world driver -> waited (elem driver) * world driver;
  (** [WebDriverWait(driver, t).until(EC.element_to_be_clickable(e))] *)
  until_element_clickable :
    nat -> elem driver -> world driver -> waited unit * world driver;
  (** [driver.find_elements(By.XPATH, xp)] for an expression computed at
      run time *)
  find_elements_by_selector :
    str -> world driver -> result (list (elem driver)) * world driver;
  (** [driver.execute_script(js)] *)
  execute_page_script : string -> world driver -> result unit * world driver;
  (** [ActionChains(driver).move_to_element(e).click().perform()] *)
  perform_click : elem driver -> world driver -> result unit * world driver;
  (** [driver.save_screenshot(name)] *)
  save_screenshot : string -> world driver -> result unit * world driver;
  (** [e.clear()], [e.send_keys(keys)] *)
  element_clear : elem driver -> world driver -> result unit * world driver;
  element_send_keys :
    elem driver -> str -> world driver -> result unit * world driver;
  (** [e.is_displayed()], [e.is_enabled()] *)
  element_is_displayed :
    elem driver -> world driver -> result bool * world driver;
  element_is_enabled :
    elem driver -> world driver -> result bool * world driver;
  (** [driver.page_source] *)
  page_source : world driver -> result str * world driver;
  (** [with open(name, 'w') as f: f.write(content)] *)
  write_file :
    string -> option str -> world driver -> result unit * world driver
}.

(** A loop that sets a flag and breaks, or returns from the function: the
    value tells whether it has. *)
Fixpoint for_first {S X} (l : list X) (body : X -> M S bool) : M S bool :=
  match l with
  | [] => ret false
  | x :: l' =>
      done <- body x ;;
      if done then ret true else for_first l' body
  end.

(** [for x in l: ... else: orelse]: [orelse] runs when no turn breaks. *)
Fixpoint for_each_else {S X} (l : list X) (body : X -> M S ctl)
         (orelse : M S unit) : M S unit :=
  match l with
  | [] => orelse
  | x :: l' =>
      c <- body x ;;
      match c with
      | Break => ret tt
      | Next => for_each_else l' body orelse
      end
  end.

(** [d.update(other)] *)
Definition dict_update {V} (d other : dict V) : dict V :=
  fold_left (fun acc kv => dict_set acc (fst kv) (snd kv)) other d.

Definition base_url : str := py "https://www.avantorsciences.com/".

Definition cookie_selectors : list string :=
  [ "//button[contains(text(), 'Accept All Cookies')]";
    "//button[contains(text(), 'Accept')]";
    "//button[contains(@class, 'cookie') and contains(text(), 'Accept')]";
    "//*[contains(text(), 'Accept All Cookies')]" ].

Definition country_popup_selectors : list string :=
  [ "//*[contains(text(), 'Select an Avantor Country')]";
    "//h1[contains(text(), 'Select an Avantor Country')]";
    "//h2[contains(text(), 'Select an Avantor Country')]";
    "//div[contains(@class, 'modal')]//*[contains(text(), 'Select an Avantor Country')]";
    "//div[contains(@class, 'popup')]//*[contains(text(), 'Select an Avantor Country')]";
    "//div[contains(@class, 'country-selector')]";
    "//div[contains(@class, 'country') and contains(@class, 'modal')]" ].

Definition country_variations : dict (list str) :=
  [ (py "United States", [py "USA"; py "United States"; py "US"]);
    (py "USA", [py "USA"; py "United States"; py "US"]);
    (py "US", [py "USA"; py "United States"; py "US"]);
    (py "United Kingdom", [py "United Kingdom"; py "UK"]);
    (py "UK", [py "United Kingdom"; py "UK"]);
    (py "China Mainland", [py "China Mainland"; py "China"]) ].

Definition js_scroll_smooth : string :=
  "arguments[0].scrollIntoView({block: 'center', behavior: 'smooth'});".
Definition js_scroll_top : string := "window.scrollTo(0, 0);".
Definition js_scroll_bottom : string :=
  "window.scrollTo(0, document.body.scrollHeight);".

Definition all_country_elements_xpath : string :=
  "//div[contains(@class, 'modal')]//a | " ++
  "//div[contains(@class, 'popup')]//a | " ++
  "//li//a | " ++
  "//*[contains(text(), 'Europe') or contains(text(), 'North America') or contains(text(), 'Asia/Pacific')]//following-sibling::*//a | " ++
  "//ul//a".

Definition search_selectors : list string :=
  [ "//input[contains(@name, 'search')]";
    "//input[contains(@id, 'search')]";
    "//input[contains(@placeholder, 'Search')]";
    "//input[contains(@type, 'search')]";
    "//input[contains(@class, 'search')]";
    "//*[@role='searchbox']" ].

Definition search_button_selectors : list string :=
  [ "//button[contains(@type, 'submit')]";
    "//button[contains(@class, 'search')]";
    "//button[contains(@aria-label, 'Search')]";
    "//*[@type='submit']";
    "//button[contains(text(), 'Search')]" ].

Definition expand_selectors : list string :=
  [ "//button[contains(text(), 'Specification')]";
    "//a[contains(text(), 'Specification')]";
    "//div[contains(@class, 'accordion-header')]//button[contains(text(), 'Spec')]";
    "//ngb-accordion//button";
    "//div[contains(@class, 'tab')]//a[contains(text(), 'Spec')]";
    "//div[contains(@class, 'panel-heading')]//a[contains(text(), 'Spec')]";
    "//*[contains(text(), 'More Product Details')]";
    "//*[contains(text(), 'View Details')]";
    "//*[contains(text(), 'Show More')]";
    "//*[contains(text(), 'View Specifications')]" ].

Definition collapsed_items_xpath : string :=
  "//button[contains(@aria-expanded, 'false')] | " ++
  "//a[contains(@aria-expanded, 'false')] | " ++
  "//div[contains(@class, 'collapsed')]".

Definition product_sections_xpath : string :=
  "//div[contains(@class, 'product')] | " ++
  "//div[contains(@class, 'details')] | " ++
  "//main | " ++
  "//div[contains(@class, 'content')]".

Section Navigate.

Variable B : Browser.
Variable lower : str -> str.
Variable search_price search_currency : str -> option str.
Variable json_loads : str -> result json.

#[local] Notation "'D'" := (driver B).

(** A statement on the browser. *)
Definition Nav (A : Type) : Type := M (world D) A.

Definition time_sleep : Nav unit := fun w => (Ok tt, sleep D w).

(** A wait inside a [try] whose handlers treat every exception alike; a
    [TimeoutException] is a [WebDriverException]. *)
Definition wait_or_raise {A} (f : world D -> waited A * world D) : Nav A :=
  fun w =>
    match f w with
    | (Found a, w') => (Ok a, w')
    | (TimedOut, w') => (Raise WebDriverException, w')
    | (Failed e, w') => (Raise e, w')
    end.

(** [find_element]: the first element found, an exception when there is
    none. *)
Definition find_first (ctx : option (elem D)) (xp : string) : Nav (elem D) :=
  found <- find_elements_by_xpath D ctx xp ;;
  match found with
  | e :: _ => ret e
  | [] => raise NoSuchElementException
  end.

(** The loops of lines 344-352 and 537-543: the first expression for
    which the element is present in time; [found] is what the body does
    before [break]; only a [TimeoutException] is caught. *)
Fixpoint first_present (timeout : nat) (selectors : list string)
         (found : Nav unit) : Nav (option (elem D)) :=
  match selectors with
  | [] => ret None
  | selector :: rest =>
      fun w =>
        match until_present B timeout selector w with
        | (Found e, w') => (found ;; ret (Some e)) w'
        | (TimedOut, w') => first_present timeout rest found w'
        | (Failed e, w') => (Raise e, w')
        end
  end.

(** Lines 68-99. *)
Definition handle_cookie_banner : Nav bool :=
  try_except
    (for_first cookie_selectors (fun selector =>
       try_except
         (cookie_button <- wait_or_raise (until_clickable B 3 selector) ;;
          execute_script D js_click cookie_button ;;
          time_sleep ;;
          ret true)
         (ret false)))
    (ret false).

(** Lines 393-409. *)
Definition country_selectors (name_to_search : str) : list str :=
  [ py "//a[normalize-space(text())='" ++ name_to_search ++ py "']";
    py "//li//a[normalize-space(text())='" ++ name_to_search ++ py "']";
    py "//*[normalize-space(text())='" ++ name_to_search
      ++ py "' and (self::a or self::button or contains(@class, 'link') or contains(@onclick, 'country'))]";
    py "//div[contains(@class, 'modal')]//a[normalize-space(text())='"
      ++ name_to_search ++ py "']";
    py "//div[contains(@class, 'popup')]//a[normalize-space(text())='"
      ++ name_to_search ++ py "']";
    py "//a[contains(normalize-space(text()), '" ++ name_to_search ++ py "')]";
    py "//li//a[contains(normalize-space(text()), '" ++ name_to_search
      ++ py "')]";
    py "//a[translate(normalize-space(text()), 'ABCDEFGHIJKLMNOPQRSTUVWXYZ', 'abcdefghijklmnopqrstuvwxyz')='"
      ++ lower name_to_search ++ py "']";
    py "//li//a[translate(normalize-space(text()), 'ABCDEFGHIJKLMNOPQRSTUVWXYZ', 'abcdefghijklmnopqrstuvwxyz')='"
      ++ lower name_to_search ++ py "']" ].

(** Lines 421-457: one element; the value is [country_clicked]. *)
Definition click_country_element (country_element : elem D) : Nav bool :=
  try_except
    (wait_or_raise (until_element_clickable B 5 country_element) ;;
     execute_script D js_scroll_smooth country_element ;;
     time_sleep ;;
     try_except
       (element_click D country_element)
       (try_except
          (execute_script D js_click country_element ;; ret tt)
          (perform_click B country_element)) ;;
     time_sleep ;;
     ret true)
    (ret false).

(** Lines 388-467: the loops over the names, the expressions and the
    elements; each ends as soon as [country_clicked] is set. *)
Definition click_country (search_names : list str) : Nav bool :=
  for_first search_names (fun name_to_search =>
    for_first (country_selectors name_to_search) (fun selector =>
      try_except
        (country_elements <- find_elements_by_selector B selector ;;
         for_first country_elements click_country_element)
        (ret false))).

(** Lines 469-502. *)
Definition list_countries_for_debugging : Nav unit :=
  try_except
    (all_country_elements <-
       find_elements_by_xpath D None all_country_elements_xpath ;;
     when (nonempty all_country_elements)
       (for_each (firstn 20 all_country_elements) (fun e =>
          try_except
            (t <- element_text D e ;;
             let text := strip t in
             when (nonempty text && (List.length text <? 50)%nat)
               (element_tag_name D e ;; ret tt) ;;
             ret Next)
            (ret Next))) ;;
     try_except (save_screenshot B "country_popup_debug.png") (ret tt))
    (ret tt).

(** Lines 309-510. *)
Definition handle_country_popup (country_name : option str) : Nav unit :=
  try_except
    (let country_name :=
       match country_name with
       | Some (c :: name) => c :: name
       | _ => py "USA"
       end in
     handle_cookie_banner ;;
     popup_element <- first_present 20 country_popup_selectors time_sleep ;;
     match popup_element with
     | None => try_except (save_screenshot B "popup_not_found.png") (ret tt)
     | Some _ =>
         execute_page_script B js_scroll_top ;;
         time_sleep ;;
         let search_names :=
           country_name
           :: match dict_lookup country_variations country_name with
              | Some names => names
              | None => []
              end in
         country_clicked <- click_country search_names ;;
         when (negb country_clicked) list_countries_for_debugging
     end)
    (ret tt).

(** Lines 512-584. *)
Definition search_product (product_code : str) : Nav bool :=
  try_except
    (search_input <- first_present 15 search_selectors (ret tt) ;;
     match search_input with
     | None => ret false
     | Some search_input =>
         element_clear B search_input ;;
         element_send_keys B search_input product_code ;;
         time_sleep ;;
         for_each_else search_button_selectors
           (fun btn_selector =>
              try_except
                (search_btn <- find_first None btn_selector ;;
                 element_click D search_btn ;;
                 ret Break)
                (ret Next))
           (element_send_keys B search_input [LF]) ;;
         time_sleep ;;
         ret true
     end)
    (ret false).

(** Lines 586-646. *)
Definition _expand_specification_sections : Nav unit :=
  try_except
    (for_each expand_selectors (fun selector =>
       try_except
         (elements <- find_elements_by_xpath D None selector ;;
          for_each elements (fun e =>
            try_except
              (displayed <- element_is_displayed B e ;;
               enabled <- (if displayed then element_is_enabled B e
                           else ret false) ;;
               when (displayed && enabled)
                 (execute_script D js_scroll_into_view e ;;
                  time_sleep ;;
                  element_click D e ;;
                  element_text D e ;;
                  time_sleep) ;;
               ret Next)
              (ret Next)) ;;
          ret Next)
         (ret Next)) ;;
     try_except
       (collapsed_items <-
          find_elements_by_xpath D None collapsed_items_xpath ;;
        for_each (firstn 3 collapsed_items) (fun item =>
          try_except
            (displayed <- element_is_displayed B item ;;
             when displayed
               (execute_script D js_scroll_into_view item ;;
                time_sleep ;;
                element_click D item ;;
                time_sleep) ;;
             ret Next)
            (ret Next)))
       (ret tt))
    (ret tt).

(** Lines 738-772. *)
Definition _save_page_for_debugging : Nav unit :=
  try_except
    (html_content <- page_source B ;;
     write_file B "debug_page_source.html" (Some html_content) ;;
     save_screenshot B "debug_page_screenshot.png" ;;
     try_except
       (product_sections <-
          find_elements_by_xpath D None product_sections_xpath ;;
        match product_sections with
        | section :: _ =>
            section_html <- element_get_attribute D section "outerHTML" ;;
            write_file B "debug_product_section.html" section_html
        | [] => ret tt
        end)
       (ret tt))
    (ret tt).

(** Lines 1540-1555: the record has no specifications yet. *)
Definition retry_specifications (product_data : Extract.product_data)
  : Nav Extract.product_data :=
  execute_page_script B js_scroll_bottom ;;
  time_sleep ;;
  execute_page_script B js_scroll_top ;;
  time_sleep ;;
  additional_specs <- _extract_specs_from_all_elements D lower ;;
  let product_data :=
    if nonempty additional_specs
    then with_specifications
           (dict_update (specifications product_data) additional_specs)
           product_data
    else product_data in
  _save_page_for_debugging ;;
  ret product_data.

(** Lines 1490-1561.  The value is the record, [None] for a failure. *)
Definition scrape_product (product_code : str)
           (country_name country_url : option str)
  : Nav (option product_data) :=
  try_except
    (match country_url with
     | Some (c :: u) =>
         driver_get B (c :: u) ;;
         time_sleep ;;
         handle_cookie_banner ;;
         ret tt
     | _ =>
         driver_get B base_url ;;
         time_sleep ;;
         handle_country_popup country_name
     end ;;
     found <- search_product product_code ;;
     if negb found then ret None
     else
       time_sleep ;;
       _expand_specification_sections ;;
       time_sleep ;;
       product_data <-
         extract_product_data D lower search_price search_currency
           json_loads ;;
       let product_data :=
         with_product_code (Some product_code) product_data in
       if nonempty (specifications product_data)
       then ret (Some product_data)
       else
         product_data <- retry_specifications product_data ;;
         ret (Some product_data))
    (ret None).

(** The search box never appears: every wait for it ends by its time. *)
Definition no_search_box : Prop :=
  forall timeout selector w, In selector search_selectors ->
    fst (until_present B timeout selector w) = TimedOut.

(** One command of the browser takes it from [w] to [w']: a command of the
    driver of [extract_product_data], or one of the other calls. *)
Inductive browser_step : world D -> world D -> Prop :=
| browser_driver w w' : step D w w' -> browser_step w w'
| browser_get url w : browser_step w (snd (driver_get B url w))
| browser_until_clickable t xp w :
    browser_step w (snd (until_clickable B t xp w))
| browser_until_present t xp w :
    browser_step w (snd (until_present B t xp w))
| browser_until_element_clickable t e w :
    browser_step w (snd (until_element_clickable B t e w))
| browser_find_by_selector selector w :
    browser_step w (snd (find_elements_by_selector B selector w))
| browser_page_script js w :
    browser_step w (snd (execute_page_script B js w))
| browser_perform_click e w : browser_step w (snd (perform_click B e w))
| browser_screenshot name w : browser_step w (snd (save_screenshot B name w))
| browser_clear e w : browser_step w (snd (element_clear B e w))
| browser_send_keys e keys w :
    browser_step w (snd (element_send_keys B e keys w))
| browser_is_displayed e w :
    browser_step w (snd (element_is_displayed B e w))
| browser_is_enabled e w : browser_step w (snd (element_is_enabled B e w))
| browser_page_source w : browser_step w (snd (page_source B w))
| browser_write_file name content w :
    browser_step w (snd (write_file B name content w)).

(** What [scrape_product], entered with the browser in state [w0], may
    return for the code [code]: [None], or a record with that code whose
    entries are plain or were stored as found on the page that the
    browser had reached when [extract_product_data] was entered. *)
Definition scraped (w0 : world D) (code : str) (r : option product_data)
  : Prop :=
  match r with
  | None => True
  | Some pd =>
      product_code pd = Some code
      /\ model_number pd = None
      /\ forall k v, In (k, v) (specifications pd) ->
           (k <> [] /\ v <> [] /\ trimmed k /\ trimmed v)
           \/ exists w1,
                reachable browser_step w0 w1
                /\ verbatim_entry D lower json_loads w1 k v
  end.

End Navigate.

End Navigate.

Module NavigateFixtures.
Import PyStr Monad Extract ExtractFixtures Navigate.
Local Open Scope string_scope.
Local Open Scope list_scope.

(** A browser on a page that does not change: no call fails, the waits end
    as [present] says, and nothing is displayed. *)
Definition static_browser (page : WebDriver) (e0 : elem page)
           (present : string -> bool) : Browser :=
  {| driver := page;
     driver_get := fun _ w => (Ok tt, w);
     until_clickable := fun _ _ w => (TimedOut, w);
     until_present :=
       fun _ xp w => (if present xp then Found e0 else TimedOut, w);
     until_element_clickable := fun _ _ w => (Found tt, w);
     find_elements_by_selector := fun _ w => (Ok [], w);
     execute_page_script := fun _ w => (Ok tt, w);
     perform_click := fun _ w => (Ok tt, w);
     save_screenshot := fun _ w => (Ok tt, w);
     element_clear := fun _ w => (Ok tt, w);
     element_send_keys := fun _ _ w => (Ok tt, w);
     element_is_displayed := fun _ w => (Ok false, w);
     element_is_enabled := fun _ w => (Ok false, w);
     page_source := fun w => (Ok [], w);
     write_file := fun _ _ w => (Ok tt, w) |}.

(** The page with a specification list and a labeled section, with a
    search box. *)
Definition shop : Browser :=
  static_browser list_and_section_page Div
    (fun xp => same xp (nth 0 search_selectors "")).

(** The same page without a search box. *)
Definition shop_without_search : Browser :=
  static_browser list_and_section_page Div (fun _ => false).

End NavigateFixtures.

(* ===================================================================== *)
(** * [extract_countries_and_urls]: the countries of the popup *)
(* ===================================================================== *)

Module Countries.
Import PyStr Monad Extract Navigate.
Import Csv(dict, dict_lookup, dict_mem, dict_get, dict_set, dict_keys).
Local Open Scope py_scope.
Local Open Scope string_scope.
Local Open Scope list_scope.

(** The dictionary [{"country": ..., "url": ...}]. *)
Record country_info : Type := {
  country : str;
  url : str
}.

Definition initial_countries_data : dict (list country_info) :=
  [ (py "Europe", []); (py "North America", []); (py "Asia/Pacific", []) ].

Definition modal_selectors : list string :=
  [ "//ngb-modal-window[contains(@class, 'modal')]";
    "//div[contains(@class, 'modal') and contains(@class, 'show')]";
    "//*[contains(text(), 'Select an Avantor Country')]" ].

Definition country_lists_xpath : string :=
  "//ul[contains(@class, 'country-list-items')] | " ++
  "//ul[contains(@class, 'list')] | " ++
  "//div[contains(@class, 'country-selector-countries')]//ul".

Definition other_country_lists_xpath : string :=
  "//div[contains(@class, 'col-md-4')]//ul | " ++
  "//div[contains(@class, 'country')]//ul".

Definition region_heading_xpath : string :=
  "./preceding-sibling::h5[contains(@class, 'country-name')] | " ++
  "../h5[contains(@class, 'country-name')] | " ++
  "./ancestor::div//h5[contains(@class, 'country-name')]".

Definition column_xpath : string := "./ancestor::div[contains(@class, 'col')]".
Definition column_heading_xpath : string := ".//h5 | .//h4 | .//h3".

Definition country_links_xpath : string :=
  ".//li[contains(@class, 'list-item')]//a | " ++
  ".//li//a | " ++
  ".//a[contains(@class, 'link')] | " ++
  ".//a".

Definition all_links_xpath : string :=
  "//ngb-modal-window//a[contains(@class, 'link')] | " ++
  "//div[contains(@class, 'modal')]//a | " ++
  "//ul[contains(@class, 'country')]//a | " ++
  "//li[contains(@class, 'list-item')]//a".

Definition closest_heading_xpath : string :=
  "./ancestor::div//h5[contains(@class, 'country-name')] | " ++
  "./preceding::h5[contains(@class, 'country-name')][1]".

(** Lines 212-222: the key under which a country of [region] is filed. *)
Definition region_key (region : str) : str :=
  if contains (py "Europe") region || str_eqb region (py "Europe")
  then py "Europe"
  else if contains (py "North America") region
          || str_eqb region (py "North America")
  then py "North America"
  else if contains (py "Asia") region || contains (py "Pacific") region
          || str_eqb region (py "Asia/Pacific")
  then py "Asia/Pacific"
  else region.

(** Lines 279-288. *)
Definition current_region_key (current_region : str) : str :=
  if contains (py "Europe") current_region then py "Europe"
  else if contains (py "North America") current_region
  then py "North America"
  else if contains (py "Asia") current_region
          || contains (py "Pacific") current_region
  then py "Asia/Pacific"
  else current_region.

(** [countries_data[key].append(country_info)], with
    [countries_data[key] = []] before it when the key is new. *)
Definition file_under (key : str) (info : country_info)
           (countries_data : dict (list country_info))
  : dict (list country_info) :=
  dict_set countries_data key (dict_get countries_data key [] ++ [info]).

(** [sum(len(v) for v in countries_data.values()) == 0] *)
Definition no_country (countries_data : dict (list country_info)) : bool :=
  forallb (fun entry => negb (nonempty (snd entry))) countries_data.

Section Countries.

Variable B : Browser.

#[local] Notation "'D'" := (driver B).

(** The browser and the local variables [countries_data] and
    [current_region]. *)
Record harvest : Type := {
  site : world D;
  countries_data : dict (list country_info);
  current_region : str
}.

Definition Harvest (A : Type) : Type := M harvest A.

(** A statement on the browser, among the local variables. *)
Definition browse {A} (m : Nav B A) : Harvest A :=
  fun s =>
    let (r, w) := m (site s) in
    (r, {| site := w; countries_data := countries_data s;
           current_region := current_region s |}).

Definition file_country (key : str) (info : country_info) : Harvest unit :=
  modify (fun s =>
    {| site := site s;
       countries_data := file_under key info (countries_data s);
       current_region := current_region s |}).

Definition assign_current_region (region : str) : Harvest unit :=
  modify (fun s =>
    {| site := site s; countries_data := countries_data s;
       current_region := region |}).

(** Lines 169-186: the region of a list. *)
Definition region_of_list (list_elem : elem D) : Harvest str :=
  try_except
    (region_heading <-
       browse (find_first B (Some list_elem) region_heading_xpath) ;;
     t <- browse (element_text D region_heading) ;;
     ret (strip t))
    (try_except
       (parent <- browse (find_first B (Some list_elem) column_xpath) ;;
        region_elem <-
          browse (find_first B (Some parent) column_heading_xpath) ;;
        t <- browse (element_text D region_elem) ;;
        ret (strip t))
       (ret (py "Unknown"))).

(** Lines 166-232: one list of countries. *)
Definition scan_country_list (list_elem : elem D) : Harvest ctl :=
  try_except
    (region <- region_of_list list_elem ;;
     country_links <-
       browse (find_elements_by_xpath D (Some list_elem) country_links_xpath) ;;
     for_each country_links (fun link =>
       try_except
         (t <- browse (element_text D link) ;;
          let country_name := strip t in
          country_url <- browse (element_get_attribute D link "href") ;;
          match country_url with
          | Some (c :: u) =>
              when (nonempty country_name)
                (file_country (region_key region)
                   {| country := country_name; url := c :: u |})
          | _ => ret tt
          end ;;
          ret Next)
         (ret Next)) ;;
     ret Next)
    (ret Next).

(** Lines 250-294: one link of the modal. *)
Definition scan_link (link : elem D) : Harvest ctl :=
  try_except
    (t <- browse (element_text D link) ;;
     let country_name := strip t in
     country_url <- browse (element_get_attribute D link "href") ;;
     match country_url with
     | Some (c :: u) =>
         if negb (nonempty country_name) then ret Next
         else if negb (contains (py "avantorsciences.com") (c :: u))
         then ret Next
         else
           try_except
             (heading <-
                browse (find_first B (Some link) closest_heading_xpath) ;;
              t <- browse (element_text D heading) ;;
              assign_current_region (strip t))
             (ret tt) ;;
           current_region <- gets current_region ;;
           file_country (current_region_key current_region)
             {| country := country_name; url := c :: u |} ;;
           ret Next
     | _ => ret Next
     end)
    (ret Next).

(** Lines 235-297. *)
Definition scan_all_links : Harvest unit :=
  try_except
    (all_links <- browse (find_elements_by_xpath D None all_links_xpath) ;;
     assign_current_region (py "Unknown") ;;
     for_each all_links scan_link)
    (ret tt).

(** Lines 119-300: the body of the [try]. *)
Definition extract_countries_body : Harvest unit :=
  browse (handle_cookie_banner B) ;;
  popup <- browse (first_present B 20 modal_selectors (time_sleep B)) ;;
  match popup with
  | None => ret tt
  | Some _ =>
      country_lists <-
        browse (find_elements_by_xpath D None country_lists_xpath) ;;
      country_lists <-
        (if nonempty country_lists then ret country_lists
         else browse (find_elements_by_xpath D None
                        other_country_lists_xpath)) ;;
      for_each country_lists scan_country_list ;;
      found <- gets countries_data ;;
      when (no_country found) scan_all_links
  end.

(** [extract_countries_and_urls()] with the browser in state [w]. *)
Definition extract_countries_and_urls (w : world D)
  : result (dict (list country_info)) * world D :=
  let (r, s) :=
    (try_except extract_countries_body (ret tt) ;; gets countries_data)
      {| site := w; countries_data := initial_countries_data;
         current_region := [] |} in
  (r, site s).

(** An assertion about [countries_data]. *)
Definition on_countries (P : dict (list country_info) -> Prop)
  : harvest -> Prop :=
  fun s => P (countries_data s).

End Countries.

Arguments site {B} _.
Arguments countries_data {B} _.
Arguments current_region {B} _.

(** A country as the popup lists it: the name is not empty and trimmed,
    and there is a link. *)
Definition listed (info : country_info) : Prop :=
  country info <> [] /\ trimmed (country info) /\ url info <> [].

(** The dictionary has the three regions first, in their order, and only
    countries that are listed. *)
Definition well_filed (countries_data : dict (list country_info)) : Prop :=
  firstn 3 (dict_keys countries_data)
  = [py "Europe"; py "North America"; py "Asia/Pacific"]
  /\ forall region infos info,
       In (region, infos) countries_data -> In info infos -> listed info.

End Countries.

(* ===================================================================== *)
(** * The country files: [extract_countries] and [load_countries] *)
(* ===================================================================== *)

Module CountryFiles.
Import PyStr Monad Extract Countries.
Import Csv(dict, dict_lookup, dict_mem, dict_get, dict_set, dict_keys).
Local Open Scope string_scope.
Local Open Scope list_scope.

Definition nested_file : string := "countries_and_urls.json".
Definition flat_file : string := "countries_flat_list.json".

(** Lines 54-61 of [extract_countries.py]: the flat list, each country
    with its region. *)
Definition flat_list (countries_data : dict (list country_info))
  : list (str * country_info) :=
  flat_map (fun entry => map (fun info => (fst entry, info)) (snd entry))
           countries_data.

(** What [json.load] reads back from what [json.dump] wrote. *)
Definition info_json (info : country_info) : json :=
  JObj [ (py "country", JStr (country info)); (py "url", JStr (url info)) ].

Definition countries_json (countries_data : dict (list country_info)) : json :=
  JObj (map (fun entry => (fst entry, JList (map info_json (snd entry))))
            countries_data).

Definition flat_entry_json (entry : str * country_info) : json :=
  JObj [ (py "region", JStr (fst entry));
         (py "country", JStr (country (snd entry)));
         (py "url", JStr (url (snd entry))) ].

Definition flat_list_json (l : list (str * country_info)) : json :=
  JList (map flat_entry_json l).

(** Lines 29-34 of [scrape_with_country_selection.py]: the countries of one
    region; [country.get] needs a dictionary. *)
Fixpoint region_entries (region : str) (country_list : list json)
  : result (list json) :=
  match country_list with
  | [] => Ok []
  | JObj fields :: rest =>
      match region_entries region rest with
      | Ok entries =>
          Ok (JObj [ (py "region", JStr region);
                     (py "country", dict_get fields (py "country") (JStr []));
                     (py "url", dict_get fields (py "url") (JStr [])) ]
              :: entries)
      | Raise e => Raise e
      end
  | _ :: _ => Raise AttributeError
  end.

(** Lines 26-34: the loop over [data.items()]. *)
Fixpoint flatten_regions (items : list (str * json)) : result (list json) :=
  match items with
  | [] => Ok []
  | (region, country_list) :: rest =>
      match match country_list with
            | JList l => region_entries region l
            | _ => Ok []
            end with
      | Ok entries =>
          match flatten_regions rest with
          | Ok more => Ok (entries ++ more)
          | Raise e => Raise e
          end
      | Raise e => Raise e
      end
  end.

Section Load.

(** [os.path.exists] *)
Variable path_exists : string -> bool.
(** [open(name, 'r')] with [json.load] on it. *)
Variable json_load : string -> result json.

(** Lines 12-38.  The value is the list, [None] when no file is there or
    reading fails. *)
Definition load_countries : option json :=
  if path_exists flat_file
  then
    match json_load flat_file with
    | Ok countries => Some countries
    | Raise _ => None
    end
  else if path_exists nested_file
  then
    match json_load nested_file with
    | Ok (JObj items) =>
        match flatten_regions items with
        | Ok countries => Some (JList countries)
        | Raise _ => None
        end
    | Ok _ => None
    | Raise _ => None
    end
  else None.

End Load.

End CountryFiles.

Module CountryFilesFixtures.
Import PyStr Monad Extract Countries CountryFiles.
Local Open Scope string_scope.
Local Open Scope list_scope.

(** Two regions as [extract_countries_and_urls] returns them. *)
Definition two_regions : Csv.dict (list country_info) :=
  [ (py "Europe",
     [ {| country := py "Austria";
          url := py "https://www.avantorsciences.com/at/" |};
       {| country := py "Belgium";
          url := py "https://www.avantorsciences.com/be/" |} ]);
    (py "North America",
     [ {| country := py "USA";
          url := py "https://www.avantorsciences.com/us/" |} ]);
    (py "Asia/Pacific", []) ].

(** Only [countries_and_urls.json] is there. *)
Definition only_nested : string -> bool := fun name => String.eqb name nested_file.
Definition read_two_regions : string -> result json :=
  fun name =>
    if String.eqb name nested_file then Ok (countries_json two_regions)
    else Raise OSError.

End CountryFilesFixtures.

(* ===================================================================== *)
(** * [display_countries] and [get_country_selection] *)
(* ===================================================================== *)

Module Selection.
Import PyStr.
Import Csv(dict, dict_lookup, dict_mem, dict_get, dict_set, dict_keys, sorted).
Local Open Scope list_scope.

(** The fields of a country as the files hold them: a dictionary of
    strings. *)
Definition country_entry : Type := dict str.

(** A value of a country dictionary: a string, or the number of
    [selection_index]. *)
Inductive field : Type :=
| FStr (s : str)
| FInt (n : nat).

(** The lines printed for the regions and the countries (the banners are
    left out): [f"\n{region}:"] and [f"  {index:3d}. {country_name}"]. *)
Inductive line : Type :=
| Heading (region : str)
| Numbered (index : nat) (country_name : str).

(** [sorted(l, key=key)] on string keys: a stable sort. *)
Fixpoint insert_by {X} (key : X -> str) (x : X) (l : list X) : list X :=
  match l with
  | [] => [x]
  | y :: l' =>
      if str_ltb (key x) (key y) then x :: l else y :: insert_by key x l'
  end.

Definition sorted_by {X} (key : X -> str) (l : list X) : list X :=
  fold_left (fun acc x => insert_by key x acc) l [].

(** ** The country objects

    The list [countries] holds references to dictionary objects, and
    [display_countries] writes [selection_index] into the object it is
    given (line 69) and appends that same object (line 70).  An object is
    the fields it was loaded with and the index it has been given, if
    any; the heap gives the object at every address. *)
Definition loc : Type := nat.

Record country_object : Type := {
  entry : country_entry;
  selection_index : option nat
}.

Definition heap : Type := loc -> country_object.

(** The dictionary [country] after [country['selection_index'] = index]. *)
Definition with_selection_index (index : nat) (country : country_entry)
  : dict field :=
  dict_set (map (fun kv => (fst kv, FStr (snd kv))) country)
           (py "selection_index") (FInt index).

(** The dictionary that an object is. *)
Definition as_dict (o : country_object) : dict field :=
  match selection_index o with
  | Some index => with_selection_index index (entry o)
  | None => map (fun kv => (fst kv, FStr (snd kv))) (entry o)
  end.

(** [country['selection_index'] = index], in place. *)
Definition assign_selection_index (country : loc) (index : nat) (h : heap)
  : heap :=
  fun r =>
    if Nat.eqb r country
    then {| entry := entry (h r); selection_index := Some index |}
    else h r.

(** [country.get('region', 'Unknown')], [country.get('country', 'N/A')]
    and the sort key [x.get('country', '')]. *)
Definition region_of (country : country_entry) : str :=
  dict_get country (py "region") (py "Unknown").

Definition shown_name (country : country_entry) : str :=
  dict_get country (py "country") (py "N/A").

Definition name_key (country : country_entry) : str :=
  dict_get country (py "country") [].

(** Lines 47-52: the countries by region. *)
Definition group_by_region (h : heap) (countries : list loc)
  : dict (list loc) :=
  fold_left (fun regions country =>
               let region := region_of (entry (h country)) in
               dict_set regions region
                 (dict_get regions region [] ++ [country]))
            countries [].

(** The variables [index] and [all_countries_flat], what is printed, and
    the heap. *)
Record display : Type := {
  index : nat;
  printed : list line;
  all_countries_flat : list loc;
  objects : heap
}.

(** Lines 66-71: one country. *)
Definition show_country (st : display) (country : loc) : display :=
  {| index := S (index st);
     printed := printed st
                ++ [Numbered (index st)
                      (shown_name (entry (objects st country)))];
     all_countries_flat := all_countries_flat st ++ [country];
     objects := assign_selection_index country (index st) (objects st) |}.

(** Lines 62-71: one region. *)
Definition show_region (regions : dict (list loc)) (st : display)
           (region : str) : display :=
  let region_countries :=
    sorted_by (fun x => name_key (entry (objects st x)))
              (dict_get regions region []) in
  fold_left show_country region_countries
    {| index := index st;
       printed := printed st ++ [Heading region];
       all_countries_flat := all_countries_flat st;
       objects := objects st |}.

(** What a call leaves: the lines printed, the value returned and the
    heap. *)
Record outcome (A : Type) : Type := {
  lines : list line;
  value : A;
  heap_after : heap
}.
Arguments lines {A} _.
Arguments value {A} _.
Arguments heap_after {A} _.

(** Lines 40-74.  The value is the list returned, [None] for no
    countries. *)
Definition display_countries (h : heap) (countries : list loc)
  : outcome (option (list loc)) :=
  match countries with
  | [] => {| lines := []; value := None; heap_after := h |}
  | _ =>
      let regions := group_by_region h countries in
      let st := fold_left (show_region regions) (sorted (dict_keys regions))
                  {| index := 1; printed := []; all_countries_flat := [];
                     objects := h |} in
      {| lines := printed st; value := Some (all_countries_flat st);
         heap_after := objects st |}
  end.

(** What [input()] gives: a line, or [KeyboardInterrupt]. *)
Inductive answer : Type :=
| Typed (s : str)
| Interrupted.

(** How [get_country_selection] ends: with a country object, with [None],
    or by the [EOFError] of [input()] when there is no answer left. *)
Inductive selection : Type :=
| Selected (country : loc)
| NoSelection
| EndOfInput.

Section Ask.

(** [str.lower] *)
Variable lower : str -> str.
(** [int(s)]: [None] for a [ValueError]. *)
Variable parse_int : str -> option Z.

(** Lines 89-112: the loop, one answer a turn.  The index is in range by
    the test before it. *)
Fixpoint ask (all_countries : list loc) (answers : list answer)
  : selection :=
  match answers with
  | [] => EndOfInput
  | Interrupted :: _ => NoSelection
  | Typed s :: rest =>
      let selection := lower (strip s) in
      if str_eqb selection (py "q") then NoSelection
      else
        match parse_int selection with
        | Some selection_num =>
            if ((1 <=? selection_num)
                && (selection_num <=? Z.of_nat (List.length all_countries)))%Z
            then Selected (nth (Z.to_nat (selection_num - 1)) all_countries 0)
            else ask all_countries rest
        | None => ask all_countries rest
        end
  end.

(** Lines 76-112. *)
Definition get_country_selection (h : heap) (countries : list loc)
           (answers : list answer) : outcome selection :=
  match countries with
  | [] => {| lines := []; value := NoSelection; heap_after := h |}
  | _ =>
      let shown := display_countries h countries in
      match value shown with
      | Some (c :: all_countries) =>
          {| lines := lines shown;
             value := ask (c :: all_countries) answers;
             heap_after := heap_after shown |}
      | _ => {| lines := lines shown; value := NoSelection;
                heap_after := heap_after shown |}
      end
  end.

(** An answer that the loop asks again after. *)
Definition asked_again (max_index : nat) (a : answer) : Prop :=
  exists s, a = Typed s
    /\ lower (strip s) <> py "q"
    /\ match parse_int (lower (strip s)) with
       | Some n => ~ (1 <= n <= Z.of_nat max_index)%Z
       | None => True
       end.

End Ask.

(** The elements of [ordered], numbered from [start]. *)
Definition numbered_from {X} (start : nat) (ordered : list X)
  : list (nat * X) :=
  combine (seq start (List.length ordered)) ordered.

(** The numbers and names of the lines printed for countries. *)
Definition numbered_lines (lines : list line) : list (nat * str) :=
  flat_map (fun l => match l with
                     | Numbered i name => [(i, name)]
                     | Heading _ => []
                     end) lines.

(** [a] is before [b] in the order of the display: by region, then by
    name. *)
Definition display_le (a b : country_entry) : Prop :=
  str_ltb (region_of a) (region_of b) = true
  \/ (region_of a = region_of b
      /\ str_ltb (name_key b) (name_key a) = false).

(** The index that the object [r] has after the countries [ordered] were
    given the numbers from [start] on, one after the other: the last of
    its numbers, [before] when it is not among them. *)
Fixpoint index_given (start : nat) (ordered : list loc) (r : loc)
         (before : option nat) : option nat :=
  match ordered with
  | [] => before
  | x :: rest =>
      index_given (S start) rest r
        (if Nat.eqb r x then Some start else before)
  end.

End Selection.

Module SelectionFixtures.
Import PyStr Selection.
Local Open Scope list_scope.

Definition belgium : country_entry :=
  [ (py "region", py "Europe"); (py "country", py "Belgium");
    (py "url", py "https://www.avantorsciences.com/be/") ].
Definition japan : country_entry :=
  [ (py "region", py "Asia/Pacific"); (py "country", py "Japan");
    (py "url", py "https://www.avantorsciences.com/jp/") ].
Definition austria : country_entry :=
  [ (py "region", py "Europe"); (py "country", py "Austria");
    (py "url", py "https://www.avantorsciences.com/at/") ].

(** Three countries of two regions, as [load_countries] returns them:
    three objects, at the addresses 0, 1 and 2. *)
Definition three_objects : heap :=
  fun r =>
    {| entry := match r with
                | 0 => belgium
                | 1 => japan
                | 2 => austria
                | _ => []
                end;
       selection_index := None |}.

Definition three_countries : list loc := [0; 1; 2].

(** A list that holds the same object twice, as
    [c = {...}; countries = [c, c]] makes it. *)
Definition same_country_twice : list loc := [0; 0].

(** [int] on one decimal digit; the answers below hold nothing else that
    is a number. *)
Definition parse_digit (s : str) : option Z :=
  match s with
  | [c] => if ((48 <=? c) && (c <=? 57))%N then Some (Z.of_N c - 48)%Z
           else None
  | _ => None
  end.

Definition as_typed : str -> str := fun s => s.

End SelectionFixtures.

(* ===================================================================== *)
(** * Facts about strings *)
(* ===================================================================== *)

Module PyStrFacts.
Import PyStr.


Lemma str_eqb_eq a b : str_eqb a b = true <-> a = b.
Proof.
  revert b; induction a as [|x a IH]; intros [|y b]; simpl;
    try (split; [discriminate | intros H; discriminate H || reflexivity]);
    try (split; reflexivity).
  rewrite andb_true_iff, N.eqb_eq, IH.
  split; [intros [-> ->]; reflexivity | intros H; inversion H; auto].
Qed.

Lemma str_eqb_refl a : str_eqb a a = true.
Proof. apply str_eqb_eq; reflexivity. Qed.

Lemma str_eqb_neq a b : str_eqb a b = false <-> a <> b.
Proof.
  rewrite <- str_eqb_eq. destruct (str_eqb a b); split; congruence.
Qed.

Lemma str_eqb_sym a b : str_eqb a b = str_eqb b a.
Proof.
  destruct (str_eqb a b) eqn:E.
  - apply str_eqb_eq in E; subst; symmetry; apply str_eqb_refl.
  - symmetry; apply str_eqb_neq; apply str_eqb_neq in E; congruence.
Qed.

Lemma lstrip_head s :
  match lstrip s with [] => True | c :: _ => isspace c = false end.
Proof.
  induction s as [|c s IH]; simpl; auto.
  destruct (isspace c) eqn:E; auto.
Qed.

Lemma lstrip_fix s :
  match s with [] => True | c :: _ => isspace c = false end -> lstrip s = s.
Proof. destruct s as [|c s]; simpl; auto. intros ->; reflexivity. Qed.

Lemma lstrip_idem s : lstrip (lstrip s) = lstrip s.
Proof. apply lstrip_fix, lstrip_head. Qed.

Lemma rstrip_cons c s :
  rstrip (c :: s) =
  match rstrip s with
  | [] => if isspace c then [] else [c]
  | r => c :: r
  end.
Proof. reflexivity. Qed.

Lemma rstrip_idem s : rstrip (rstrip s) = rstrip s.
Proof.
  induction s as [|c s IH]; auto.
  rewrite rstrip_cons.
  destruct (rstrip s) as [|d r] eqn:E.
  - destruct (isspace c) eqn:Ec; simpl; auto. now rewrite Ec.
  - rewrite rstrip_cons, IH. reflexivity.
Qed.

Lemma rstrip_head s :
  match s with [] => True | c :: _ => isspace c = false end ->
  match rstrip s with [] => s = [] | c :: _ => isspace c = false end.
Proof.
  destruct s as [|c s]; simpl; auto.
  intros Hc. rewrite Hc. destruct (rstrip s); auto.
Qed.

Lemma strip_idem s : strip (strip s) = strip s.
Proof.
  unfold strip.
  pose proof (lstrip_head s) as H. apply rstrip_head in H.
  rewrite (lstrip_fix (rstrip (lstrip s))).
  - apply rstrip_idem.
  - destruct (rstrip (lstrip s)); auto.
Qed.

Lemma strip_trimmed s : trimmed (strip s).
Proof. apply strip_idem. Qed.

(** *** [replace] of one code point is a map *)

Lemma replace_single a b s :
  replace [a] [b] s = map (fun c => if (c =? a)%N then b else c) s.
Proof.
  unfold replace. induction s as [|c s IH]; auto.
  cbn [replace_go starts_with List.length Nat.sub map].
  rewrite N.eqb_sym, andb_true_r.
  destruct (c =? a)%N; simpl; now rewrite IH.
Qed.

(** *** [re_sub_ws] does not see which whitespace it reads *)

Lemma re_sub_ws_map f b s :
  (forall c, isspace (f c) = isspace c) ->
  (forall c, isspace c = false -> f c = c) ->
  re_sub_ws b (map f s) = re_sub_ws b s.
Proof.
  intros Hs Hf. revert b; induction s as [|c s IH]; intros b; auto.
  simpl. rewrite Hs. destruct (isspace c) eqn:E.
  - destruct b; now rewrite IH.
  - now rewrite Hf, IH.
Qed.

Lemma re_sub_ws_replace_single a b s :
  isspace a = true ->
  re_sub_ws b (replace [a] [SP] s) = re_sub_ws b s.
Proof.
  intros Ha. rewrite replace_single. apply re_sub_ws_map; intros c.
  - destruct (c =? a)%N eqn:E; auto.
    apply N.eqb_eq in E; subst. now rewrite Ha.
  - intros Hc. destruct (c =? a)%N eqn:E; auto.
    apply N.eqb_eq in E; subst. congruence.
Qed.

Lemma re_sub_ws_replace_crlf_len n : forall s b,
  List.length s <= n ->
  re_sub_ws b (replace [CR; LF] [SP] s) = re_sub_ws b s.
Proof.
  unfold replace. induction n as [|n IH]; intros s b Hlen.
  - destruct s; [reflexivity | simpl in Hlen; lia].
  - destruct s as [|c s]; [reflexivity|].
    cbn [replace_go]. destruct (starts_with [CR; LF] (c :: s)) eqn:E.
    + cbn [starts_with] in E.
      destruct (CR =? c)%N eqn:Ec; [|discriminate].
      apply N.eqb_eq in Ec; subst c.
      destruct s as [|d s]; [discriminate|].
      cbn [starts_with] in E. rewrite andb_true_l in E.
      destruct (LF =? d)%N eqn:Ed; [|discriminate].
      apply N.eqb_eq in Ed; subst d.
      cbn [List.length Nat.sub replace_go app].
      cbn [re_sub_ws]. change (isspace SP) with true.
      change (isspace CR) with true. change (isspace LF) with true.
      cbv iota. simpl in Hlen.
      destruct b; rewrite IH by lia; reflexivity.
    + cbn [re_sub_ws]. simpl in Hlen.
      destruct (isspace c); [destruct b|]; rewrite IH by lia; reflexivity.
Qed.

Lemma re_sub_ws_replace_crlf b s :
  re_sub_ws b (replace [CR; LF] [SP] s) = re_sub_ws b s.
Proof. apply (re_sub_ws_replace_crlf_len (List.length s)); lia. Qed.

(** *** Stripping the text that [re_sub_ws] leaves *)

Lemma re_sub_ws_true_head s :
  match re_sub_ws true s with [] => True | c :: _ => isspace c = false end.
Proof.
  induction s as [|c s IH]; simpl; auto.
  destruct (isspace c) eqn:E; auto.
Qed.

Lemma lstrip_re_sub_ws s : lstrip (re_sub_ws false s) = re_sub_ws true s.
Proof.
  destruct s as [|c s]; auto. simpl.
  destruct (isspace c) eqn:E.
  - simpl. change (isspace SP) with true. cbv iota.
    apply lstrip_fix, re_sub_ws_true_head.
  - simpl. now rewrite E.
Qed.

(** *** Words *)

Lemma words_cons_nonspace c s :
  isspace c = false -> words (c :: s) <> [].
Proof.
  intros Hc. simpl. rewrite Hc. unfold cons_word.
  destruct (at_word_end s); [discriminate|].
  destruct (words s); discriminate.
Qed.

Lemma words_are_words s : Forall is_word (words s).
Proof.
  induction s as [|c s IH]; simpl; [constructor|].
  destruct (isspace c) eqn:E; auto.
  unfold cons_word. destruct (at_word_end s).
  - constructor; auto. split; [discriminate | repeat constructor; auto].
  - destruct (words s) as [|w ws].
    + constructor; auto. split; [discriminate | repeat constructor; auto].
    + inversion IH as [|? ? [Hw1 Hw2] Hws]; subst.
      constructor; auto. split; [discriminate | constructor; auto].
Qed.

Lemma join_nil_iff (ws : list str) :
  Forall is_word ws -> (join [SP] ws = [] <-> ws = []).
Proof.
  intros H. split; [|intros ->; reflexivity].
  destruct ws as [|w ws]; auto. inversion H as [|? ? [Hw _] _]; subst.
  destruct w as [|c w]; [congruence|].
  destruct ws; simpl; discriminate.
Qed.

Lemma join_cons_word_boundary c ws :
  join [SP] ([c] :: ws) =
  match ws with [] => [c] | _ => c :: SP :: join [SP] ws end.
Proof. destruct ws; reflexivity. Qed.

Lemma join_cons_head c w ws :
  join [SP] ((c :: w) :: ws) = c :: join [SP] (w :: ws).
Proof. destruct ws; reflexivity. Qed.

Lemma rstrip_re_sub_ws s :
  rstrip (re_sub_ws true s) = unwords_of s /\
  rstrip (re_sub_ws false s) =
    match s with
    | [] => []
    | c :: _ =>
        if isspace c
        then match words s with [] => [] | _ => SP :: unwords_of s end
        else unwords_of s
    end.
Proof.
  unfold unwords_of.
  induction s as [|c s [IHt IHf]]; [split; reflexivity|].
  cbn [re_sub_ws words]. destruct (isspace c) eqn:Ec.
  - split; auto.
    rewrite rstrip_cons, IHt.
    change (isspace SP) with true.
    pose proof (words_are_words s) as Hw.
    destruct (words s) as [|w ws] eqn:Ew; [reflexivity|].
    destruct (join [SP] (w :: ws)) eqn:Ej; [|reflexivity].
    apply (join_nil_iff _ Hw) in Ej. discriminate.
  - assert (Hgoal : rstrip (c :: re_sub_ws false s) =
                    join [SP] (cons_word c (at_word_end s) (words s))).
    { rewrite rstrip_cons, IHf, Ec.
      destruct s as [|d s']; [reflexivity|].
      cbn [at_word_end]. destruct (isspace d) eqn:Ed.
      - unfold cons_word. rewrite join_cons_word_boundary.
        destruct (words (d :: s')); reflexivity.
      - pose proof (words_cons_nonspace d s' Ed) as Hne.
        pose proof (words_are_words (d :: s')) as Hw.
        unfold cons_word.
        destruct (words (d :: s')) as [|w ws] eqn:Ew; [congruence|].
        rewrite join_cons_head.
        destruct (join [SP] (w :: ws)) eqn:Ej; [|f_equal; symmetry; exact Ej].
        apply (join_nil_iff _ Hw) in Ej. discriminate. }
    split; exact Hgoal.
Qed.

Lemma strip_re_sub_ws s : strip (re_sub_ws false s) = unwords_of s.
Proof.
  unfold strip. rewrite lstrip_re_sub_ws. apply rstrip_re_sub_ws.
Qed.

Lemma words_of_word w t :
  is_word w -> words (w ++ SP :: t) = w :: words t /\ words w = [w].
Proof.
  intros [Hne Hw]. induction w as [|c w IH]; [congruence|].
  inversion Hw as [|? ? Hc Hw']; subst. clear Hne.
  cbn [app words]. rewrite Hc.
  destruct w as [|d w].
  - cbn [app at_word_end words]. change (isspace SP) with true. cbv iota.
    split; reflexivity.
  - destruct IH as [IH1 IH2]; [discriminate | assumption |].
    inversion Hw' as [|? ? Hd _]; subst.
    cbn [app at_word_end]. rewrite Hd.
    change ((d :: w) ++ SP :: t) with (d :: w ++ SP :: t) in IH1.
    rewrite IH1, IH2. split; reflexivity.
Qed.

Lemma words_join ws : Forall is_word ws -> words (join [SP] ws) = ws.
Proof.
  induction ws as [|w ws IH]; intros H; [reflexivity|].
  inversion H as [|? ? Hw Hws]; subst.
  destruct ws as [|w2 ws].
  - simpl. apply (words_of_word w [] Hw).
  - change (join [SP] (w :: w2 :: ws)) with (w ++ SP :: join [SP] (w2 :: ws)).
    rewrite (proj1 (words_of_word w _ Hw)), IH; auto.
Qed.

Lemma unwords_of_idem s : unwords_of (unwords_of s) = unwords_of s.
Proof.
  unfold unwords_of. now rewrite words_join by apply words_are_words.
Qed.

End PyStrFacts.

(* ===================================================================== *)
(** * Rules for Hoare triples *)
(* ===================================================================== *)

Module MonadFacts.
Import Monad.
Local Open Scope py_scope.

Section Rules.
Context {S : Type}.
Implicit Types (P E : S -> Prop).

Lemma hoare_conseq {A} P P' (Q Q' : A -> S -> Prop) E E' (m : M S A) :
  hoare P' m Q' E' ->
  (forall s, P s -> P' s) ->
  (forall a s, Q' a s -> Q a s) ->
  (forall s, E' s -> E s) ->
  hoare P m Q E.
Proof.
  intros H HP HQ HE s Hs. specialize (H s (HP s Hs)).
  destruct (m s) as [[a|e] s']; auto.
Qed.

Lemma hoare_ret {A} P (Q : A -> S -> Prop) E (a : A) :
  (forall s, P s -> Q a s) -> hoare P (ret a) Q E.
Proof. intros H s Hs. simpl. auto. Qed.

Lemma hoare_raise {A} P (Q : A -> S -> Prop) E e :
  (forall s, P s -> E s) -> hoare P (raise e : M S A) Q E.
Proof. intros H s Hs. simpl. auto. Qed.

Lemma hoare_bind {A B} P (R : A -> S -> Prop) (Q : B -> S -> Prop) E
      (m : M S A) (f : A -> M S B) :
  hoare P m R E ->
  (forall a, hoare (R a) (f a) Q E) ->
  hoare P (bind m f) Q E.
Proof.
  intros Hm Hf s Hs. unfold bind. specialize (Hm s Hs).
  destruct (m s) as [[a|e] s']; auto. apply Hf; auto.
Qed.

Lemma hoare_try {A} P (Q : A -> S -> Prop) E' E (m h : M S A) :
  hoare P m Q E' ->
  hoare E' h Q E ->
  hoare P (try_except m h) Q E.
Proof.
  intros Hm Hh s Hs. unfold try_except. specialize (Hm s Hs).
  destruct (m s) as [[a|e] s']; auto. apply Hh; auto.
Qed.

Lemma hoare_gets {A} P (Q : A -> S -> Prop) E (f : S -> A) :
  (forall s, P s -> Q (f s) s) -> hoare P (gets f) Q E.
Proof. intros H s Hs. simpl. auto. Qed.

Lemma hoare_modify P (Q : unit -> S -> Prop) E (f : S -> S) :
  (forall s, P s -> Q tt (f s)) -> hoare P (modify f) Q E.
Proof. intros H s Hs. simpl. auto. Qed.

Lemma hoare_when P (Q : unit -> S -> Prop) E (c : bool) (m : M S unit) :
  (c = true -> hoare P m Q E) ->
  (c = false -> forall s, P s -> Q tt s) ->
  hoare P (when c m) Q E.
Proof.
  intros Hm Hs. destruct c; simpl; auto using hoare_ret.
Qed.

(** A loop keeps an invariant that every turn keeps. *)
Lemma hoare_for_each {X} (I : S -> Prop) E (l : list X)
      (body : X -> M S ctl) :
  (forall x, In x l -> hoare I (body x) (fun _ => I) E) ->
  hoare I (for_each l body) (fun _ => I) E.
Proof.
  induction l as [|x l IH]; intros Hb.
  - apply hoare_ret; auto.
  - simpl. eapply hoare_bind.
    + apply Hb. left; reflexivity.
    + intros [|].
      * apply IH. intros y Hy. apply Hb. right; exact Hy.
      * apply hoare_ret; auto.
Qed.

(** A fact that does not depend on the state moves to the context. *)
Lemma hoare_pure {A} (phi : Prop) P (Q : A -> S -> Prop) E (m : M S A) :
  (phi -> hoare P m Q E) ->
  hoare (fun s => phi /\ P s) m Q E.
Proof. intros H s [Hphi Hs]. apply H; auto. Qed.

Lemma hoare_false {A} (Q : A -> S -> Prop) E (m : M S A) :
  hoare (fun _ => False) m Q E.
Proof. intros s []. Qed.

(** The same rules for an invariant. *)
Lemma preserves_ret {A} (I : S -> Prop) (a : A) : preserves I (ret a).
Proof. apply hoare_ret; auto. Qed.

Lemma preserves_raise {A} (I : S -> Prop) e : preserves I (raise e : M S A).
Proof. apply hoare_raise; auto. Qed.

Lemma preserves_bind {A B} (I : S -> Prop) (m : M S A) (f : A -> M S B) :
  preserves I m -> (forall a, preserves I (f a)) -> preserves I (bind m f).
Proof. intros Hm Hf. eapply hoare_bind; [exact Hm | exact Hf]. Qed.

Lemma preserves_try {A} (I : S -> Prop) (m h : M S A) :
  preserves I m -> preserves I h -> preserves I (try_except m h).
Proof. intros Hm Hh. eapply hoare_try; [exact Hm | exact Hh]. Qed.

Lemma preserves_gets {A} (I : S -> Prop) (f : S -> A) : preserves I (gets f).
Proof. apply hoare_gets; auto. Qed.

Lemma preserves_when (I : S -> Prop) c (m : M S unit) :
  preserves I m -> preserves I (when c m).
Proof. intros Hm. destruct c; [exact Hm | apply preserves_ret]. Qed.

Lemma preserves_for_each {X} (I : S -> Prop) (l : list X)
      (body : X -> M S ctl) :
  (forall x, In x l -> preserves I (body x)) ->
  preserves I (for_each l body).
Proof. apply hoare_for_each. Qed.

(** A value with a fact about it, for a statement that keeps [I]. *)
Lemma preserves_with {A} (I : S -> Prop) (phi : A -> Prop) (m : M S A) :
  hoare I m (fun a s => phi a /\ I s) I ->
  forall B (f : A -> M S B) (Q : B -> S -> Prop),
  (forall a, phi a -> hoare I (f a) Q I) ->
  hoare I (bind m f) Q I.
Proof.
  intros Hm B f Q Hf. eapply hoare_bind; [exact Hm|].
  intros a. apply hoare_pure. apply Hf.
Qed.

End Rules.

Lemma reachable_trans {W} (step : W -> W -> Prop) w0 w1 w2 :
  reachable step w0 w1 -> reachable step w1 w2 -> reachable step w0 w2.
Proof.
  intros H01 H12. induction H12 as [|w w' _ IH Hstep]; [exact H01|].
  eapply reach_step; eauto.
Qed.

Lemma reachable_mono {W} (step step' : W -> W -> Prop) w0 w :
  (forall a b, step a b -> step' a b) ->
  reachable step w0 w -> reachable step' w0 w.
Proof.
  intros Hsub H. induction H as [|w w' _ IH Hstep]; [constructor|].
  eapply reach_step; eauto.
Qed.

(** What holds of every run when the precondition is [True]. *)
Lemma hoare_run {S A} (m : M S A) (Q : A -> S -> Prop) (E : S -> Prop)
      (P : S -> Prop) s :
  hoare P m Q E -> P s ->
  match m s with
  | (Ok a, s') => Q a s'
  | (Raise _, s') => E s'
  end.
Proof. intros H Hs. apply H, Hs. Qed.

End MonadFacts.

(* ===================================================================== *)
(** * Facts about [save_to_csv] *)
(* ===================================================================== *)

Module CsvFacts.
Import PyStr PyStrFacts Monad MonadFacts Csv TableNotions.
Local Open Scope py_scope.

Section Clean.

Variable str_of_ref : loc -> str.
#[local] Notation "'clean'" := (clean_text_for_csv str_of_ref).

Lemma clean_unwords v :
  clean v =
  match v with
  | VNone => []
  | _ => unwords_of (py_str str_of_ref v)
  end.
Proof.
  destruct v; [reflexivity| |]; unfold clean_text_for_csv;
    rewrite !re_sub_ws_replace_single by reflexivity;
    rewrite re_sub_ws_replace_crlf; apply strip_re_sub_ws.
Qed.

Lemma clean_str s : clean (VStr s) = unwords_of s.
Proof. apply clean_unwords. Qed.

Lemma clean_normal v : unwords_of (clean v) = clean v.
Proof.
  rewrite clean_unwords. destruct v; [reflexivity| |]; apply unwords_of_idem.
Qed.

Lemma clean_trimmed v : trimmed (clean v).
Proof.
  rewrite <- clean_normal. unfold trimmed.
  rewrite <- strip_re_sub_ws. apply strip_idem.
Qed.

(** C8.  [clean_text_for_csv] maps "a\nb  c" to "a b c" and [None] to the
    empty string, and every string to its words joined by single spaces:
    line breaks and runs of whitespace collapse to one space and the ends
    are trimmed. *)
Theorem clean_text_for_csv_normalizes :
  clean_text_for_csv str_of_ref (VStr (py "a" ++ [LF] ++ py "b  c"))
  = py "a b c"
  /\ clean_text_for_csv str_of_ref VNone = []
  /\ forall s, clean_text_for_csv str_of_ref (VStr s) = unwords_of s.
Proof.
  split; [reflexivity|]. split; [reflexivity|]. apply clean_str.
Qed.

(** C10.  [clean_text_for_csv] is idempotent: cleaning a cleaned text (of a
    string or of [None]) changes nothing. *)
Theorem clean_text_for_csv_idempotent v :
  clean_text_for_csv str_of_ref (VStr (clean_text_for_csv str_of_ref v))
  = clean_text_for_csv str_of_ref v.
Proof. rewrite clean_str. apply clean_normal. Qed.

End Clean.


Section Frame.

Variable str_of_ref : loc -> str.
Variable set_iter : pyset -> list str.
Variable can_open : str -> bool.
Variable now : str.
Variable h0 : heap.

#[local] Notation "'I0'" := (extends_heap h0).

Lemma update_nth_app_r {X} (l1 l2 : list X) n x :
  List.length l1 <= n ->
  update_nth n x (l1 ++ l2) = l1 ++ update_nth (n - List.length l1) x l2.
Proof.
  revert n; induction l1 as [|y l1 IH]; intros n Hn; simpl.
  - now rewrite Nat.sub_0_r.
  - destruct n as [|n]; [simpl in Hn; lia|].
    simpl in Hn. simpl. rewrite IH by lia. reflexivity.
Qed.

Lemma alloc_fresh d :
  hoare I0 (alloc d) (fun l s => List.length h0 <= l /\ I0 s) I0.
Proof.
  intros s [added Hs]. simpl. split.
  - rewrite Hs, length_app. lia.
  - exists (added ++ [d]). simpl. now rewrite Hs, app_assoc.
Qed.

Lemma load_keeps l : preserves I0 (load l).
Proof.
  intros s Hs. unfold load. destruct (nth_error (objs s) l); exact Hs.
Qed.

Lemma store_at_keeps l d :
  List.length h0 <= l -> preserves I0 (store_at l d).
Proof.
  intros Hl s [added Hs]. simpl.
  exists (update_nth (l - List.length h0) d added).
  simpl. rewrite Hs. now apply update_nth_app_r.
Qed.

Lemma py_get_keeps obj k default : preserves I0 (py_get obj k default).
Proof.
  destruct obj; try apply preserves_raise.
  apply preserves_bind; [apply load_keeps | intros; apply preserves_ret].
Qed.

Lemma truthy_keeps v : preserves I0 (truthy v).
Proof.
  destruct v; try apply preserves_ret.
  apply preserves_bind; [apply load_keeps | intros; apply preserves_ret].
Qed.

Lemma new_row_fresh product :
  hoare I0 (new_row str_of_ref product)
        (fun l s => List.length h0 <= l /\ I0 s) I0.
Proof.
  unfold new_row.
  repeat (apply preserves_with with (phi := fun _ => True);
          [ eapply hoare_conseq; [apply py_get_keeps | auto ..]
          | intros ? _ ]).
  apply alloc_fresh.
Qed.

Lemma add_spec_at_keeps row kv :
  List.length h0 <= row -> preserves I0 (add_spec_at str_of_ref row kv).
Proof.
  intros Hrow. apply preserves_bind; [apply load_keeps|].
  intros d. now apply store_at_keeps.
Qed.

Lemma flatten_product_fresh product :
  hoare I0 (flatten_product str_of_ref product)
        (fun l s => List.length h0 <= l /\ I0 s) I0.
Proof.
  unfold flatten_product.
  eapply preserves_with; [apply new_row_fresh|]. intros row Hrow.
  eapply preserves_with; [apply alloc_fresh|]. intros default _.
  eapply hoare_bind; [apply py_get_keeps|]. intros specs.
  eapply hoare_bind with (R := fun _ => I0).
  - destruct specs; try apply preserves_ret.
    apply preserves_bind; [apply load_keeps|]. intros items.
    apply preserves_for_each. intros kv _.
    apply preserves_bind; [now apply add_spec_at_keeps|].
    intros; apply preserves_ret.
  - intros _. apply hoare_ret; auto.
Qed.

Lemma flatten_products_fresh products : forall rows,
  Forall (fun r => List.length h0 <= r) rows ->
  hoare I0 (flatten_products str_of_ref products rows)
        (fun rs s => Forall (fun r => List.length h0 <= r) rs /\ I0 s) I0.
Proof.
  induction products as [|p ps IH]; intros rows Hrows; simpl.
  - apply hoare_ret; auto.
  - eapply preserves_with; [apply flatten_product_fresh|]. intros row Hrow.
    apply IH. apply Forall_app; auto.
Qed.

Lemma collect_keys_keeps rows : forall all_keys,
  preserves I0 (collect_keys rows all_keys).
Proof.
  induction rows as [|r rs IH]; intros all_keys; simpl.
  - apply preserves_ret.
  - apply preserves_bind; [apply load_keeps | intros; apply IH].
Qed.

Lemma files_modify_keeps (f : store -> dict export_table) :
  preserves I0 (modify (fun s => set_files (f s) s)).
Proof. apply hoare_modify. intros s Hs; exact Hs. Qed.

Lemma open_w_keeps filename : preserves I0 (open_w can_open filename).
Proof.
  unfold open_w. destruct (can_open filename).
  - apply files_modify_keeps with
      (f := fun s => dict_set (files s) filename {| header := []; body := [] |}).
  - apply preserves_raise.
Qed.

Lemma writeheader_keeps filename fieldnames :
  preserves I0 (writeheader filename fieldnames).
Proof.
  unfold writeheader.
  destruct (encodable_line fieldnames); [|apply preserves_raise].
  apply files_modify_keeps with
    (f := fun s => dict_set (files s) filename
            {| header := fieldnames;
               body := body (dict_get (files s) filename
                               {| header := []; body := [] |}) |}).
Qed.

Lemma writerow_keeps filename cells :
  preserves I0 (writerow filename cells).
Proof.
  unfold writerow.
  destruct (encodable_line cells); [|apply preserves_raise].
  apply files_modify_keeps with
    (f := fun s => dict_set (files s) filename
            {| header := header (dict_get (files s) filename
                                   {| header := []; body := [] |});
               body := body (dict_get (files s) filename
                               {| header := []; body := [] |}) ++ [cells] |}).
Qed.

Lemma write_product_row_keeps filename fieldnames row :
  preserves I0 (write_product_row str_of_ref filename fieldnames row).
Proof.
  unfold write_product_row.
  eapply preserves_with; [apply alloc_fresh|]. intros cleaned_row Hc.
  apply preserves_bind.
  - apply preserves_for_each. intros key _.
    apply preserves_bind; [apply load_keeps|]. intros d.
    apply preserves_bind; [apply load_keeps|]. intros c.
    apply preserves_bind; [|intros; apply preserves_ret].
    destruct (dict_mem key d); now apply store_at_keeps.
  - intros _. apply preserves_bind; [apply load_keeps|].
    intros c. apply writerow_keeps.
Qed.

Lemma choose_filename_keeps products filename :
  preserves I0 (choose_filename str_of_ref now products filename).
Proof.
  unfold choose_filename.
  destruct filename as [[|c f]|]; try apply preserves_ret;
    (destruct products as [|p [|q ps]]; try apply preserves_ret;
     apply preserves_bind; [apply py_get_keeps|]; intros code;
     apply preserves_bind; [apply truthy_keeps|]; intros [|];
     apply preserves_ret).
Qed.

Lemma save_to_csv_keeps product_data filename :
  preserves I0
    (save_to_csv str_of_ref set_iter can_open now product_data filename).
Proof.
  unfold save_to_csv. apply preserves_try; [|apply preserves_ret].
  destruct (match product_data with
            | OneProduct l => [VRef l]
            | ProductList ps => ps
            end) as [|p ps] eqn:Eps; [apply preserves_ret|].
  apply preserves_bind; [apply choose_filename_keeps|]. intros f.
  eapply hoare_bind; [apply flatten_products_fresh; constructor|].
  intros rows. apply hoare_pure. intros Hrows.
  apply preserves_bind; [apply collect_keys_keeps|]. intros all_keys.
  apply preserves_bind; [apply open_w_keeps|]. intros _.
  apply preserves_bind; [apply writeheader_keeps|]. intros _.
  apply preserves_bind; [|intros; apply preserves_ret].
  apply preserves_for_each. intros row _.
  apply preserves_bind; [apply write_product_row_keeps|].
  intros; apply preserves_ret.
Qed.

End Frame.

Section Save.

Variable str_of_ref : loc -> str.
Variable set_iter : pyset -> list str.
Variable can_open : str -> bool.
Variable now : str.

#[local] Notation "'save'" := (save_to_csv str_of_ref set_iter can_open now).

(** C9.  [save_to_csv] leaves every object that exists when it is called
    as it is, the product records and their specification dictionaries
    among them: after the call the heap begins with the heap before it,
    whether the call has written the file or has failed. *)
Theorem save_to_csv_leaves_records product_data filename h fs :
  firstn (List.length h)
    (objs (snd (save product_data filename {| objs := h; files := fs |})))
  = h.
Proof.
  pose proof (@save_to_csv_keeps str_of_ref set_iter can_open now h
                product_data filename {| objs := h; files := fs |}) as H.
  assert (Hext : extends_heap h
                   (snd (save product_data filename
                           {| objs := h; files := fs |}))).
  { destruct (save product_data filename {| objs := h; files := fs |})
      as [[r|e] s']; apply H; exists []; simpl; now rewrite app_nil_r. }
  destruct Hext as [added Hs]. rewrite Hs.
  rewrite firstn_app, Nat.sub_diag, firstn_all. simpl. apply app_nil_r.
Qed.

End Save.


(** ** Dictionaries *)

Section Dict.
Context {V : Type}.
Implicit Types (d : dict V) (k : str) (v : V).

Lemma dict_lookup_set_same d k v : dict_lookup (dict_set d k v) k = Some v.
Proof.
  induction d as [|[k' v'] d IH]; simpl.
  - now rewrite str_eqb_refl.
  - destruct (str_eqb k' k) eqn:E; simpl; now rewrite E.
Qed.

Lemma dict_lookup_set_other d k k' v :
  k' <> k -> dict_lookup (dict_set d k v) k' = dict_lookup d k'.
Proof.
  intros Hne. induction d as [|[k0 v0] d IH]; simpl.
  - destruct (str_eqb k k') eqn:E; auto.
    apply str_eqb_eq in E. congruence.
  - destruct (str_eqb k0 k) eqn:E; simpl.
    + apply str_eqb_eq in E; subst k0.
      destruct (str_eqb k k') eqn:E'; auto.
      apply str_eqb_eq in E'. congruence.
    + now rewrite IH.
Qed.

Lemma dict_mem_keys k d : dict_mem k d = true <-> In k (dict_keys d).
Proof.
  unfold dict_mem. induction d as [|[k' v'] d IH]; simpl.
  - split; [discriminate | tauto].
  - destruct (str_eqb k' k) eqn:E.
    + apply str_eqb_eq in E. split; auto.
    + apply str_eqb_neq in E. rewrite IH. split; [auto | intros [?|?]]; tauto.
Qed.

Lemma dict_keys_set_old d k v :
  dict_mem k d = true -> dict_keys (dict_set d k v) = dict_keys d.
Proof.
  unfold dict_mem. induction d as [|[k' v'] d IH]; simpl; [discriminate|].
  destruct (str_eqb k' k) eqn:E; simpl; auto.
  intros H. now rewrite IH.
Qed.

Lemma dict_keys_set_new d k v :
  dict_mem k d = false -> dict_keys (dict_set d k v) = dict_keys d ++ [k].
Proof.
  unfold dict_mem. induction d as [|[k' v'] d IH]; simpl; auto.
  destruct (str_eqb k' k) eqn:E; simpl; [discriminate|].
  intros H. now rewrite IH.
Qed.

Lemma dict_get_lookup d k v default :
  dict_lookup d k = Some v -> dict_get d k default = v.
Proof. unfold dict_get. now intros ->. Qed.

End Dict.

(** ** The row of one record *)

Section Row.

Variable str_of_ref : loc -> str.
#[local] Notation "'clean'" := (clean_text_for_csv str_of_ref).
#[local] Notation "'add'" := (add_spec str_of_ref).

Lemma add_spec_empty_key row key value :
  clean (VStr key) = [] -> add row (key, value) = row.
Proof. unfold add_spec. now intros ->. Qed.

Lemma add_spec_new row key value :
  clean (VStr key) <> [] ->
  dict_mem (clean (VStr key)) row = false ->
  add row (key, value) =
  dict_set row (clean (VStr key)) (VStr (clean value)).
Proof.
  intros Hk Hm. unfold add_spec.
  apply str_eqb_neq in Hk. now rewrite Hk, Hm.
Qed.

Lemma add_spec_old row key value :
  clean (VStr key) <> [] ->
  dict_mem (clean (VStr key)) row = true ->
  add row (key, value) =
  dict_set row (clean (VStr key))
    (VStr (clean (dict_get row (clean (VStr key)) VNone)
           ++ py "; " ++ clean value)).
Proof.
  intros Hk Hm. unfold add_spec.
  apply str_eqb_neq in Hk. now rewrite Hk, Hm.
Qed.

(** C6, as the code has it.  When the normalized key of a specification is
    already a column of the row (a standard column, or a key of the same
    record processed before), the cell becomes the existing cell,
    normalized again, then "; ", then the normalized value; no column is
    added and no other cell changes.  When the existing cell is a string in
    normal form, that is the existing cell followed by "; " and the
    value. *)
Theorem add_spec_joins row key value :
  clean (VStr key) <> [] ->
  dict_mem (clean (VStr key)) row = true ->
  dict_lookup (add row (key, value)) (clean (VStr key))
  = Some (VStr (clean (dict_get row (clean (VStr key)) VNone)
                ++ py "; " ++ clean value))
  /\ dict_keys (add row (key, value)) = dict_keys row
  /\ (forall k, k <> clean (VStr key) ->
        dict_lookup (add row (key, value)) k = dict_lookup row k)
  /\ (forall old, dict_lookup row (clean (VStr key)) = Some (VStr old) ->
        unwords_of old = old ->
        dict_lookup (add row (key, value)) (clean (VStr key))
        = Some (VStr (old ++ py "; " ++ clean value))).
Proof.
  intros Hk Hm. rewrite (add_spec_old _ _ _ Hk Hm).
  split; [apply dict_lookup_set_same|].
  split; [now apply dict_keys_set_old|].
  split; [intros k Hne; now apply dict_lookup_set_other|].
  intros old Hold Hnorm. rewrite dict_lookup_set_same.
  rewrite (dict_get_lookup _ _ _ VNone Hold), clean_str, Hnorm. reflexivity.
Qed.

(** A processed key is a column afterwards, and columns stay. *)
Lemma add_spec_keeps_columns row kv k :
  dict_mem k row = true -> dict_mem k (add row kv) = true.
Proof.
  intros Hm. destruct kv as [key value]. unfold add_spec.
  destruct (str_eqb (clean (VStr key)) []); auto.
  apply dict_mem_keys.
  destruct (dict_mem (clean (VStr key)) row) eqn:E; simpl.
  - rewrite dict_keys_set_old by exact E. now apply dict_mem_keys.
  - rewrite dict_keys_set_new by exact E.
    apply in_or_app; left. now apply dict_mem_keys.
Qed.

Lemma add_spec_makes_column row key value :
  clean (VStr key) <> [] ->
  dict_mem (clean (VStr key)) (add row (key, value)) = true.
Proof.
  intros Hk. unfold dict_mem.
  destruct (dict_mem (clean (VStr key)) row) eqn:E.
  - rewrite (add_spec_old _ _ _ Hk E). now rewrite dict_lookup_set_same.
  - rewrite (add_spec_new _ _ _ Hk E). now rewrite dict_lookup_set_same.
Qed.

End Row.

(** ** Runs on concrete stores *)

Section Runs.
Import CsvFixtures.

(** C3, as stated, fails: nothing is written for an empty list. *)
Lemma save_to_csv_empty_writes_no_table :
  ~ exists filename table,
      dict_lookup (files (snd (save (ProductList []) None no_store))) filename
      = Some table.
Proof. intros [filename [table H]]. discriminate H. Qed.

(** The value on failure, here for a list that holds [None]. *)
Lemma save_to_csv_failure_returns_none :
  save (ProductList [VNone]) (Some (py "out.csv")) no_store
  = (Ok None, no_store).
Proof. reflexivity. Qed.

(** C6, as stated, fails: the cell [URL] holds "a  b" and the joined cell
    is "a b; x". *)
Lemma save_to_csv_joined_cell_renormalized :
  let s := {| objs := url_collision_heap; files := [] |} in
  let out := save (ProductList [VRef 0]) (Some (py "out.csv")) s in
  fst out = Ok (Some (py "out.csv"))
  /\ option_map (@body) (dict_lookup (files (snd out)) (py "out.csv"))
     = Some [[py "P1"; []; []; []; []; []; []; py "a b; x"]]
  /\ py "a b; x" <> py "a  b" ++ py "; " ++ py "x".
Proof. vm_compute. repeat split; discriminate. Qed.

(** The table of two records. *)
Example save_to_csv_two_records :
  let s := {| objs := two_records_heap; files := [] |} in
  let out := save (ProductList [VRef 0; VRef 2]) (Some (py "out.csv")) s in
  fst out = Ok (Some (py "out.csv"))
  /\ dict_lookup (files (snd out)) (py "out.csv")
     = Some {| header := standard_fields ++ [py "Color"; py "Purity"];
               body := [ [py "P1"; []; []; []; py "10"; []; []; [];
                          []; py "99%"];
                         [py "P2"; []; []; []; py "; 12"; []; []; [];
                          py "clear"; []] ] |}.
Proof. vm_compute. split; reflexivity. Qed.

End Runs.

Section Empty.

Variable str_of_ref : loc -> str.
Variable set_iter : pyset -> list str.
Variable can_open : str -> bool.
Variable now : str.

(** C3, as the code has it.  For an empty list [save_to_csv] returns
    [None], the value it also returns on failure; it raises nothing,
    writes no file and leaves the store as it is. *)
Theorem save_to_csv_empty_returns_none filename s :
  save_to_csv str_of_ref set_iter can_open now (ProductList []) filename s
  = (Ok None, s).
Proof. reflexivity. Qed.

End Empty.


(** ** The order of strings and [sorted] *)

Section Order.

Lemma str_ltb_irrefl a : str_ltb a a = false.
Proof.
  induction a as [|x a IH]; simpl; auto.
  now rewrite N.ltb_irrefl, N.eqb_refl, IH.
Qed.

Lemma str_ltb_trans a : forall b c,
  str_ltb a b = true -> str_ltb b c = true -> str_ltb a c = true.
Proof.
  induction a as [|x a IH]; intros [|y b] [|z c]; simpl; auto;
    try discriminate.
  intros Hab Hbc.
  apply orb_true_iff in Hab. apply orb_true_iff in Hbc.
  apply orb_true_iff.
  destruct Hab as [Hab|Hab], Hbc as [Hbc|Hbc].
  - left. apply N.ltb_lt in Hab, Hbc. apply N.ltb_lt. lia.
  - apply andb_true_iff in Hbc. destruct Hbc as [Hyz _].
    apply N.eqb_eq in Hyz; subst. now left.
  - apply andb_true_iff in Hab. destruct Hab as [Hxy _].
    apply N.eqb_eq in Hxy; subst. now left.
  - apply andb_true_iff in Hab. apply andb_true_iff in Hbc.
    destruct Hab as [Hxy Hab], Hbc as [Hyz Hbc].
    apply N.eqb_eq in Hxy, Hyz; subst. right.
    rewrite N.eqb_refl. simpl. eapply IH; eauto.
Qed.

Lemma str_ltb_connex a : forall b,
  str_ltb a b = false -> str_ltb b a = false -> a = b.
Proof.
  induction a as [|x a IH]; intros [|y b]; simpl; auto; try discriminate.
  intros Hab Hba.
  apply orb_false_iff in Hab. apply orb_false_iff in Hba.
  destruct Hab as [Hxy Hab], Hba as [Hyx Hba].
  apply N.ltb_ge in Hxy, Hyx. assert (x = y) by lia. subst y.
  rewrite N.eqb_refl in Hab, Hba. simpl in Hab, Hba.
  f_equal. now apply IH.
Qed.

Lemma str_ltb_asym a b : str_ltb a b = true -> str_ltb b a = false.
Proof.
  intros Hab. destruct (str_ltb b a) eqn:Hba; auto.
  pose proof (str_ltb_trans _ _ _ Hab Hba) as H.
  now rewrite str_ltb_irrefl in H.
Qed.

Lemma str_le_trans a b c : str_le a b -> str_le b c -> str_le a c.
Proof.
  unfold str_le. intros Hab Hbc.
  destruct (str_ltb c a) eqn:Hca; auto.
  destruct (str_ltb b c) eqn:Hbc'.
  - pose proof (str_ltb_trans _ _ _ Hbc' Hca). congruence.
  - pose proof (str_ltb_connex _ _ Hbc' Hbc). subst. congruence.
Qed.

Lemma insert_sorted_perm x l : Permutation (insert_sorted x l) (x :: l).
Proof.
  induction l as [|y l IH]; simpl; auto.
  destruct (str_ltb x y); auto.
  rewrite IH. apply perm_swap.
Qed.

Lemma insert_sorted_sorted x l :
  StronglySorted str_le l -> StronglySorted str_le (insert_sorted x l).
Proof.
  induction l as [|y l IH]; intros Hl; simpl.
  - repeat constructor.
  - inversion Hl as [|? ? Hl' Hy]; subst.
    destruct (str_ltb x y) eqn:E.
    + constructor; auto. constructor.
      * apply str_ltb_asym. exact E.
      * eapply Forall_impl; [|exact Hy]. intros z Hz.
        eapply str_le_trans; [|exact Hz]. apply str_ltb_asym. exact E.
    + constructor; auto.
      eapply Permutation_Forall.
      * symmetry. apply insert_sorted_perm.
      * constructor; auto.
Qed.

Lemma sorted_from acc l :
  StronglySorted str_le acc ->
  StronglySorted str_le (fold_left (fun a x => insert_sorted x a) l acc)
  /\ Permutation (fold_left (fun a x => insert_sorted x a) l acc) (acc ++ l).
Proof.
  revert acc; induction l as [|x l IH]; intros acc Hacc; simpl.
  - split; auto. now rewrite app_nil_r.
  - destruct (IH (insert_sorted x acc)) as [H1 H2].
    + now apply insert_sorted_sorted.
    + split; auto. rewrite H2, insert_sorted_perm.
      apply Permutation_middle.
Qed.

Lemma sorted_sorted l : StronglySorted str_le (sorted l).
Proof. apply sorted_from. constructor. Qed.

Lemma sorted_perm l : Permutation (sorted l) l.
Proof. apply (sorted_from [] l). constructor. Qed.

(** Sorted lists with the same elements are equal. *)
Lemma sorted_unique l1 : forall l2,
  StronglySorted str_le l1 -> StronglySorted str_le l2 ->
  Permutation l1 l2 -> l1 = l2.
Proof.
  induction l1 as [|x l1 IH]; intros l2 H1 H2 Hp.
  - now apply Permutation_nil in Hp.
  - destruct l2 as [|y l2].
    + symmetry in Hp. now apply Permutation_nil in Hp.
    + inversion H1 as [|? ? H1' Hx]; inversion H2 as [|? ? H2' Hy]; subst.
      assert (x = y).
      { assert (Hin1 : In x (y :: l2))
          by (eapply Permutation_in; [exact Hp | now left]).
        assert (Hin2 : In y (x :: l1))
          by (eapply Permutation_in; [symmetry; exact Hp | now left]).
        destruct Hin1 as [->|Hin1]; auto.
        destruct Hin2 as [->|Hin2]; auto.
        rewrite Forall_forall in Hx, Hy.
        specialize (Hx _ Hin2). specialize (Hy _ Hin1).
        unfold str_le in Hx, Hy. now apply str_ltb_connex. }
      subst y. f_equal. apply IH; auto.
      eapply Permutation_cons_inv; exact Hp.
Qed.

Lemma sorted_permutation l1 l2 :
  Permutation l1 l2 -> sorted l1 = sorted l2.
Proof.
  intros Hp. apply sorted_unique; try apply sorted_sorted.
  now rewrite !sorted_perm.
Qed.

(** Without duplicates the order is strict. *)
Lemma sorted_strict l :
  NoDup l -> StronglySorted str_le l -> StronglySorted str_lt l.
Proof.
  induction l as [|x l IH]; intros Hnd Hs; [constructor|].
  inversion Hnd as [|? ? Hx Hnd']; inversion Hs as [|? ? Hs' Hle]; subst.
  constructor; auto.
  rewrite Forall_forall in *. intros y Hy. specialize (Hle y Hy).
  unfold str_le in Hle. unfold str_lt.
  destruct (str_ltb x y) eqn:E; auto.
  pose proof (str_ltb_connex _ _ E Hle). subst. contradiction.
Qed.

End Order.

(** ** Sets *)

Section Sets.

Lemma set_mem_in k s : set_mem k s = true <-> In k s.
Proof.
  unfold set_mem. rewrite existsb_exists. split.
  - intros [x [Hx E]]. apply str_eqb_eq in E. now subst.
  - intros H. exists k. split; auto. apply str_eqb_refl.
Qed.

Lemma set_add_in s k x : In x (set_add s k) <-> In x s \/ x = k.
Proof.
  unfold set_add. destruct (set_mem k s) eqn:E.
  - apply set_mem_in in E. split; auto. intros [?| ->]; auto.
  - rewrite in_app_iff. simpl. intuition.
Qed.

Lemma set_add_nodup s k : NoDup s -> NoDup (set_add s k).
Proof.
  intros Hs. unfold set_add. destruct (set_mem k s) eqn:E; auto.
  apply NoDup_app; auto.
  - repeat constructor. auto.
  - intros x Hx [->|[]]. apply set_mem_in in Hx. congruence.
Qed.

Lemma set_update_in ks : forall s x,
  In x (set_update s ks) <-> In x s \/ In x ks.
Proof.
  unfold set_update. induction ks as [|k ks IH]; intros s x; simpl.
  - tauto.
  - rewrite IH, set_add_in. intuition.
Qed.

Lemma set_update_nodup ks : forall s, NoDup s -> NoDup (set_update s ks).
Proof.
  unfold set_update. induction ks as [|k ks IH]; intros s Hs; simpl; auto.
  apply IH. now apply set_add_nodup.
Qed.

End Sets.


(** ** Runs of the statements of [save_to_csv] *)

Section Runs.

Variable str_of_ref : loc -> str.
#[local] Notation "'add'" := (add_spec str_of_ref).

Lemma bind_ok {S A B} (m : M S A) (f : A -> M S B) s a s' :
  m s = (Ok a, s') -> bind m f s = f a s'.
Proof. unfold bind. now intros ->. Qed.

Lemma bind_fails {S A B} (m : M S A) (f : A -> M S B) s e s' :
  m s = (Raise e, s') -> bind m f s = (Raise e, s').
Proof. unfold bind. now intros ->. Qed.

Lemma nth_error_update_nth {X} (l : list X) : forall n x,
  n < List.length l -> nth_error (update_nth n x l) n = Some x.
Proof.
  induction l as [|y l IH]; intros [|n] x Hn; simpl in *; try lia; auto.
  apply IH. lia.
Qed.

Lemma update_nth_twice {X} (l : list X) : forall n x y,
  update_nth n x (update_nth n y l) = update_nth n x l.
Proof.
  induction l as [|z l IH]; intros [|n] x y; simpl; auto.
  now rewrite IH.
Qed.

Lemma update_nth_same {X} (l : list X) : forall n x,
  nth_error l n = Some x -> update_nth n x l = l.
Proof.
  induction l as [|z l IH]; intros [|n] x H; simpl in *; try discriminate.
  - now inversion H.
  - now rewrite IH.
Qed.

Lemma update_nth_length {X} (l : list X) : forall n x,
  List.length (update_nth n x l) = List.length l.
Proof.
  induction l as [|z l IH]; intros [|n] x; simpl; auto.
Qed.

Lemma load_ok s l d : nth_error (objs s) l = Some d -> load l s = (Ok d, s).
Proof. unfold load. now intros ->. Qed.

Lemma py_get_ok s l d k default :
  nth_error (objs s) l = Some d ->
  py_get (VRef l) k default s = (Ok (dict_get d k default), s).
Proof. intros H. unfold py_get. now rewrite (bind_ok _ _ _ _ _ (load_ok _ _ _ H)). Qed.

Lemma new_row_ok s l d :
  nth_error (objs s) l = Some d ->
  new_row str_of_ref (VRef l) s
  = (Ok (List.length (objs s)),
     set_objs (objs s ++ [row_literal str_of_ref d]) s).
Proof.
  intros H. unfold new_row.
  repeat rewrite (bind_ok _ _ _ _ _ (py_get_ok _ _ _ _ _ H)).
  reflexivity.
Qed.

Lemma add_spec_at_ok s row d kv :
  nth_error (objs s) row = Some d ->
  add_spec_at str_of_ref row kv s
  = (Ok tt, set_objs (update_nth row (add d kv) (objs s)) s).
Proof.
  intros H. unfold add_spec_at.
  now rewrite (bind_ok _ _ _ _ _ (load_ok _ _ _ H)).
Qed.

Lemma add_specs_ok items : forall s row d,
  nth_error (objs s) row = Some d ->
  for_each items (fun kv => bind (add_spec_at str_of_ref row kv)
                                 (fun _ => ret Next)) s
  = (Ok tt, set_objs (update_nth row (fold_left add items d) (objs s)) s).
Proof.
  induction items as [|kv items IH]; intros s row d H.
  - simpl. rewrite (update_nth_same _ _ _ H). now destruct s.
  - cbn [for_each fold_left].
    assert (Hrow : row < List.length (objs s))
      by (apply nth_error_Some; congruence).
    rewrite (bind_ok _ _ _ Next
               (set_objs (update_nth row (add d kv) (objs s)) s)).
    + rewrite (IH _ row (add d kv)).
      * simpl. now rewrite update_nth_twice.
      * simpl. now apply nth_error_update_nth.
    + now rewrite (bind_ok _ _ _ _ _ (add_spec_at_ok _ _ _ kv H)).
Qed.

(** A record that is closed in [h] is closed in a larger heap and has the
    same row there. *)
Lemma closed_product_extends h added p :
  closed_product h p -> closed_product (h ++ added) p.
Proof.
  intros [d [Hd Hrefs]]. exists d. split.
  - destruct p; try discriminate. simpl in *.
    rewrite nth_error_app1; auto. apply nth_error_Some. congruence.
  - intros k l Hl. specialize (Hrefs k l Hl). rewrite length_app. lia.
Qed.

Lemma product_dict_extends h added p d :
  product_dict h p = Some d -> product_dict (h ++ added) p = Some d.
Proof.
  destruct p; try discriminate. simpl. intros H.
  rewrite nth_error_app1; auto. apply nth_error_Some. congruence.
Qed.

Lemma spec_items_extends h added d :
  (forall k l, dict_lookup d k = Some (VRef l) -> l < List.length h) ->
  spec_items (h ++ added) d = spec_items h d.
Proof.
  intros Hrefs. unfold spec_items.
  destruct (dict_lookup d (py "specifications")) as [[| |ls]|] eqn:E; auto.
  rewrite nth_error_app1; eauto.
Qed.

Lemma row_of_extends h added d :
  (forall k l, dict_lookup d k = Some (VRef l) -> l < List.length h) ->
  row_of str_of_ref (h ++ added) d = row_of str_of_ref h d.
Proof. intros H. unfold row_of. now rewrite spec_items_extends. Qed.

Lemma flatten_product_ok s p d :
  product_dict (objs s) p = Some d ->
  (forall k l, dict_lookup d k = Some (VRef l) -> l < List.length (objs s)) ->
  flatten_product str_of_ref p s
  = (Ok (List.length (objs s)),
     set_objs (objs s ++ [row_of str_of_ref (objs s) d; []]) s).
Proof.
  intros Hd Hrefs. destruct p as [| |l]; try discriminate. simpl in Hd.
  assert (Hl : l < List.length (objs s)) by (apply nth_error_Some; congruence).
  unfold flatten_product.
  rewrite (bind_ok _ _ _ _ _ (new_row_ok _ _ _ Hd)).
  set (lit := row_literal str_of_ref d).
  set (s1 := set_objs (objs s ++ [lit]) s).
  set (s2 := set_objs (objs s1 ++ [[]]) s1).
  assert (Halloc : alloc [] s1 = (Ok (S (List.length (objs s))), s2)).
  { unfold alloc, s2. simpl. rewrite length_app. simpl.
    now rewrite Nat.add_1_r. }
  rewrite (bind_ok _ _ _ _ _ Halloc).
  assert (Hd2 : nth_error (objs s2) l = Some d).
  { simpl. rewrite <- app_assoc. rewrite nth_error_app1; auto. }
  rewrite (bind_ok _ _ _ _ _ (py_get_ok _ _ _ _ _ Hd2)).
  assert (Hrow : nth_error (objs s2) (List.length (objs s)) = Some lit).
  { simpl. rewrite <- app_assoc. rewrite nth_error_app2 by lia.
    now rewrite Nat.sub_diag. }
  assert (Hfin : forall items,
             set_objs (update_nth (List.length (objs s))
                         (fold_left add items lit) (objs s2)) s2
             = set_objs (objs s ++ [fold_left add items lit; []]) s).
  { intros items. simpl. rewrite <- app_assoc.
    rewrite update_nth_app_r by lia. now rewrite Nat.sub_diag. }
  unfold row_of, spec_items, dict_get. fold lit.
  destruct (dict_lookup d (py "specifications")) as [[| |ls]|] eqn:E.
  - cbn [bind ret]. rewrite <- (Hfin []); cbn [fold_left];
    now rewrite (update_nth_same _ _ _ Hrow).
  - cbn [bind ret]. rewrite <- (Hfin []); cbn [fold_left];
    now rewrite (update_nth_same _ _ _ Hrow).
  - specialize (Hrefs _ _ E).
    destruct (nth_error (objs s) ls) as [items|] eqn:Els;
      [|apply nth_error_None in Els; lia].
    assert (Hls : nth_error (objs s2) ls = Some items).
    { simpl. rewrite <- app_assoc. rewrite nth_error_app1; auto. }
    rewrite (bind_ok _ _ _ tt
               (set_objs (objs s ++ [fold_left add items lit; []]) s)).
    + reflexivity.
    + rewrite (bind_ok _ _ _ _ _ (load_ok _ _ _ Hls)).
      rewrite (add_specs_ok items s2 _ lit Hrow). now rewrite Hfin.
  - assert (Hdef : nth_error (objs s2) (S (List.length (objs s))) = Some []).
    { unfold s2, s1. cbn [objs set_objs]. rewrite <- app_assoc.
      rewrite nth_error_app2 by lia.
      replace (S (List.length (objs s)) - List.length (objs s)) with 1 by lia.
      reflexivity. }
    rewrite (bind_ok _ _ _ tt s2).
    + cbn [ret]. rewrite <- (Hfin []); cbn [fold_left];
    now rewrite (update_nth_same _ _ _ Hrow).
    + now rewrite (bind_ok _ _ _ _ _ (load_ok _ _ _ Hdef)).
Qed.

Lemma set_objs_id s : set_objs (objs s ++ []) s = s.
Proof. destruct s. unfold set_objs. simpl. now rewrite app_nil_r. Qed.

Lemma flatten_products_ok h ps : forall rows s added0,
  Forall (closed_product h) ps ->
  objs s = h ++ added0 ->
  exists rows' added,
    flatten_products str_of_ref ps rows s
    = (Ok (rows ++ rows'), set_objs (objs s ++ added) s)
    /\ Forall2 (fun r d => nth_error (objs s ++ added) r = Some d)
               rows' (rows_of str_of_ref h ps).
Proof.
  induction ps as [|p ps IH]; intros rows s added0 Hcl Hs.
  - exists [], []. split; [|constructor].
    simpl. unfold ret. now rewrite app_nil_r, set_objs_id.
  - inversion Hcl as [|? ? [d [Hd Hrefs]] Hcl']; subst.
    assert (Hd' : product_dict (objs s) p = Some d)
      by (rewrite Hs; now apply product_dict_extends).
    assert (Hrefs' : forall k l, dict_lookup d k = Some (VRef l) ->
                                 l < List.length (objs s)).
    { intros k l Hl. specialize (Hrefs k l Hl).
      rewrite Hs, length_app. lia. }
    pose proof (flatten_product_ok s p d Hd' Hrefs') as Hrun.
    assert (Hrow : row_of str_of_ref (objs s) d = row_of str_of_ref h d)
      by (rewrite Hs; now apply row_of_extends).
    rewrite Hrow in Hrun.
    set (row := row_of str_of_ref h d) in *.
    set (s1 := set_objs (objs s ++ [row; []]) s) in *.
    destruct (IH (rows ++ [List.length (objs s)]) s1 (added0 ++ [row; []]))
      as [rows'' [added'' [Hrun' Hall]]]; auto.
    { simpl. now rewrite Hs, app_assoc. }
    exists (List.length (objs s) :: rows''), ([row; []] ++ added'').
    split.
    + cbn [flatten_products]. rewrite (bind_ok _ _ _ _ _ Hrun).
      cbv beta. refine (eq_trans Hrun' _).
      rewrite <- app_assoc. simpl. unfold set_objs. simpl.
      now rewrite <- app_assoc.
    + cbn [rows_of map]. rewrite Hd. fold (rows_of str_of_ref h ps).
      constructor.
      * rewrite nth_error_app2 by lia. now rewrite Nat.sub_diag.
      * simpl in Hall. rewrite <- app_assoc in Hall. exact Hall.
Qed.

Lemma collect_keys_ok rows : forall dicts acc s,
  Forall2 (fun r d => nth_error (objs s) r = Some d) rows dicts ->
  collect_keys rows acc s
  = (Ok (fold_left (fun a d => set_update a (dict_keys d)) dicts acc), s).
Proof.
  induction rows as [|r rows IH]; intros dicts acc s Hall;
    inversion Hall as [|? d ? dicts' Hr Hall']; subst; [reflexivity|].
  cbn [collect_keys fold_left].
  rewrite (bind_ok _ _ _ _ _ (load_ok _ _ _ Hr)). now apply IH.
Qed.

Variable now : str.

Lemma choose_filename_ok s ps filename :
  Forall (closed_product (objs s)) ps ->
  choose_filename str_of_ref now ps filename s
  = (Ok (filename_of str_of_ref now (objs s) ps filename), s).
Proof.
  intros Hcl. unfold choose_filename, filename_of.
  destruct filename as [[|c f]|]; try reflexivity;
    (destruct ps as [|p [|q ps]]; try reflexivity;
     inversion Hcl as [|? ? [d [Hd Hrefs]] _]; subst;
     rewrite Hd; destruct p as [| |l]; try discriminate; simpl in Hd;
     rewrite (bind_ok _ _ _ _ _ (py_get_ok _ _ _ _ _ Hd));
     unfold dict_get;
     destruct (dict_lookup d (py "product_code")) as [[|code|l']|] eqn:E;
     try reflexivity;
     [ destruct code; reflexivity
     | specialize (Hrefs _ _ E);
       destruct (nth_error (objs s) l') as [d'|] eqn:El';
       [| apply nth_error_None in El'; lia];
       unfold truthy;
       rewrite (bind_ok _ _ _ _ _
                  (bind_ok _ _ _ _ _ (load_ok _ _ _ El')));
       destruct d'; reflexivity ]).
Qed.

(** *** Writing the rows *)

Lemma nth_error_update_nth_other {X} (l : list X) : forall n m x,
  n <> m -> nth_error (update_nth n x l) m = nth_error l m.
Proof.
  induction l as [|y l IH]; intros [|n] [|m] x Hne; simpl; auto;
    congruence.
Qed.

Lemma dict_set_twice {V} (d : dict V) k a b :
  dict_set (dict_set d k a) k b = dict_set d k b.
Proof.
  induction d as [|[k' v'] d IH]; simpl.
  - now rewrite str_eqb_refl.
  - destruct (str_eqb k' k) eqn:E; simpl; rewrite E; [reflexivity|].
    now rewrite IH.
Qed.

Lemma dict_set_same {V} (d : dict V) k v :
  dict_lookup d k = Some v -> dict_set d k v = d.
Proof.
  induction d as [|[k' v'] d IH]; simpl; [discriminate|].
  destruct (str_eqb k' k) eqn:E.
  - intros H. inversion H. reflexivity.
  - intros H. now rewrite IH.
Qed.

(** The value that lines 1660-1664 give the column [key]. *)
Let filled (d : dict pyval) (key : str) : pyval :=
  if dict_mem key d then dict_get d key VNone else VStr [].

Let fill (d : dict pyval) (c : dict pyval) (key : str) : dict pyval :=
  if dict_mem key d then dict_set c key (dict_get d key VNone)
  else dict_set c key (VStr []).

Lemma fill_filled d c key : fill d c key = dict_set c key (filled d key).
Proof. unfold fill, filled. destruct (dict_mem key d); reflexivity. Qed.

Lemma filled_lookup d keys : forall c k,
  dict_lookup (fold_left (fill d) keys c) k
  = if in_dec (list_eq_dec N.eq_dec) k keys then Some (filled d k)
    else dict_lookup c k.
Proof.
  induction keys as [|k0 keys IH]; intros c k; [reflexivity|].
  cbn [fold_left]. rewrite IH.
  destruct (in_dec (list_eq_dec N.eq_dec) k keys) as [Hk|Hk];
    destruct (in_dec (list_eq_dec N.eq_dec) k (k0 :: keys)) as [Hk'|Hk'];
    try reflexivity.
  - exfalso. apply Hk'. now right.
  - destruct Hk' as [->|Hk']; [|contradiction].
    rewrite fill_filled. apply dict_lookup_set_same.
  - rewrite fill_filled. apply dict_lookup_set_other.
    intros ->. apply Hk'. now left.
Qed.

(** The cells written for a row are the cells of the row itself. *)
Lemma cleaned_row_cells fieldnames d :
  map (fun key => cell_text str_of_ref
                    (dict_get (cleaned_row_of fieldnames d) key (VStr [])))
      fieldnames
  = row_cells str_of_ref fieldnames d.
Proof.
  unfold row_cells. apply map_ext_in. intros key Hkey. f_equal.
  unfold dict_get at 1. unfold cleaned_row_of.
  change (fun c key0 => if dict_mem key0 d
                        then dict_set c key0 (dict_get d key0 VNone)
                        else dict_set c key0 (VStr [])) with (fill d).
  rewrite filled_lookup.
  destruct (in_dec (list_eq_dec N.eq_dec) key fieldnames); [|contradiction].
  unfold filled, dict_mem, dict_get.
  destruct (dict_lookup d key); reflexivity.
Qed.

Lemma fill_cleaned_row_ok d row c keys : forall s cur,
  nth_error (objs s) row = Some d ->
  nth_error (objs s) c = Some cur ->
  row <> c ->
  for_each keys (fun key =>
    bind (load row) (fun d =>
      bind (load c) (fun cd =>
        bind (if dict_mem key d
              then store_at c (dict_set cd key (dict_get d key VNone))
              else store_at c (dict_set cd key (VStr [])))
             (fun _ => ret Next)))) s
  = (Ok tt, set_objs (update_nth c (fold_left (fill d) keys cur) (objs s)) s).
Proof.
  induction keys as [|key keys IH]; intros s cur Hrow Hc Hne.
  - simpl. rewrite (update_nth_same _ _ _ Hc). now destruct s.
  - cbn [for_each fold_left].
    assert (Hlen : c < List.length (objs s))
      by (apply nth_error_Some; congruence).
    rewrite (bind_ok _ _ _ Next
               (set_objs (update_nth c (fill d cur key) (objs s)) s)).
    + rewrite (IH _ (fill d cur key)).
      * simpl. now rewrite update_nth_twice.
      * simpl. rewrite nth_error_update_nth_other; auto.
      * simpl. now apply nth_error_update_nth.
      * exact Hne.
    + rewrite (bind_ok _ _ _ _ _ (load_ok _ _ _ Hrow)).
      rewrite (bind_ok _ _ _ _ _ (load_ok _ _ _ Hc)).
      unfold fill. destruct (dict_mem key d); reflexivity.
Qed.

(** One row: the dictionary [cleaned_row] is built, and the line is
    written or the write raises and leaves the file as it is. *)
Lemma write_product_row_run s filename fieldnames row d :
  nth_error (objs s) row = Some d ->
  write_product_row str_of_ref filename fieldnames row s
  = if encodable_line (row_cells str_of_ref fieldnames d)
    then (Ok tt,
          {| objs := objs s ++ [cleaned_row_of fieldnames d];
             files :=
               dict_set (files s) filename
                 {| header := header (dict_get (files s) filename
                                        {| header := []; body := [] |});
                    body := body (dict_get (files s) filename
                                    {| header := []; body := [] |})
                            ++ [row_cells str_of_ref fieldnames d] |} |})
    else (Raise UnicodeEncodeError,
          {| objs := objs s ++ [cleaned_row_of fieldnames d];
             files := files s |}).
Proof.
  intros Hrow. unfold write_product_row.
  assert (Hlen : row < List.length (objs s))
    by (apply nth_error_Some; congruence).
  set (c := List.length (objs s)).
  set (s1 := set_objs (objs s ++ [[]]) s).
  assert (Halloc : alloc [] s = (Ok c, s1)) by reflexivity.
  rewrite (bind_ok _ _ _ _ _ Halloc).
  assert (Hrow1 : nth_error (objs s1) row = Some d).
  { simpl. rewrite nth_error_app1; auto. }
  assert (Hc1 : nth_error (objs s1) c = Some []).
  { simpl. unfold c. rewrite nth_error_app2 by lia.
    now rewrite Nat.sub_diag. }
  assert (Hne : row <> c) by (unfold c; lia).
  rewrite (bind_ok _ _ _ _ _
             (fill_cleaned_row_ok d row c fieldnames s1 [] Hrow1 Hc1 Hne)).
  fold (fill d). change (fold_left (fill d) fieldnames [])
    with (cleaned_row_of fieldnames d).
  set (s2 := set_objs (update_nth c (cleaned_row_of fieldnames d) (objs s1)) s1).
  assert (Hs2 : s2 = {| objs := objs s ++ [cleaned_row_of fieldnames d];
                        files := files s |}).
  { unfold s2, s1, set_objs. cbn [objs files]. f_equal. unfold c.
    rewrite update_nth_app_r by lia. now rewrite Nat.sub_diag. }
  assert (Hc2 : nth_error (objs s2) c = Some (cleaned_row_of fieldnames d)).
  { rewrite Hs2. cbn [objs]. unfold c. rewrite nth_error_app2 by lia.
    now rewrite Nat.sub_diag. }
  rewrite (bind_ok _ _ _ _ _ (load_ok _ _ _ Hc2)).
  rewrite cleaned_row_cells. unfold writerow.
  destruct (encodable_line (row_cells str_of_ref fieldnames d));
    unfold modify, raise, set_files; rewrite Hs2; reflexivity.
Qed.

(** The loop of lines 1656-1665 stops at the first line that cannot be
    encoded. *)
Lemma write_rows_run filename fieldnames rows : forall dicts s t,
  Forall2 (fun r d => nth_error (objs s) r = Some d) rows dicts ->
  dict_lookup (files s) filename = Some t ->
  exists added,
    for_each rows (fun row =>
      bind (write_product_row str_of_ref filename fieldnames row)
           (fun _ => ret Next)) s
    = ((if forallb encodable_line
             (map (row_cells str_of_ref fieldnames) dicts)
        then Ok tt else Raise UnicodeEncodeError),
       {| objs := objs s ++ added;
          files := dict_set (files s) filename
                     {| header := header t;
                        body := body t
                                ++ written_lines
                                     (map (row_cells str_of_ref fieldnames)
                                          dicts) |} |}).
Proof.
  induction rows as [|r rows IH]; intros dicts s t Hall Ht;
    inversion Hall as [|? d ? dicts' Hr Hall']; subst.
  - exists []. simpl. unfold ret. f_equal.
    rewrite !app_nil_r. destruct t as [hd bd]. simpl.
    rewrite (dict_set_same _ _ _ Ht). now destruct s.
  - cbn [for_each map forallb written_lines].
    pose proof (write_product_row_run s filename fieldnames r d Hr) as Hrun.
    rewrite (dict_get_lookup _ _ _ _ Ht) in Hrun.
    destruct (encodable_line (row_cells str_of_ref fieldnames d)).
    + match type of Hrun with _ = (_, ?s') => set (s1 := s') in * end.
      rewrite (bind_ok _ _ _ Next s1)
        by (now rewrite (bind_ok _ _ _ _ _ Hrun)).
      destruct (IH dicts' s1
                  {| header := header t;
                     body := body t ++ [row_cells str_of_ref fieldnames d] |})
        as [added Hrest].
      * eapply Forall2_impl; [|exact Hall']. intros a b Hab. cbv beta in *.
        simpl. rewrite nth_error_app1; auto. apply nth_error_Some. congruence.
      * simpl. apply dict_lookup_set_same.
      * exists (cleaned_row_of fieldnames d :: added).
        rewrite Hrest. cbn [andb]. simpl. rewrite dict_set_twice.
        rewrite <- !app_assoc. reflexivity.
    + exists [cleaned_row_of fieldnames d].
      rewrite (bind_fails _ _ _ _ _ (bind_fails _ _ _ _ _ Hrun)).
      cbn [andb]. f_equal. f_equal. rewrite app_nil_r.
      destruct t as [hd bd]. cbn [header body].
      now rewrite (dict_set_same _ _ _ Ht).
Qed.

End Runs.

(** ** The header *)

Section Header.

Variable str_of_ref : loc -> str.
Variable set_iter : pyset -> list str.
Variable can_open : str -> bool.
Variable now : str.

(** Iterating a set yields its elements, in some order. *)
Hypothesis set_iter_perm : forall s, Permutation (set_iter s) s.

#[local] Notation "'clean'" := (clean_text_for_csv str_of_ref).
#[local] Notation "'add'" := (add_spec str_of_ref).
#[local] Notation "'save'" := (save_to_csv str_of_ref set_iter can_open now).

Lemma row_literal_keys d :
  dict_keys (row_literal str_of_ref d) = standard_fields.
Proof. reflexivity. Qed.

Lemma add_spec_keys row key value k :
  In k (dict_keys (add row (key, value))) <->
  In k (dict_keys row) \/ (k = clean (VStr key) /\ k <> []).
Proof.
  unfold add_spec.
  destruct (str_eqb (clean (VStr key)) []) eqn:Ek.
  - apply str_eqb_eq in Ek. split; auto.
    intros [H|[H1 H2]]; auto. congruence.
  - apply str_eqb_neq in Ek.
    destruct (dict_mem (clean (VStr key)) row) eqn:Em; cbn [negb].
    + rewrite dict_keys_set_old by exact Em.
      apply dict_mem_keys in Em. split; auto.
      intros [H|[-> _]]; auto.
    + rewrite dict_keys_set_new by exact Em. rewrite in_app_iff.
      cbn [In]. split.
      * intros [H|[H|[]]]; auto. right. split; congruence.
      * intros [H|[H _]]; auto.
Qed.

Lemma row_keys items : forall row k,
  In k (dict_keys (fold_left add items row)) <->
  In k (dict_keys row) \/
  exists raw v, In (raw, v) items /\ k = clean (VStr raw) /\ k <> [].
Proof.
  induction items as [|[key value] items IH]; intros row k;
    cbn [fold_left In].
  - split; auto. intros [H|[raw [v [[] _]]]]; auto.
  - rewrite IH, add_spec_keys. split.
    + intros [[H|[H1 H2]]|[raw [v [Hin H]]]]; auto.
      * right. exists key, value. auto.
      * right. exists raw, v. auto.
    + intros [H|[raw [v [[Heq|Hin] [H1 H2]]]]]; auto.
      * inversion Heq; subst. auto.
      * right. exists raw, v. auto.
Qed.

Lemma all_keys_members ds : forall acc k,
  In k (fold_left (fun a (d : dict pyval) => set_update a (dict_keys d))
                  ds acc) <->
  In k acc \/ exists d : dict pyval, In d ds /\ In k (dict_keys d).
Proof.
  induction ds as [|d ds IH]; intros acc k; simpl.
  - split; auto. intros [H|[d [[] _]]]; auto.
  - rewrite IH, set_update_in. split.
    + intros [[H|H]|[d' [Hin H]]]; auto.
      * right. exists d. auto.
      * right. exists d'. auto.
    + intros [H|[d' [[Heq|Hin] H]]]; auto.
      * subst. auto.
      * right. exists d'. auto.
Qed.

Lemma all_keys_nodup ds : forall acc,
  NoDup acc ->
  NoDup (fold_left (fun a (d : dict pyval) => set_update a (dict_keys d))
                   ds acc).
Proof.
  induction ds as [|d ds IH]; intros acc Hacc; simpl; auto.
  apply IH. now apply set_update_nodup.
Qed.

Lemma all_keys_of_members h ps k :
  Forall (closed_product h) ps ->
  (In k (all_keys_of str_of_ref h ps) <->
   (ps <> [] /\ In k standard_fields) \/ spec_key_of str_of_ref h ps k).
Proof.
  intros Hcl. unfold all_keys_of. rewrite all_keys_members.
  rewrite Forall_forall in Hcl. split.
  - intros [[]|[row [Hrow Hk]]].
    unfold rows_of in Hrow. apply in_map_iff in Hrow.
    destruct Hrow as [p [Hp Hin]].
    destruct (Hcl p Hin) as [d [Hd _]]. rewrite Hd in Hp. subst row.
    unfold row_of in Hk. apply row_keys in Hk.
    destruct Hk as [Hk|[raw [v [Hitem [H1 H2]]]]].
    + left. split; [destruct ps; [destruct Hin | discriminate]|].
      now rewrite row_literal_keys in Hk.
    + right. exists p, d, raw, v. auto.
  - intros [[Hne Hk]|[p [d [raw [v [Hin [Hd [Hitem [H1 H2]]]]]]]]]; right.
    + destruct ps as [|p ps]; [congruence|].
      destruct (Hcl p (or_introl eq_refl)) as [d [Hd _]].
      exists (row_of str_of_ref h d). split.
      * unfold rows_of. apply in_map_iff. exists p. rewrite Hd.
        split; auto. now left.
      * unfold row_of. apply row_keys. left.
        now rewrite row_literal_keys.
    + exists (row_of str_of_ref h d). split.
      * unfold rows_of. apply in_map_iff. exists p. now rewrite Hd.
      * unfold row_of. apply row_keys. right. exists raw, v. auto.
Qed.

Lemma filter_all {X} (f : X -> bool) l :
  (forall x, In x l -> f x = true) -> filter f l = l.
Proof.
  induction l as [|x l IH]; intros H; simpl; auto.
  rewrite (H x (or_introl eq_refl)), IH; auto.
  intros y Hy. apply H. now right.
Qed.

Lemma fieldnames_of_spec all_keys :
  NoDup all_keys ->
  (forall k, In k standard_fields -> In k all_keys) ->
  exists spec_keys,
    fieldnames_of set_iter all_keys = standard_fields ++ spec_keys
    /\ StronglySorted str_lt spec_keys
    /\ forall k, In k spec_keys <->
                 In k all_keys /\ ~ In k standard_fields.
Proof.
  intros Hnd Hstd.
  exists (sorted (filter (fun k => negb (existsb (str_eqb k) standard_fields))
                         (set_iter all_keys))).
  split; [|split].
  - unfold fieldnames_of. f_equal. apply filter_all.
    intros k Hk. apply set_mem_in. auto.
  - apply sorted_strict; [|apply sorted_sorted].
    eapply Permutation_NoDup; [symmetry; apply sorted_perm|].
    apply NoDup_filter.
    eapply Permutation_NoDup; [symmetry; apply set_iter_perm | exact Hnd].
  - intros k. split.
    + intros Hk. apply (Permutation_in _ (sorted_perm _)) in Hk.
      apply filter_In in Hk. destruct Hk as [Hk Hn]. split.
      * eapply Permutation_in; [apply set_iter_perm | exact Hk].
      * intros Hin. apply set_mem_in in Hin. unfold set_mem in Hin.
        rewrite Hin in Hn. discriminate.
    + intros [Hk Hn].
      apply (Permutation_in _ (Permutation_sym (sorted_perm _))).
      apply filter_In. split.
      * eapply Permutation_in; [symmetry; apply set_iter_perm | exact Hk].
      * destruct (existsb (str_eqb k) standard_fields) eqn:E; auto.
        exfalso. apply Hn. now apply set_mem_in.
Qed.

Lemma strictly_sorted_nodup l : StronglySorted str_lt l -> NoDup l.
Proof.
  induction l as [|x l IH]; intros H; [constructor|].
  inversion H as [|? ? Hl Hx]; subst. constructor; auto.
  intros Hin. rewrite Forall_forall in Hx. specialize (Hx x Hin).
  unfold str_lt in Hx. now rewrite str_ltb_irrefl in Hx.
Qed.

Lemma strictly_sorted_le l : StronglySorted str_lt l -> StronglySorted str_le l.
Proof.
  induction l as [|x l IH]; intros H; [constructor|].
  inversion H as [|? ? Hl Hx]; subst. constructor; auto.
  eapply Forall_impl; [|exact Hx]. intros y Hy. now apply str_ltb_asym.
Qed.

Lemma strictly_sorted_ext l1 l2 :
  StronglySorted str_lt l1 -> StronglySorted str_lt l2 ->
  (forall k, In k l1 <-> In k l2) -> l1 = l2.
Proof.
  intros H1 H2 Hext.
  apply sorted_unique; try now apply strictly_sorted_le.
  apply NoDup_Permutation; auto using strictly_sorted_nodup.
Qed.

Lemma filename_of_permutation h ps ps' filename :
  Permutation ps ps' ->
  filename_of str_of_ref now h ps' filename
  = filename_of str_of_ref now h ps filename.
Proof.
  intros Hp. unfold filename_of.
  destruct filename as [[|c f]|]; auto;
    (destruct ps as [|p [|q ps]];
     [ apply Permutation_nil in Hp; now subst
     | apply Permutation_length_1_inv in Hp; now subst
     | pose proof (Permutation_length Hp) as Hlen;
       destruct ps' as [|p' [|q' ps']]; simpl in Hlen; try lia;
       reflexivity ]).
Qed.

Lemma encodable_standard_fields : encodable_line standard_fields = true.
Proof. reflexivity. Qed.

Lemma written_lines_all lines :
  forallb encodable_line lines = true -> written_lines lines = lines.
Proof.
  induction lines as [|line lines IH]; [reflexivity|].
  cbn [forallb written_lines]. intros H.
  apply andb_true_iff in H. destruct H as [-> H]. now rewrite IH.
Qed.

(** The run of [save_to_csv] on closed records: the value returned and the
    file it leaves. *)
Lemma save_to_csv_run h fs ps filename :
  ps <> [] ->
  Forall (closed_product h) ps ->
  can_open (filename_of str_of_ref now h ps filename) = true ->
  let f := filename_of str_of_ref now h ps filename in
  let fieldnames := fieldnames_of set_iter (all_keys_of str_of_ref h ps) in
  let lines := map (row_cells str_of_ref fieldnames)
                   (rows_of str_of_ref h ps) in
  let out := save (ProductList ps) filename {| objs := h; files := fs |} in
  fst out = Ok (if all_written fieldnames lines then Some f else None)
  /\ files (snd out) = dict_set fs f (table_written fieldnames lines).
Proof.
  intros Hne Hcl Hopen f fns lines.
  set (s0 := {| objs := h; files := fs |}).
  assert (Hbody : exists sF,
    bind (choose_filename str_of_ref now ps filename) (fun filename =>
      bind (flatten_products str_of_ref ps []) (fun rows =>
        bind (collect_keys rows []) (fun all_keys =>
          bind (open_w can_open filename) (fun _ =>
            bind (writeheader filename (fieldnames_of set_iter all_keys))
              (fun _ =>
                bind (for_each rows (fun row =>
                        bind (write_product_row str_of_ref filename
                                (fieldnames_of set_iter all_keys) row)
                             (fun _ => ret Next)))
                     (fun _ => ret (Some filename))))))) s0
    = ((if all_written fns lines then Ok (Some f)
        else Raise UnicodeEncodeError), sF)
    /\ files sF = dict_set fs f (table_written fns lines)).
  { rewrite (bind_ok _ _ _ _ _
               (choose_filename_ok str_of_ref now s0 ps filename Hcl)).
    change (filename_of str_of_ref now (objs s0) ps filename) with f.
    destruct (flatten_products_ok str_of_ref h ps [] s0 [] Hcl)
      as [rows [added [Hrun Hall]]].
    { simpl. now rewrite app_nil_r. }
    rewrite (bind_ok _ _ _ _ _ Hrun). cbn [app].
    set (s1 := set_objs (objs s0 ++ added) s0) in *.
    rewrite (bind_ok _ _ _ _ _
               (collect_keys_ok rows (rows_of str_of_ref h ps) [] s1 Hall)).
    fold (all_keys_of str_of_ref h ps). fold fns.
    set (s2 := set_files (dict_set (files s1) f
                            {| header := []; body := [] |}) s1).
    assert (Hopen_run : open_w can_open f s1 = (Ok tt, s2)).
    { unfold open_w. fold f in Hopen. now rewrite Hopen. }
    rewrite (bind_ok _ _ _ _ _ Hopen_run).
    unfold all_written, table_written.
    destruct (encodable_line fns) eqn:Ehdr; cbn [andb].
    - set (s3 := set_files (dict_set fs f {| header := fns; body := [] |}) s2).
      assert (Hhdr_run : writeheader f fns s2 = (Ok tt, s3)).
      { unfold writeheader. rewrite Ehdr.
        unfold modify, s3, s2. cbn [files set_files objs s1 s0].
        unfold dict_get. rewrite dict_lookup_set_same. cbn [body].
        now rewrite dict_set_twice. }
      rewrite (bind_ok _ _ _ _ _ Hhdr_run).
      destruct (write_rows_run str_of_ref f fns rows
                  (rows_of str_of_ref h ps) s3
                  {| header := fns; body := [] |}) as [added' Hrows].
      { exact Hall. }
      { apply dict_lookup_set_same. }
      fold lines in Hrows.
      destruct (forallb encodable_line lines).
      + rewrite (bind_ok _ _ _ _ _ Hrows).
        eexists. split; [reflexivity|].
        cbn [files set_files s3 header body app]. apply dict_set_twice.
      + rewrite (bind_fails _ _ _ _ _ Hrows).
        eexists. split; [reflexivity|].
        cbn [files set_files s3 header body app]. apply dict_set_twice.
    - assert (Hhdr_run : writeheader f fns s2 = (Raise UnicodeEncodeError, s2)).
      { unfold writeheader. now rewrite Ehdr. }
      rewrite (bind_fails _ _ _ _ _ Hhdr_run).
      eexists. split; reflexivity. }
  destruct Hbody as [sF [Hrun Hfiles]].
  destruct ps as [|p ps0]; [congruence|].
  unfold save_to_csv, try_except. cbv zeta. fold s0. rewrite Hrun.
  destruct (all_written fns lines); (split; [reflexivity | exact Hfiles]).
Qed.

(** C5.  For closed records and a file that opens, the header that
    [save_to_csv] writes is the standard columns in their fixed order (each
    row has all of them) followed by the strictly increasing list of the
    normalized, non-empty specification keys of all records that are not
    standard columns; every permutation of the records gives the same
    header, whatever the order in which the set of keys is iterated.  The
    header is written when its names can be encoded, also when a later line
    fails; when a name holds a lone surrogate the file is left empty.  The
    file name is returned when the header and every line are written. *)
Theorem save_to_csv_header h fs ps filename :
  ps <> [] ->
  Forall (closed_product h) ps ->
  can_open (filename_of str_of_ref now h ps filename) = true ->
  exists spec_keys,
    StronglySorted str_lt spec_keys
    /\ (forall k, In k spec_keys <->
          spec_key_of str_of_ref h ps k /\ ~ In k standard_fields)
    /\ forall ps', Permutation ps ps' ->
         let f := filename_of str_of_ref now h ps filename in
         let out :=
           save (ProductList ps') filename {| objs := h; files := fs |} in
         let lines := map (row_cells str_of_ref (standard_fields ++ spec_keys))
                          (rows_of str_of_ref h ps') in
         header_of (snd out) f
         = Some (if encodable_line spec_keys
                 then standard_fields ++ spec_keys else [])
         /\ fst out
            = Ok (if encodable_line spec_keys && forallb encodable_line lines
                  then Some f else None).
Proof.
  intros Hne Hcl Hopen.
  assert (Hkeys : forall qs, qs <> [] -> Forall (closed_product h) qs ->
    exists spec_keys,
      fieldnames_of set_iter (all_keys_of str_of_ref h qs)
      = standard_fields ++ spec_keys
      /\ StronglySorted str_lt spec_keys
      /\ forall k, In k spec_keys <->
           spec_key_of str_of_ref h qs k /\ ~ In k standard_fields).
  { intros qs Hqne Hqcl.
    destruct (fieldnames_of_spec (all_keys_of str_of_ref h qs))
      as [sk [Hf [Hs Hm]]].
    - apply all_keys_nodup. constructor.
    - intros k Hk. apply all_keys_of_members; auto.
    - exists sk. split; [exact Hf|]. split; [exact Hs|].
      intros k. rewrite Hm, all_keys_of_members by exact Hqcl. tauto. }
  destruct (Hkeys ps Hne Hcl) as [sk [Hf [Hs Hm]]].
  exists sk. split; [exact Hs|]. split; [exact Hm|].
  intros ps' Hp.
  assert (Hne' : ps' <> []).
  { intros ->. apply Permutation_sym, Permutation_nil in Hp. congruence. }
  assert (Hcl' : Forall (closed_product h) ps')
    by (eapply Permutation_Forall; eauto).
  pose proof (filename_of_permutation h ps ps' filename Hp) as Hname.
  destruct (Hkeys ps' Hne' Hcl') as [sk' [Hf' [Hs' Hm']]].
  assert (sk' = sk).
  { apply strictly_sorted_ext; auto. intros k. rewrite Hm, Hm'.
    unfold spec_key_of. split; intros [[p [d [raw [v [Hin H]]]]] Hn];
      (split; [|exact Hn]); exists p, d, raw, v; (split; [|exact H]).
    - eapply Permutation_in; [symmetry; exact Hp | exact Hin].
    - eapply Permutation_in; [exact Hp | exact Hin]. }
  subst sk'. rewrite <- Hname in Hopen |- *.
  destruct (save_to_csv_run h fs ps' filename Hne' Hcl' Hopen)
    as [Hout Hfiles].
  rewrite Hf' in Hout, Hfiles.
  cbv zeta. unfold header_of. rewrite Hout, Hfiles, dict_lookup_set_same.
  unfold all_written, table_written, encodable_line.
  rewrite forallb_app.
  change (forallb encodable standard_fields) with true. cbn [andb].
  split; [|reflexivity].
  now destruct (forallb encodable sk).
Qed.

End Header.

(** ** The theorems at concrete stores *)

Section Witnesses.
Import CsvFixtures.

Lemma add_spec_joins_witness :
  clean_text_for_csv no_repr (VStr (py "Price ")) <> []
  /\ dict_mem (clean_text_for_csv no_repr (VStr (py "Price ")))
              (row_literal no_repr (nth 0 two_records_heap [])) = true
  /\ dict_lookup
       (add_spec no_repr (row_literal no_repr (nth 0 two_records_heap []))
                 (py "Price ", VStr (py "12")))
       (py "Price")
     = Some (VStr (py "10; 12")).
Proof.
  split; [discriminate|]. split; [reflexivity|].
  exact (proj1 (add_spec_joins no_repr
                  (row_literal no_repr (nth 0 two_records_heap []))
                  (py "Price ") (VStr (py "12"))
                  ltac:(discriminate) eq_refl)).
Defined.

Lemma two_records_closed :
  Forall (closed_product two_records_heap) [VRef 0; VRef 2].
Proof.
  repeat constructor.
  - eexists. split; [reflexivity|]. intros k l H. simpl in H.
    repeat match type of H with
           | (if ?c then _ else _) = _ => destruct c
           end; inversion H; subst; simpl; lia.
  - eexists. split; [reflexivity|]. intros k l H. simpl in H.
    repeat match type of H with
           | (if ?c then _ else _) = _ => destruct c
           end; inversion H; subst; simpl; lia.
Defined.

Lemma save_to_csv_header_witness :
  (forall s, Permutation (iter_in_order s) s)
  /\ [VRef 0; VRef 2] <> []
  /\ Forall (closed_product two_records_heap) [VRef 0; VRef 2]
  /\ always_open
       (filename_of no_repr clock two_records_heap [VRef 0; VRef 2]
                    (Some (py "out.csv"))) = true
  /\ exists spec_keys,
       StronglySorted str_lt spec_keys
       /\ (forall k, In k spec_keys <->
             spec_key_of no_repr two_records_heap [VRef 0; VRef 2] k
             /\ ~ In k standard_fields)
       /\ forall ps', Permutation [VRef 0; VRef 2] ps' ->
            let out :=
              save_to_csv no_repr iter_in_order always_open clock
                (ProductList ps') (Some (py "out.csv"))
                {| objs := two_records_heap; files := [] |} in
            let lines :=
              map (row_cells no_repr (standard_fields ++ spec_keys))
                  (rows_of no_repr two_records_heap ps') in
            header_of (snd out) (py "out.csv")
            = Some (if encodable_line spec_keys
                    then standard_fields ++ spec_keys else [])
            /\ fst out
               = Ok (if encodable_line spec_keys
                        && forallb encodable_line lines
                     then Some (py "out.csv") else None).
Proof.
  split; [intros s; apply Permutation_refl|].
  split; [discriminate|].
  split; [exact two_records_closed|].
  split; [reflexivity|].
  exact (save_to_csv_header no_repr iter_in_order always_open clock
           (fun s => Permutation_refl s) two_records_heap []
           [VRef 0; VRef 2] (Some (py "out.csv"))
           ltac:(discriminate) two_records_closed eq_refl).
Defined.

(** A key with a lone surrogate: the file is opened and left empty, and
    [None] is returned. *)
Example save_to_csv_surrogate_key :
  let s := {| objs := surrogate_key_heap; files := [] |} in
  let out := save (ProductList [VRef 0]) (Some (py "out.csv")) s in
  fst out = Ok None
  /\ dict_lookup (files (snd out)) (py "out.csv")
     = Some {| header := []; body := [] |}.
Proof. vm_compute. split; reflexivity. Qed.

(** A value with a lone surrogate in the second record: the header and the
    first line are in the file, and [None] is returned. *)
Example save_to_csv_surrogate_value :
  let s := {| objs := surrogate_value_heap; files := [] |} in
  let out := save (ProductList [VRef 0; VRef 1]) (Some (py "out.csv")) s in
  fst out = Ok None
  /\ dict_lookup (files (snd out)) (py "out.csv")
     = Some {| header := standard_fields;
               body := [ [py "P1"; []; []; []; []; []; []; []] ] |}.
Proof. vm_compute. split; reflexivity. Qed.

End Witnesses.

End CsvFacts.

(* ===================================================================== *)
(** * Facts about [extract_product_data] *)
(* ===================================================================== *)

Module ExtractFacts.
Import PyStr PyStrFacts Monad MonadFacts Extract RecordNotions.
Import Csv(dict, dict_lookup, dict_mem, dict_get, dict_set, dict_keys).
Import CsvFacts(dict_keys_set_old, dict_keys_set_new).
Local Open Scope py_scope.

Ltac head_of t :=
  lazymatch t with
  | ?f _ => head_of f
  | _ => t
  end.

Section Rules.

Variable D : WebDriver.
Variable P : dict str -> Prop.

#[local] Notation "'I'" := (on_specs D P).

Lemma call_result {A} (f : world D -> result A * world D) :
  hoare I (call D f) (fun a s => (exists w, fst (f w) = Ok a) /\ I s) I.
Proof.
  intros s Hs. unfold call.
  destruct (f (browser s)) as [[a|e] w] eqn:E; simpl; auto.
  split; auto. exists (browser s). now rewrite E.
Qed.

Lemma call_keeps {A} (f : world D -> result A * world D) :
  preserves I (call D f).
Proof.
  eapply hoare_conseq; [apply call_result | auto ..].
  intros a s [_ H]; exact H.
Qed.

Lemma find_elements_result ctx xp :
  hoare I (find_elements D ctx xp)
        (fun found s =>
           (exists w, fst (find_elements_by_xpath D ctx xp w) = Ok found)
           /\ I s) I.
Proof. apply call_result. Qed.

Lemma find_element_keeps ctx xp : preserves I (find_element D ctx xp).
Proof.
  apply preserves_bind; [apply call_keeps|].
  intros [|e found]; [apply preserves_raise | apply preserves_ret].
Qed.

Lemma time_sleep_keeps : preserves I (time_sleep D).
Proof. intros s Hs. exact Hs. Qed.

Lemma update_keeps f :
  (forall p, specifications (f p) = specifications p) ->
  preserves I (update D f).
Proof.
  intros Hf s Hs. unfold on_specs in *. simpl. now rewrite Hf.
Qed.

Lemma set_spec_keeps key value :
  (forall d, P d -> P (dict_set d key value)) ->
  preserves I (set_spec D key value).
Proof. intros H s Hs. unfold on_specs in *. simpl. auto. Qed.

Lemma get_specs_result :
  hoare I (get_specs D) (fun d s => P d /\ I s) I.
Proof. intros s Hs. simpl. split; exact Hs. Qed.

Lemma get_specs_keeps : preserves I (get_specs D).
Proof. intros s Hs. exact Hs. Qed.

Lemma assign_spec_section_found_keeps b :
  preserves I (assign_spec_section_found D b).
Proof. intros s Hs. exact Hs. Qed.

Lemma read_spec_section_found_keeps :
  preserves I (read_spec_section_found D).
Proof.
  intros s Hs. unfold read_spec_section_found.
  destruct (spec_section_found (vars s)); exact Hs.
Qed.

Lemma break_if_specs_keeps : preserves I (break_if_specs D).
Proof.
  apply preserves_bind; [apply get_specs_keeps | intros; apply preserves_ret].
Qed.

Lemma unless_specs_keeps m :
  preserves I m -> preserves I (unless_specs D m).
Proof.
  intros Hm. apply preserves_bind; [apply get_specs_keeps|].
  intros specs. destruct (nonempty specs); [apply preserves_ret | exact Hm].
Qed.

End Rules.

(** One step of the proof that a statement keeps an invariant on the
    specifications.  [hook] goes first; [key_ok] is for the goal left at a
    [set_spec]. *)
Ltac keep_step key_ok hook :=
  first
  [ hook
  | lazymatch goal with
    | |- preserves _ _ => unfold preserves
    | |- hoare _ (bind _ _) _ _ => apply preserves_bind; [ | intros ]
    | |- hoare _ (try_except _ _) _ _ => apply preserves_try
    | |- hoare _ (for_each _ _) _ _ => apply preserves_for_each; intros
    | |- hoare _ (ret _) _ _ => apply preserves_ret
    | |- hoare _ (raise _) _ _ => apply preserves_raise
    | |- hoare _ (when _ _) _ _ => apply preserves_when
    | |- hoare _ (call _ _) _ _ => apply call_keeps
    | |- hoare _ (time_sleep _) _ _ => apply time_sleep_keeps
    | |- hoare _ (gets _) _ _ => apply preserves_gets
    | |- hoare _ (update _ _) _ _ =>
        apply update_keeps; intros; reflexivity
    | |- hoare _ (set_spec _ _ _) _ _ =>
        apply set_spec_keeps; solve [key_ok]
    | |- hoare _ (get_specs _) _ _ => apply get_specs_keeps
    | |- hoare _ (assign_spec_section_found _ _) _ _ =>
        apply assign_spec_section_found_keeps
    | |- hoare _ (read_spec_section_found _) _ _ =>
        apply read_spec_section_found_keeps
    | |- hoare _ (unless_specs _ _) _ _ => apply unless_specs_keeps
    | |- hoare _ (match ?x with _ => _ end) _ _ =>
        first [ is_var x; destruct x | destruct x eqn:? ]
    | |- hoare _ (let _ := _ in _) _ _ => cbv zeta
    | |- hoare _ ?m _ _ => let h := head_of m in progress unfold h
    end ].

Ltac keep_with key_ok hook := repeat (keep_step key_ok hook).

Section Scalars.

Variable D : WebDriver.
Variable P : dict str -> Prop.
Variable search_price search_currency : str -> option str.

Lemma extract_title_keeps : preserves (on_specs D P) (extract_title D).
Proof. keep_with fail fail. Qed.

Lemma extract_sku_keeps : preserves (on_specs D P) (extract_sku D).
Proof. keep_with fail fail. Qed.

Lemma extract_price_keeps :
  preserves (on_specs D P) (extract_price D search_price search_currency).
Proof. keep_with fail fail. Qed.

Lemma extract_description_keeps :
  preserves (on_specs D P) (extract_description D).
Proof. keep_with fail fail. Qed.

Lemma extract_availability_keeps :
  preserves (on_specs D P) (extract_availability D).
Proof. keep_with fail fail. Qed.

End Scalars.

(** ** The keys that the strategies store *)

Section Keys.

Variable lower : str -> str.

Lemma name_key_trimmed t : trimmed (name_key t).
Proof.
  unfold name_key. destruct (ends_with (py ":") (strip t));
    apply strip_trimmed.
Qed.

Lemma split_pair_trimmed sep s : trimmed (fst (split_pair sep s)).
Proof.
  unfold split_pair. destruct (split_max sep 1 s) as [|a [|b rest]];
    simpl; try apply strip_trimmed. reflexivity.
Qed.

Lemma split_pair_key sep s key value :
  split_pair sep s = (key, value) -> trimmed key.
Proof.
  intros H. change key with (fst (key, value)). rewrite <- H.
  apply split_pair_trimmed.
Qed.

Ltac parsed_key :=
  repeat match goal with
         | H : (if ?c then _ else _) = Some _ |- _ => destruct c
         | H : None = Some _ |- _ => discriminate H
         | H : (let (_, _) := ?p in _) = Some _ |- _ =>
             let E := fresh "E" in destruct p eqn:E
         | H : Some _ = Some _ |- _ => inversion H; subst; clear H
         end;
  eauto using split_pair_key.

Lemma section_line_trimmed line key value :
  section_line line = Some (key, value) -> trimmed key.
Proof. unfold section_line. intros H. parsed_key. Qed.

Lemma colon_line_trimmed accept line key value :
  colon_line accept line = Some (key, value) -> trimmed key.
Proof. unfold colon_line. intros H. parsed_key. Qed.

Lemma list_item_line_trimmed text key value :
  list_item_line text = Some (key, value) -> trimmed key.
Proof. unfold list_item_line. intros H. parsed_key. Qed.

Lemma free_text_line_trimmed line key value :
  free_text_line lower line = Some (key, value) -> trimmed key.
Proof. unfold free_text_line. intros H. parsed_key. Qed.

End Keys.

(** ** Invariants that speak of the browser too *)

Section PageRules.

Variable D : WebDriver.
Variable R : world D -> Prop.
Variable P : dict str -> Prop.

(** [R] holds after every command. *)
Hypothesis R_step : forall w w', R w -> step D w w' -> R w'.

#[local] Notation "'I'" := (on_page D R P).

Lemma call_page_result {A} (f : world D -> result A * world D) :
  (forall w, step D w (snd (f w))) ->
  hoare I (call D f)
        (fun a s => (exists w, R w /\ fst (f w) = Ok a) /\ I s) I.
Proof.
  intros Hf s [HR HP]. unfold call.
  pose proof (R_step _ _ HR (Hf (browser s))) as HR'.
  destruct (f (browser s)) as [[a|e] w] eqn:E; simpl in *.
  - split; [|split; assumption]. exists (browser s). now rewrite E.
  - split; assumption.
Qed.

Lemma call_page {A} (f : world D -> result A * world D) :
  (forall w, step D w (snd (f w))) -> preserves I (call D f).
Proof.
  intros Hf. eapply hoare_conseq; [now apply call_page_result | auto ..].
  intros a s [_ H]; exact H.
Qed.

(** After a call that has returned [a], the browser is in a state since
    that call. *)
Lemma call_since {A} (f : world D -> result A * world D) :
  (forall w, step D w (snd (f w))) ->
  hoare I (call D f) (fun a => on_page D (since D R f a) P) I.
Proof.
  intros Hf s [HR HP]. unfold call.
  pose proof (R_step _ _ HR (Hf (browser s))) as HR'.
  destruct (f (browser s)) as [[a|e] w] eqn:E; simpl in *.
  - split; [|exact HP]. split; [exact HR'|].
    exists (browser s). rewrite E. simpl.
    split; [exact HR|]. split; [reflexivity | constructor].
  - split; assumption.
Qed.

Lemma time_sleep_page : preserves I (time_sleep D).
Proof.
  intros s [HR HP]. split; [|exact HP].
  simpl. eapply R_step; [exact HR | constructor].
Qed.

Lemma update_page f :
  (forall p, specifications (f p) = specifications p) ->
  preserves I (update D f).
Proof.
  intros Hf s [HR HP]. split; [exact HR|]. simpl. now rewrite Hf.
Qed.

Lemma set_spec_page key value :
  (forall d, P d -> P (dict_set d key value)) ->
  preserves I (set_spec D key value).
Proof. intros H s [HR HP]. split; [exact HR|]. simpl. auto. Qed.

Lemma get_specs_page : preserves I (get_specs D).
Proof. intros s Hs. exact Hs. Qed.

Lemma assign_spec_section_found_page b :
  preserves I (assign_spec_section_found D b).
Proof. intros s Hs. exact Hs. Qed.

Lemma read_spec_section_found_page :
  preserves I (read_spec_section_found D).
Proof.
  intros s Hs. unfold read_spec_section_found.
  destruct (spec_section_found (vars s)); exact Hs.
Qed.

Lemma unless_specs_page m :
  preserves I m -> preserves I (unless_specs D m).
Proof.
  intros Hm. apply preserves_bind; [apply get_specs_page|].
  intros specs. destruct (nonempty specs); [apply preserves_ret | exact Hm].
Qed.

Lemma since_closed {A} (f : world D -> result A * world D) a w w' :
  since D R f a w -> step D w w' -> since D R f a w'.
Proof.
  intros [HR [w1 [H1 [Hf Hreach]]]] Hstep. split; [eauto|].
  exists w1. split; [exact H1|]. split; [exact Hf|].
  eapply reach_step; eauto.
Qed.

Lemma since_weaken {A} (f : world D -> result A * world D) a s :
  on_page D (since D R f a) P s -> I s.
Proof. intros [[HR _] HP]. split; assumption. Qed.

End PageRules.

(** [R] holds after every command, for the assertions on the browser that
    occur. *)
Ltac step_closed :=
  solve [ assumption
        | intros ? ? ? ?; eapply reach_step; eassumption
        | intros ? ? ? ?; eapply since_closed; [step_closed | eassumption ..] ].

(** The steps for an invariant [on_page]; [key_ok] is for the goal left at
    a [set_spec]. *)
Ltac page_hook key_ok :=
  idtac;
  lazymatch goal with
  | |- hoare _ (call _ _) _ _ =>
      apply call_page; [step_closed | intros; constructor]
  | |- hoare _ (time_sleep _) _ _ => apply time_sleep_page; step_closed
  | |- hoare _ (update _ _) _ _ => apply update_page; intros; reflexivity
  | |- hoare _ (set_spec _ _ _) _ _ => apply set_spec_page; solve [key_ok]
  | |- hoare _ (get_specs _) _ _ => apply get_specs_page
  | |- hoare _ (assign_spec_section_found _ _) _ _ =>
      apply assign_spec_section_found_page
  | |- hoare _ (read_spec_section_found _) _ _ =>
      apply read_spec_section_found_page
  | |- hoare _ (unless_specs _ _) _ _ => apply unless_specs_page
  | |- hoare _ (when ?c _) _ _ => unfold when; destruct c eqn:?
  end.

(** ** The entries that the strategies store *)

Lemma dict_set_in {V} (d : dict V) key value k v :
  In (k, v) (dict_set d key value) ->
  In (k, v) d \/ (k = key /\ v = value).
Proof.
  induction d as [|[k' v'] d IH]; simpl.
  - intros [H|[]]. inversion H. auto.
  - destruct (str_eqb k' key) eqn:E; simpl.
    + apply str_eqb_eq in E. subst k'.
      intros [H|H]; [inversion H; auto | auto].
    + intros [H|H]; [auto | destruct (IH H); auto].
Qed.

Lemma split_pair_value sep s key value :
  split_pair sep s = (key, value) -> trimmed value.
Proof.
  unfold split_pair. destruct (split_max sep 1 s) as [|a [|b rest]];
    intros H; inversion H; subst; try apply strip_trimmed; reflexivity.
Qed.

Lemma plain_of_nonempty k v :
  both_nonempty k v = true -> trimmed k -> trimmed v -> plain_entry k v.
Proof.
  unfold both_nonempty. intros H Hk Hv.
  apply andb_true_iff in H. destruct H as [H1 H2].
  repeat split; auto; intros ->; discriminate.
Qed.

Ltac parsed :=
  unfold section_table_accept, table_accept, any_table_accept,
    generic_accept in *;
  repeat match goal with
         | H : section_line _ = Some _ |- _ =>
             unfold section_line in H; cbv zeta in H
         | H : colon_line _ _ = Some _ |- _ => unfold colon_line in H
         | H : list_item_line _ = Some _ |- _ => unfold list_item_line in H
         | H : free_text_line _ _ = Some _ |- _ =>
             unfold free_text_line in H; cbv zeta in H
         | H : (if ?c then _ else _) = Some _ |- _ => destruct c eqn:?
         | H : None = Some _ |- _ => discriminate H
         | H : (let (_, _) := ?p in _) = Some _ |- _ => destruct p eqn:?
         | H : Some _ = Some _ |- _ => inversion H; subst; clear H
         | H : (_ && _)%bool = true |- _ =>
             apply andb_true_iff in H; destruct H
         end.

Ltac trim :=
  first [ apply strip_trimmed
        | apply name_key_trimmed
        | eapply split_pair_key; eassumption
        | eapply split_pair_value; eassumption ].

Section Entries.

Variable D : WebDriver.
Variable lower : str -> str.
Variable search_price search_currency : str -> option str.
Variable json_loads : str -> result json.
(** The state of the browser when [extract_product_data] is entered. *)
Variable w0 : world D.

#[local] Notation "'entries'" := (good_entries D lower json_loads w0).
#[local] Notation "'after_w0'" := (reachable (step D) w0).
#[local] Notation "'GE'" := (on_page D after_w0 entries).

Lemma good_entries_set key value :
  plain_entry key value \/ verbatim_entry D lower json_loads w0 key value ->
  forall d, entries d -> entries (dict_set d key value).
Proof.
  intros Hk d Hd k v Hin. apply dict_set_in in Hin.
  destruct Hin as [Hin|[-> ->]]; auto.
Qed.

Lemma good_entries_keys d : entries d -> good_keys D lower json_loads w0 d.
Proof.
  intros Hd k Hk. apply in_map_iff in Hk.
  destruct Hk as [[k' v] [<- Hin]]. cbn [fst].
  destruct (Hd k' v Hin) as [[_ [_ [Ht _]]]|Hv];
    [left; exact Ht | right; exists v; exact Hv].
Qed.

(** One script of those that the search of line 1327 has found. *)
Lemma scan_json_ld_entries scripts script :
  In script scripts ->
  preserves
    (on_page D
       (since D after_w0 (find_elements_by_xpath D None json_ld_xpath)
              scripts)
       entries)
    (scan_json_ld D json_loads script).
Proof.
  intros Hscript. unfold scan_json_ld, get_attribute.
  apply preserves_try; [|apply preserves_ret].
  eapply hoare_bind;
    [apply call_page_result; [step_closed | intros; constructor]|].
  intros [t|].
  - apply hoare_pure. intros [w2 [Hsince Hattr]].
    match goal with
    | |- hoare ?K _ _ _ =>
        eapply hoare_bind with
          (R := fun data s => json_loads t = Ok data /\ K s)
    end.
    { intros s Hs. destruct (json_loads t); simpl; auto. }
    intros data. apply hoare_pure. intros Hdata.
    apply preserves_bind; [|intros; apply preserves_ret].
    destruct (item_offered data) as [[| | | | |item]|] eqn:Eitem;
      try apply preserves_raise; try apply preserves_ret.
    apply preserves_for_each. intros [k value] Hkv. cbn [fst snd].
    apply preserves_bind; [|intros; apply preserves_ret].
    unfold when.
    destruct (negb (str_in k json_ld_stop)) eqn:Estop;
      [|apply preserves_ret].
    destruct (scalar_str value) as [shown|] eqn:Eshown;
      [|apply preserves_ret].
    apply set_spec_page, good_entries_set. right. left.
    destruct Hsince as [_ [w1 [Hw1 [Hfind Hreach]]]].
    apply negb_true_iff in Estop.
    exists w1, scripts, script, w2, t, data, item, value.
    repeat split; assumption.
  - eapply hoare_bind with (R := fun _ _ => False).
    + apply hoare_raise. intros s [_ Hs]. exact Hs.
    + intros data. apply hoare_false.
Qed.

Lemma method7_entries : preserves GE (method7 D json_loads).
Proof.
  unfold method7, find_elements. apply unless_specs_page.
  apply preserves_try; [|apply preserves_ret].
  eapply hoare_bind;
    [apply call_since; [step_closed | intros; constructor]|].
  intros scripts.
  eapply hoare_conseq with
    (P' := on_page D (since D after_w0
                        (find_elements_by_xpath D None json_ld_xpath) scripts)
                   entries)
    (Q' := fun _ => on_page D (since D after_w0
                        (find_elements_by_xpath D None json_ld_xpath) scripts)
                   entries)
    (E' := on_page D (since D after_w0
                        (find_elements_by_xpath D None json_ld_xpath) scripts)
                   entries).
  - apply preserves_for_each. intros script Hin.
    now apply scan_json_ld_entries.
  - auto.
  - intros _ s. apply since_weaken.
  - intros s. apply since_weaken.
Qed.

Lemma method10_entries : preserves GE (method10 D lower).
Proof.
  unfold method10, find_elements. apply unless_specs_page.
  apply preserves_try; [|apply preserves_ret].
  eapply hoare_bind;
    [apply call_since; [step_closed | intros; constructor]|].
  intros data_elements.
  eapply hoare_conseq with
    (P' := on_page D (since D after_w0
                        (find_elements_by_xpath D None data_elements_xpath)
                        data_elements) entries)
    (Q' := fun _ => on_page D (since D after_w0
                        (find_elements_by_xpath D None data_elements_xpath)
                        data_elements) entries)
    (E' := on_page D (since D after_w0
                        (find_elements_by_xpath D None data_elements_xpath)
                        data_elements) entries);
    [ | auto | intros _ s; apply since_weaken | intros s; apply since_weaken ].
  apply preserves_for_each. intros e He.
  apply preserves_try; [|apply preserves_ret].
  unfold run_script.
  eapply hoare_bind;
    [apply call_page_result; [step_closed | intros; constructor]|].
  intros attrs. apply hoare_pure. intros [w2 [Hsince Hattrs]].
  apply preserves_bind; [|intros; apply preserves_ret].
  apply preserves_for_each. intros [k v] Ha. cbn [fst snd].
  apply preserves_bind; [|intros; apply preserves_ret].
  unfold when. destruct (attr_accept lower k) eqn:Eacc;
    [|apply preserves_ret].
  apply set_spec_page, good_entries_set. right. right.
  destruct Hsince as [_ [w1 [Hw1 [Hfind Hreach]]]].
  exists w1, data_elements, e, w2, attrs.
  repeat split; assumption.
Qed.

Ltac entry_ok :=
  apply good_entries_set; left; parsed;
  (apply plain_of_nonempty; [assumption | trim | trim]).

Ltac entries_hook :=
  idtac;
  first
    [ lazymatch goal with
      | |- hoare _ (method7 _ _) _ _ => apply method7_entries
      | |- hoare _ (method10 _ _) _ _ => apply method10_entries
      end
    | page_hook entry_ok ].

Lemma extract_body_entries :
  preserves GE
    (extract_body D lower search_price search_currency json_loads).
Proof. keep_with fail entries_hook. Qed.

End Entries.

(** ** The run of the function *)

Section Runs.

Variable D : WebDriver.
Variable lower : str -> str.
Variable search_price search_currency : str -> option str.
Variable json_loads : str -> result json.

#[local] Notation "'extract_product_data''" :=
  (extract_product_data D lower search_price search_currency json_loads).

(** When the URL is read, the function returns, whatever the page: the
    outer [try] catches every exception.  When reading the URL raises, the
    exception leaves the function. *)
Lemma extract_runs (I : str -> state D -> Prop) w :
  (forall u w1, current_url D w = (Ok u, w1) ->
     preserves (I u)
       (extract_body D lower search_price search_currency json_loads)
     /\ I u (initial_state D u w1)) ->
  match current_url D w with
  | (Ok u, w1) =>
      exists pd w',
        extract_product_data' w = (Ok pd, w')
        /\ exists s', I u s' /\ data (vars s') = pd
  | (Raise e, w1) => extract_product_data' w = (Raise e, w1)
  end.
Proof.
  intros HI. unfold extract_product_data.
  destruct (current_url D w) as [[u|e] w1]; [|reflexivity].
  destruct (HI u w1 eq_refl) as [Hkeep Hinit].
  unfold extract_product_data_from, bind, try_except, gets, ret.
  specialize (Hkeep (initial_state D u w1) Hinit).
  destruct (extract_body D lower search_price search_currency json_loads
              (initial_state D u w1)) as [[x|e] s'];
    eexists; eexists; (split; [reflexivity|]); exists s'; auto.
Qed.

Lemma extract_raises w e w1 :
  current_url D w = (Raise e, w1) ->
  extract_product_data' w = (Raise e, w1).
Proof. unfold extract_product_data. now intros ->. Qed.

(** The entries of the record that is returned. *)
Lemma extract_entries w :
  match current_url D w with
  | (Ok u, w1) =>
      exists pd w',
        extract_product_data' w = (Ok pd, w')
        /\ good_entries D lower json_loads w (specifications pd)
  | (Raise e, w1) => extract_product_data' w = (Raise e, w1)
  end.
Proof.
  pose proof (extract_runs
                (fun _ => on_page D (reachable (step D) w)
                            (good_entries D lower json_loads w)) w) as H.
  destruct (current_url D w) as [[u|e] w1] eqn:E.
  - destruct H as [pd [w' [Hrun [s' [[_ Hs] Hpd]]]]].
    + intros u' w1' Heq. inversion Heq; subst u' w1'.
      split; [apply extract_body_entries|]. split.
      * replace w1 with (snd (current_url D w)) by (now rewrite E).
        eapply reach_step; constructor.
      * intros k v [].
    + exists pd, w'. split; [exact Hrun|]. now rewrite <- Hpd.
  - apply H. intros u w1' Heq. discriminate Heq.
Qed.


End Runs.

(** ** A page without a structure for any strategy *)

Ltac in_list :=
  solve [ assumption
        | apply in_or_app; left; in_list
        | apply in_or_app; right; in_list
        | left; reflexivity
        | right; in_list ].

Ltac in_xpaths := unfold strategy_xpaths; in_list.

Section Nothing.

Variable D : WebDriver.
Variable lower : str -> str.
Variable search_price search_currency : str -> option str.
Variable json_loads : str -> result json.

Hypothesis nothing : no_structure D.

#[local] Notation "'E0'" := (on_specs D (fun d => d = [])).

Lemma find_elements_none xp :
  In xp strategy_xpaths ->
  hoare E0 (find_elements D None xp) (fun found s => found = [] /\ E0 s) E0.
Proof.
  intros Hin s Hs. unfold find_elements, call.
  specialize (nothing xp (browser s) Hin).
  destruct (find_elements_by_xpath D None xp (browser s)) as [[found|e] w];
    simpl in *; auto.
Qed.

Lemma find_element_none xp :
  In xp strategy_xpaths ->
  hoare E0 (find_element D None xp) (fun _ _ => False) E0.
Proof.
  intros Hin. unfold find_element.
  eapply hoare_bind; [now apply find_elements_none|].
  intros found. apply hoare_pure. intros ->. apply hoare_raise. auto.
Qed.

Ltac nothing_hook :=
  idtac;
  lazymatch goal with
  | |- hoare _ (bind (find_element _ None _) _) _ _ =>
      eapply hoare_bind;
      [ apply find_element_none; solve [in_xpaths]
      | intros; apply hoare_false ]
  | |- hoare _ (bind (find_elements _ None _) _) _ _ =>
      eapply hoare_bind;
      [ apply find_elements_none; solve [in_xpaths]
      | intros ?found; apply hoare_pure; intros ->; cbn [for_each] ]
  end.

Lemma extract_specifications_nothing :
  preserves E0 (extract_specifications D lower json_loads).
Proof. keep_with fail nothing_hook. Qed.

Lemma extract_body_nothing :
  preserves E0
    (extract_body D lower search_price search_currency json_loads).
Proof.
  unfold extract_body.
  apply preserves_bind; [apply extract_title_keeps | intros _].
  apply preserves_bind; [apply extract_sku_keeps | intros _].
  apply preserves_bind; [apply extract_price_keeps | intros _].
  apply preserves_bind; [apply extract_description_keeps | intros _].
  apply preserves_bind; [apply extract_specifications_nothing | intros _].
  apply extract_availability_keeps.
Qed.

End Nothing.

(** X27.  On a page where no strategy finds a structure,
    [extract_product_data] returns a record without specifications when
    the current URL is read, whatever else the browser raises; when reading
    the URL raises, that exception leaves the function. *)
Theorem extract_without_structure D lower search_price search_currency
        json_loads w :
  no_structure D ->
  match current_url D w with
  | (Ok u, w1) =>
      exists pd w',
        extract_product_data D lower search_price search_currency
          json_loads w = (Ok pd, w')
        /\ specifications pd = []
  | (Raise e, w1) =>
      extract_product_data D lower search_price search_currency
        json_loads w = (Raise e, w1)
  end.
Proof.
  intros nothing.
  pose proof (extract_runs D lower search_price search_currency json_loads
                (fun _ => on_specs D (fun d => d = [])) w) as H.
  destruct (current_url D w) as [[u|e] w1].
  - destruct H as [pd [w' [Hrun [s' [Hs Hpd]]]]].
    + intros u' w1' _. split; [now apply extract_body_nothing | reflexivity].
    + exists pd, w'. split; [exact Hrun|]. now rewrite <- Hpd.
  - apply H. intros u w1' Heq. discriminate Heq.
Qed.

(** ** Runs on concrete pages *)

Section Pages.
Import ExtractFixtures.

Lemma title_page_no_structure : no_structure title_page.
Proof.
  intros xp w H. unfold strategy_xpaths in H. simpl in H.
  repeat (destruct H as [<-|H]; [reflexivity|]). contradiction.
Defined.

Lemma extract_without_structure_witness :
  no_structure title_page
  /\ exists pd w',
       extract_product_data title_page ascii_lower no_match no_match
         no_json tt = (Ok pd, w')
       /\ specifications pd = [].
Proof.
  split; [exact title_page_no_structure|].
  exact (extract_without_structure title_page ascii_lower no_match no_match
           no_json tt title_page_no_structure).
Defined.

(** C4 fails on the code.  On the page with an alert no strategy finds a
    structure, and [extract_product_data], entered while the alert is open,
    raises: the URL is read at line 790, before the [try] of line 793, and
    the exception of that command leaves the function.  The same exception
    of any later command is caught: had the URL been read, the [try]
    statement would have returned the record with the title. *)
Theorem extract_raises_on_alert :
  no_structure alert_page
  /\ extract alert_page true = (Raise WebDriverException, false)
  /\ (forall u,
        fst (extract_product_data_from alert_page ascii_lower no_match
               no_match no_json (initial_state alert_page u true))
        = Ok (with_product_name (Some (py "Widget"))
                (initial_product_data u))).
Proof.
  split.
  { intros xp [|] H; [exact I|]. unfold strategy_xpaths in H. simpl in H.
    repeat (destruct H as [<-|H]; [reflexivity|]). contradiction. }
  split; [reflexivity|].
  intros u. vm_compute. reflexivity.
Qed.

(** On the page with a title only, the title is read. *)
Example extract_title_page :
  option_map (fun pd => (product_name pd, specifications pd))
    (match fst (extract title_page tt) with
     | Ok pd => Some pd
     | Raise _ => None
     end)
  = Some (Some (py "Widget"), []).
Proof. vm_compute. reflexivity. Qed.

(** C1 fails on the code.  On the page with a specification list and a
    labeled section, strategy 1 alone yields [{Purity: 99%}], the scan of
    the labeled section alone yields [{Color: clear}], and
    [extract_product_data] returns both entries. *)
Theorem extract_merges_labeled_section :
  strategy_alone list_and_section_page (method0 list_and_section_page) tt
  = [(py "Purity", py "99%")]
  /\ strategy_alone list_and_section_page
       (labeled_section list_and_section_page ascii_lower) tt
     = [(py "Color", py "clear")]
  /\ exists pd,
       fst (extract list_and_section_page tt) = Ok pd
       /\ specifications pd
          = [(py "Purity", py "99%"); (py "Color", py "clear")].
Proof.
  split; [vm_compute; reflexivity|].
  split; [vm_compute; reflexivity|].
  eexists. split; vm_compute; reflexivity.
Qed.


(** A property name of embedded JSON-LD is stored as it is found, with
    the whitespace around it. *)
Example extract_json_ld_key_as_found :
  exists pd,
    fst (extract_product_data json_ld_page ascii_lower no_match no_match
           read_offer tt) = Ok pd
    /\ specifications pd = [(py " Material ", py "steel")]
    /\ strip (py " Material ") <> py " Material ".
Proof.
  eexists. split; [vm_compute; reflexivity|].
  split; [vm_compute; reflexivity | vm_compute; discriminate].
Qed.

(** The structured list strategy drops one colon only. *)
Example name_key_two_colons : name_key (py "Purity::") = py "Purity:".
Proof. vm_compute. reflexivity. Qed.

(** C7 fails on the code.  A line split on " - " is admitted although its
    key holds the stop term "price", whatever [str.lower] does; the same
    key before a colon is rejected; on the page with that line the record
    has the specification [{Price: 10 USD}]. *)
Theorem free_text_dash_line_skips_stoplist :
  (forall lower,
     free_text_line lower (py "Price - 10 USD")
     = Some (py "Price", py "10 USD"))
  /\ free_text_line ascii_lower (py "Price: 10 USD") = None
  /\ contains (py "price") (ascii_lower (py "Price")) = true
  /\ exists pd,
       fst (extract free_text_page tt) = Ok pd
       /\ specifications pd = [(py "Price", py "10 USD")].
Proof.
  split; [intros lower; vm_compute; reflexivity|].
  split; [vm_compute; reflexivity|].
  split; [vm_compute; reflexivity|].
  eexists. split; vm_compute; reflexivity.
Qed.

End Pages.

End ExtractFacts.

(* ===================================================================== *)
(** * More about [clean_text_for_csv] *)
(* ===================================================================== *)

Module CleanFacts.
Import PyStr PyStrFacts Shapes Csv CsvFacts.

Lemma visible_words s : List.concat (words s) = visible s.
Proof.
  unfold visible. induction s as [|c s IH]; simpl; auto.
  destruct (isspace c) eqn:E; simpl; auto.
  rewrite <- IH. unfold cons_word.
  destruct (at_word_end s); [reflexivity|].
  destruct (words s); reflexivity.
Qed.

Lemma visible_word w :
  Forall (fun c => isspace c = false) w -> visible w = w.
Proof.
  unfold visible. induction 1 as [|c w Hc _ IH]; simpl; auto.
  now rewrite Hc, IH.
Qed.

Lemma visible_app a b : visible (a ++ b) = visible a ++ visible b.
Proof. apply filter_app. Qed.

Lemma visible_join ws :
  Forall is_word ws -> visible (join [SP] ws) = List.concat ws.
Proof.
  induction ws as [|w ws IH]; intros H; [reflexivity|].
  inversion H as [|? ? [_ Hw] Hws]; subst.
  destruct ws as [|w2 ws].
  - simpl. rewrite app_nil_r. now apply visible_word.
  - change (join [SP] (w :: w2 :: ws)) with (w ++ SP :: join [SP] (w2 :: ws)).
    rewrite visible_app, (visible_word _ Hw).
    change (SP :: join [SP] (w2 :: ws)) with ([SP] ++ join [SP] (w2 :: ws)).
    rewrite visible_app, IH by exact Hws. reflexivity.
Qed.

Lemma visible_unwords s : visible (unwords_of s) = visible s.
Proof.
  unfold unwords_of. rewrite visible_join by apply words_are_words.
  apply visible_words.
Qed.

Lemma join_head_visible w ws :
  Forall is_word (w :: ws) ->
  exists c rest, join [SP] (w :: ws) = c :: rest /\ isspace c = false.
Proof.
  intros H. inversion H as [|? ? [Hne Hw] _]; subst.
  destruct w as [|c w]; [congruence|].
  inversion Hw; subst.
  destruct ws; simpl; eauto.
Qed.

Lemma no_double_space_word w rest :
  Forall (fun c => isspace c = false) w ->
  no_double_space rest = true ->
  no_double_space (w ++ rest) = true.
Proof.
  induction 1 as [|c w Hc _ IH]; intros Hrest; [exact Hrest|].
  change ((c :: w) ++ rest) with (c :: (w ++ rest)).
  specialize (IH Hrest).
  destruct (w ++ rest) as [|d l] eqn:E; [reflexivity|].
  cbn [no_double_space]. rewrite Hc. exact IH.
Qed.

Lemma join_shape ws :
  Forall is_word ws ->
  Forall space_is_sp (join [SP] ws)
  /\ no_double_space (join [SP] ws) = true.
Proof.
  induction ws as [|w ws IH]; intros H; [split; [constructor | reflexivity]|].
  inversion H as [|? ? [Hne Hw] Hws]; subst.
  assert (Hvis : Forall space_is_sp w).
  { eapply Forall_impl; [|exact Hw]. intros c Hc Hs. congruence. }
  destruct ws as [|w2 ws].
  - simpl. split; auto.
    rewrite <- (app_nil_r w). now apply no_double_space_word.
  - destruct (IH Hws) as [IH1 IH2].
    change (join [SP] (w :: w2 :: ws)) with (w ++ SP :: join [SP] (w2 :: ws)).
    split.
    + apply Forall_app. split; auto. constructor; auto. intros _; reflexivity.
    + apply no_double_space_word; auto.
      destruct (join_head_visible w2 ws Hws) as [c [rest [E Hc]]].
      rewrite E in *.
      change (no_double_space (SP :: c :: rest))
        with (negb (isspace SP && isspace c) && no_double_space (c :: rest)).
      rewrite Hc, andb_false_r. exact IH2.
Qed.

Section Clean.

Variable str_of_ref : loc -> str.

(** X1.  Cleaning keeps every code point that is not whitespace, in its
    order: only whitespace is removed or replaced. *)
Theorem clean_text_for_csv_keeps_visible s :
  visible (clean_text_for_csv str_of_ref (VStr s)) = visible s.
Proof. rewrite clean_str. apply visible_unwords. Qed.

(** X2.  In a cleaned text every whitespace code point is an ordinary
    space, no two of them are adjacent, and none is at either end; so the
    text holds no line break and no tab. *)
Theorem clean_text_for_csv_single_spaced v :
  Forall (fun c => isspace c = true -> c = SP)
         (clean_text_for_csv str_of_ref v)
  /\ no_double_space (clean_text_for_csv str_of_ref v) = true
  /\ trimmed (clean_text_for_csv str_of_ref v)
  /\ ~ In LF (clean_text_for_csv str_of_ref v)
  /\ ~ In CR (clean_text_for_csv str_of_ref v).
Proof.
  assert (H : Forall space_is_sp (clean_text_for_csv str_of_ref v)
              /\ no_double_space (clean_text_for_csv str_of_ref v) = true).
  { rewrite <- clean_normal. unfold unwords_of.
    apply join_shape, words_are_words. }
  destruct H as [H1 H2].
  split; [exact H1|]. split; [exact H2|]. split; [apply clean_trimmed|].
  rewrite Forall_forall in H1.
  split; intros Hin; specialize (H1 _ Hin eq_refl); discriminate H1.
Qed.

End Clean.

End CleanFacts.

(* ===================================================================== *)
(** * More about [save_to_csv] *)
(* ===================================================================== *)

Module TableFacts.
Import PyStr PyStrFacts Monad MonadFacts Csv CsvFacts Shapes TableNotions.
Import RowNotions BatchNotions.
Local Open Scope py_scope.

(** ** What the statements do to the files *)

Section Files.

Variable str_of_ref : loc -> str.
Variable set_iter : pyset -> list str.
Variable can_open : str -> bool.
Variable now : str.
Variable Q : dict export_table -> Prop.

#[local] Notation "'F'" := (on_files Q).

Lemma alloc_files d : preserves F (alloc d).
Proof. intros s Hs. exact Hs. Qed.

Lemma load_files l : preserves F (load l).
Proof.
  intros s Hs. unfold load. destruct (nth_error (objs s) l); exact Hs.
Qed.

Lemma store_at_files l d : preserves F (store_at l d).
Proof. intros s Hs. exact Hs. Qed.

Lemma py_get_files obj k default : preserves F (py_get obj k default).
Proof.
  destruct obj; try apply preserves_raise.
  apply preserves_bind; [apply load_files | intros; apply preserves_ret].
Qed.

Lemma truthy_files v : preserves F (truthy v).
Proof.
  destruct v; try apply preserves_ret.
  apply preserves_bind; [apply load_files | intros; apply preserves_ret].
Qed.

Lemma new_row_files product : preserves F (new_row str_of_ref product).
Proof.
  unfold new_row.
  repeat (apply preserves_bind; [apply py_get_files | intros ?]).
  apply alloc_files.
Qed.

Lemma flatten_product_files product :
  preserves F (flatten_product str_of_ref product).
Proof.
  unfold flatten_product.
  apply preserves_bind; [apply new_row_files | intros row].
  apply preserves_bind; [apply alloc_files | intros default].
  apply preserves_bind; [apply py_get_files | intros specs].
  apply preserves_bind; [|intros; apply preserves_ret].
  destruct specs; try apply preserves_ret.
  apply preserves_bind; [apply load_files | intros items].
  apply preserves_for_each. intros kv _.
  apply preserves_bind; [|intros; apply preserves_ret].
  apply preserves_bind; [apply load_files | intros; apply store_at_files].
Qed.

Lemma flatten_products_files products : forall rows,
  preserves F (flatten_products str_of_ref products rows).
Proof.
  induction products as [|p ps IH]; intros rows; simpl.
  - apply preserves_ret.
  - apply preserves_bind; [apply flatten_product_files | intros; apply IH].
Qed.

Lemma collect_keys_files rows : forall all_keys,
  preserves F (collect_keys rows all_keys).
Proof.
  induction rows as [|r rs IH]; intros all_keys; simpl.
  - apply preserves_ret.
  - apply preserves_bind; [apply load_files | intros; apply IH].
Qed.

Lemma choose_filename_files products filename :
  preserves F (choose_filename str_of_ref now products filename).
Proof.
  unfold choose_filename.
  destruct filename as [[|c f]|]; try apply preserves_ret;
    (destruct products as [|p [|q ps]]; try apply preserves_ret;
     apply preserves_bind; [apply py_get_files|]; intros code;
     apply preserves_bind; [apply truthy_files|]; intros [|];
     apply preserves_ret).
Qed.

(** A list with an element that is no dictionary cannot be flattened. *)
Lemma flatten_products_raises products : forall rows,
  existsb not_a_dict products = true ->
  hoare F (flatten_products str_of_ref products rows) (fun _ _ => False) F.
Proof.
  induction products as [|p ps IH]; intros rows Hex; [discriminate|].
  simpl in Hex. cbn [flatten_products].
  destruct (not_a_dict p) eqn:Hp.
  - eapply hoare_bind with (R := fun _ _ => False); [|intros; apply hoare_false].
    unfold flatten_product.
    eapply hoare_bind with (R := fun _ _ => False); [|intros; apply hoare_false].
    unfold new_row.
    eapply hoare_bind with (R := fun _ _ => False); [|intros; apply hoare_false].
    destruct p; try discriminate; apply hoare_raise; auto.
  - eapply hoare_bind; [apply flatten_product_files|].
    intros row. apply IH. exact Hex.
Qed.

End Files.

Section Rejects.

Variable str_of_ref : loc -> str.
Variable set_iter : pyset -> list str.
Variable can_open : str -> bool.
Variable now : str.

(** X3.  When an element of the list is no dictionary ([None], as
    [scrape_product] returns on failure, or a string), [save_to_csv]
    returns [None] and writes nothing: no file is created, emptied or
    changed, whatever the other records are. *)
Theorem save_to_csv_rejects_non_dict products filename s :
  existsb not_a_dict products = true ->
  fst (save_to_csv str_of_ref set_iter can_open now
         (ProductList products) filename s) = Ok None
  /\ files (snd (save_to_csv str_of_ref set_iter can_open now
                   (ProductList products) filename s)) = files s.
Proof.
  intros Hex. unfold save_to_csv.
  destruct products as [|p ps] eqn:Eps; [discriminate|]. rewrite <- Eps in *.
  clear Eps p ps.
  match goal with
  | |- context [try_except ?body _ s] =>
      assert (Hbody : hoare (on_files (fun fs => fs = files s)) body
                            (fun _ _ => False)
                            (on_files (fun fs => fs = files s)))
  end.
  { eapply hoare_bind.
    - apply (choose_filename_files str_of_ref now
                 (fun fs => fs = files s)).
    - intros f.
      eapply hoare_bind with (R := fun _ _ => False);
        [|intros; apply hoare_false].
      now apply (flatten_products_raises str_of_ref
                   (fun fs => fs = files s)). }
  specialize (Hbody s eq_refl). unfold try_except.
  match goal with
  | H : match ?m with _ => _ end |- _ => destruct m as [[r|e] s']
  end; [contradiction|].
  simpl. split; [reflexivity | exact Hbody].
Qed.

End Rejects.

Section RejectsWitness.
Import CsvFixtures.

Lemma save_to_csv_rejects_non_dict_witness :
  existsb not_a_dict [VRef 0; VNone] = true
  /\ fst (save_to_csv no_repr iter_in_order always_open clock
            (ProductList [VRef 0; VNone]) (Some (py "out.csv"))
            {| objs := two_records_heap; files := [] |}) = Ok None
  /\ files (snd (save_to_csv no_repr iter_in_order always_open clock
                   (ProductList [VRef 0; VNone]) (Some (py "out.csv"))
                   {| objs := two_records_heap; files := [] |})) = [].
Proof.
  split; [reflexivity|].
  exact (save_to_csv_rejects_non_dict no_repr iter_in_order always_open clock
           [VRef 0; VNone] (Some (py "out.csv"))
           {| objs := two_records_heap; files := [] |} eq_refl).
Defined.

End RejectsWitness.

(** ** A file that cannot be opened *)

Section CannotOpen.

Variable str_of_ref : loc -> str.
Variable set_iter : pyset -> list str.
Variable can_open : str -> bool.
Variable now : str.

(** X4.  When no file can be opened for writing, [save_to_csv] returns
    [None] for every argument, and the files are as they were. *)
Theorem save_to_csv_cannot_open product_data filename s :
  (forall f, can_open f = false) ->
  fst (save_to_csv str_of_ref set_iter can_open now
         product_data filename s) = Ok None
  /\ files (snd (save_to_csv str_of_ref set_iter can_open now
                   product_data filename s)) = files s.
Proof.
  intros Hclosed. unfold save_to_csv.
  destruct (match product_data with
            | OneProduct l => [VRef l]
            | ProductList ps => ps
            end) as [|p ps] eqn:Eps; [split; reflexivity|].
  rewrite <- Eps. clear Eps p ps.
  match goal with
  | |- context [try_except ?body _ s] =>
      assert (Hbody : hoare (on_files (fun fs => fs = files s)) body
                            (fun _ _ => False)
                            (on_files (fun fs => fs = files s)))
  end.
  { eapply hoare_bind;
      [apply (choose_filename_files str_of_ref now (fun fs => fs = files s))|].
    intros f.
    eapply hoare_bind;
      [apply (flatten_products_files str_of_ref (fun fs => fs = files s))|].
    intros rows.
    eapply hoare_bind;
      [apply (collect_keys_files (fun fs => fs = files s))|].
    intros all_keys.
    eapply hoare_bind with (R := fun _ _ => False);
      [|intros; apply hoare_false].
    unfold open_w. rewrite Hclosed. apply hoare_raise. auto. }
  specialize (Hbody s eq_refl). unfold try_except.
  match goal with
  | H : match ?m with _ => _ end |- _ => destruct m as [[r|e] s']
  end; [contradiction|].
  simpl. split; [reflexivity | exact Hbody].
Qed.

End CannotOpen.

Section CannotOpenWitness.
Import CsvFixtures.

Lemma save_to_csv_cannot_open_witness :
  (forall f : str, (fun _ : str => false) f = false)
  /\ fst (save_to_csv no_repr iter_in_order (fun _ => false) clock
            (ProductList [VRef 0; VRef 2]) None
            {| objs := two_records_heap; files := [] |}) = Ok None
  /\ files (snd (save_to_csv no_repr iter_in_order (fun _ => false) clock
                   (ProductList [VRef 0; VRef 2]) None
                   {| objs := two_records_heap; files := [] |})) = [].
Proof.
  split; [reflexivity|].
  exact (save_to_csv_cannot_open no_repr iter_in_order (fun _ => false) clock
           (ProductList [VRef 0; VRef 2]) None
           {| objs := two_records_heap; files := [] |} (fun _ => eq_refl)).
Defined.

End CannotOpenWitness.

(** ** The rows of the table *)

Section Table.

Variable str_of_ref : loc -> str.
Variable set_iter : pyset -> list str.
Variable can_open : str -> bool.
Variable now : str.

#[local] Notation "'clean'" := (clean_text_for_csv str_of_ref).
#[local] Notation "'add'" := (add_spec str_of_ref).

(** X5.  For closed records and a file that opens, [save_to_csv] replaces
    the content of the file, whatever the file held, and touches no other
    file.  When the header and every line can be encoded, the file holds
    one table and its name is returned: the header is the list of columns
    and the body has one line per record, in the order of the records; a
    cell is the text of the record's row in that column, empty where the
    row has no such column, so every line has as many cells as the header.
    When a name or a cell holds a lone surrogate, [None] is returned and the
    file holds the header and the lines before the first line that cannot
    be encoded, or nothing when the header cannot. *)
Theorem save_to_csv_table h fs ps filename :
  ps <> [] ->
  Forall (closed_product h) ps ->
  can_open (filename_of str_of_ref now h ps filename) = true ->
  let f := filename_of str_of_ref now h ps filename in
  let fieldnames := fieldnames_of set_iter (all_keys_of str_of_ref h ps) in
  let lines := map (row_cells str_of_ref fieldnames)
                   (rows_of str_of_ref h ps) in
  let out := save_to_csv str_of_ref set_iter can_open now
               (ProductList ps) filename {| objs := h; files := fs |} in
  fst out = Ok (if all_written fieldnames lines then Some f else None)
  /\ files (snd out) = dict_set fs f (table_written fieldnames lines)
  /\ (all_written fieldnames lines = true ->
      table_written fieldnames lines
      = {| header := fieldnames; body := lines |})
  /\ List.length lines = List.length ps
  /\ Forall (fun line => List.length line = List.length fieldnames) lines.
Proof.
  intros Hne Hcl Hopen f fns lines.
  destruct (save_to_csv_run str_of_ref set_iter can_open now h fs ps filename
              Hne Hcl Hopen) as [Hout Hfiles].
  split; [exact Hout|]. split; [exact Hfiles|]. split; [|split].
  - unfold all_written, table_written. intros Hall.
    apply andb_true_iff in Hall. destruct Hall as [-> Hall].
    now rewrite written_lines_all.
  - unfold lines, rows_of. now rewrite !length_map.
  - apply Forall_forall. intros line Hline. apply in_map_iff in Hline.
    destruct Hline as [d [<- _]]. unfold row_cells. apply length_map.
Qed.

(** Iterating a set yields its elements, in some order. *)
Hypothesis set_iter_perm : forall s, Permutation (set_iter s) s.

Lemma standard_fields_nodup : NoDup standard_fields.
Proof.
  unfold standard_fields.
  repeat (constructor;
          [cbn [In]; intros H;
           repeat (destruct H as [H|H]; [discriminate H|]); exact H|]).
  constructor.
Qed.

(** X6.  No column occurs twice in the header that [save_to_csv] writes,
    so no cell of a record is written under two columns. *)
Theorem save_to_csv_header_nodup h fs ps filename :
  ps <> [] ->
  Forall (closed_product h) ps ->
  can_open (filename_of str_of_ref now h ps filename) = true ->
  exists hdr,
    header_of (snd (save_to_csv str_of_ref set_iter can_open now
                      (ProductList ps) filename {| objs := h; files := fs |}))
              (filename_of str_of_ref now h ps filename) = Some hdr
    /\ NoDup hdr.
Proof.
  intros Hne Hcl Hopen.
  destruct (save_to_csv_run str_of_ref set_iter can_open now h fs ps filename
              Hne Hcl Hopen) as [_ Hfiles].
  unfold header_of. rewrite Hfiles, dict_lookup_set_same.
  eexists. split; [reflexivity|].
  unfold table_written.
  destruct (encodable_line
              (fieldnames_of set_iter (all_keys_of str_of_ref h ps)));
    [|constructor].
  cbn [header].
  destruct (fieldnames_of_spec set_iter set_iter_perm
              (all_keys_of str_of_ref h ps)) as [sk [Hf [Hs Hm]]].
  - apply all_keys_nodup. constructor.
  - intros k Hk. apply all_keys_of_members; auto.
  - rewrite Hf. apply NoDup_app.
    + apply standard_fields_nodup.
    + now apply strictly_sorted_nodup.
    + intros k Hk Hk'. apply Hm in Hk'. tauto.
Qed.

(** Specifications whose keys do not normalize to [k] leave the cell of
    the column [k] alone. *)
Lemma add_specs_other items k : forall row,
  (forall raw v, In (raw, v) items -> clean (VStr raw) <> k) ->
  dict_lookup (fold_left add items row) k = dict_lookup row k.
Proof.
  induction items as [|[raw v] items IH]; intros row Hk; [reflexivity|].
  cbn [fold_left]. rewrite IH by (intros r w Hin; apply (Hk r w); now right).
  assert (Hne : clean (VStr raw) <> k) by (apply (Hk raw v); now left).
  unfold add_spec.
  destruct (str_eqb (clean (VStr raw)) []); [reflexivity|].
  destruct (negb (dict_mem (clean (VStr raw)) row));
    apply dict_lookup_set_other; congruence.
Qed.

(** X7.  A column that no specification key of the record normalizes to
    holds what the row literal gave it: the normalized field of the record
    for the seven standard columns before [URL], the URL as it is, not
    normalized, for [URL]; and the row has no other column. *)
Theorem row_of_standard_cells h d k :
  (forall raw v, In (raw, v) (spec_items h d) -> clean (VStr raw) <> k) ->
  (forall field, In (k, field) cleaned_columns ->
     dict_lookup (row_of str_of_ref h d) k
     = Some (VStr (clean (dict_get d field (VStr [])))))
  /\ (k = py "URL" ->
      dict_lookup (row_of str_of_ref h d) k
      = Some (dict_get d (py "url") (VStr [])))
  /\ (~ In k standard_fields -> dict_lookup (row_of str_of_ref h d) k = None).
Proof.
  intros Hk. unfold row_of.
  rewrite (add_specs_other _ _ _ Hk).
  split; [|split].
  - intros field Hin. unfold cleaned_columns in Hin. cbn [In] in Hin.
    repeat (destruct Hin as [Hin|Hin];
            [inversion Hin; subst; reflexivity|]).
    destruct Hin.
  - intros ->. reflexivity.
  - intros Hnot.
    destruct (dict_lookup (row_literal str_of_ref d) k) as [v|] eqn:E;
      [|reflexivity].
    exfalso. apply Hnot. rewrite <- (row_literal_keys str_of_ref d).
    apply dict_mem_keys. unfold dict_mem. now rewrite E.
Qed.

(** X8.  A specification whose normalized key is not empty, is no standard
    column and is the normalized key of no other specification of the
    record has a column of its own, and the cell is its normalized value. *)
Theorem row_of_spec_cell h d before raw v after :
  spec_items h d = before ++ (raw, v) :: after ->
  clean (VStr raw) <> [] ->
  ~ In (clean (VStr raw)) standard_fields ->
  (forall raw' v', In (raw', v') (before ++ after) ->
     clean (VStr raw') <> clean (VStr raw)) ->
  dict_lookup (row_of str_of_ref h d) (clean (VStr raw))
  = Some (VStr (clean v)).
Proof.
  intros Hitems Hne Hstd Hother. unfold row_of. rewrite Hitems.
  rewrite fold_left_app. cbn [fold_left].
  rewrite add_specs_other
    by (intros r w Hin; apply (Hother r w), in_or_app; now right).
  assert (Hnew : dict_mem (clean (VStr raw))
                   (fold_left add before (row_literal str_of_ref d)) = false).
  { unfold dict_mem. rewrite add_specs_other
      by (intros r w Hin; apply (Hother r w), in_or_app; now left).
    destruct (dict_lookup (row_literal str_of_ref d) (clean (VStr raw)))
      as [x|] eqn:E; [|reflexivity].
    exfalso. apply Hstd. rewrite <- (row_literal_keys str_of_ref d).
    apply dict_mem_keys. unfold dict_mem. now rewrite E. }
  rewrite (add_spec_new _ _ _ _ Hne Hnew). apply dict_lookup_set_same.
Qed.

Lemma dict_lookup_in {V} (d : dict V) k v :
  dict_lookup d k = Some v -> In (k, v) d.
Proof.
  induction d as [|[k' v'] d IH]; simpl; [discriminate|].
  destruct (str_eqb k' k) eqn:E; auto.
  apply str_eqb_eq in E. intros H. inversion H. subst. now left.
Qed.

(** Every whitespace code point of a cleaned text is an ordinary space. *)
Lemma clean_spaces v : Forall space_is_sp (clean v).
Proof.
  rewrite <- clean_normal. unfold unwords_of.
  apply CleanFacts.join_shape, words_are_words.
Qed.

Lemma one_line_cells_add row kv :
  one_line_cells row -> one_line_cells (add row kv).
Proof.
  intros Hrow. destruct kv as [key value]. unfold add_spec.
  destruct (str_eqb (clean (VStr key)) []); [exact Hrow|].
  intros k x Hk Hx.
  destruct (list_eq_dec N.eq_dec k (clean (VStr key))) as [->|Hne].
  - destruct (negb (dict_mem (clean (VStr key)) row));
      rewrite dict_lookup_set_same in Hx; inversion Hx; subst;
      eexists; (split; [reflexivity|]).
    + apply clean_spaces.
    + apply Forall_app. split; [apply clean_spaces|].
      constructor; [intros H; vm_compute in H; discriminate H|].
      constructor; [intros _; reflexivity | apply clean_spaces].
  - destruct (negb (dict_mem (clean (VStr key)) row));
      rewrite dict_lookup_set_other in Hx by exact Hne;
      exact (Hrow k x Hk Hx).
Qed.

(** X9.  In the row of a record every cell outside the column [URL] is a
    string in which every whitespace code point is an ordinary space: no
    such cell holds a line break or a tab, whatever the fields and the
    specifications of the record hold. *)
Theorem row_of_one_line_cells h d k :
  k <> py "URL" ->
  Forall space_is_sp
    (cell_text str_of_ref (dict_get (row_of str_of_ref h d) k (VStr []))).
Proof.
  intros Hk.
  assert (Hrow : one_line_cells (row_of str_of_ref h d)).
  { unfold row_of. generalize (spec_items h d).
    assert (Hlit : one_line_cells (row_literal str_of_ref d)).
    { intros k' x Hk' Hx. apply dict_lookup_in in Hx.
      unfold row_literal in Hx. cbn [In] in Hx.
      repeat (destruct Hx as [Hx|Hx];
              [inversion Hx; subst;
               first [ congruence
                     | eexists; split; [reflexivity | apply clean_spaces] ]|]).
      destruct Hx. }
    revert Hlit. generalize (row_literal str_of_ref d).
    intros row Hrow items. revert row Hrow.
    induction items as [|kv items IH]; intros row Hrow; [exact Hrow|].
    cbn [fold_left]. apply IH. now apply one_line_cells_add. }
  unfold dict_get.
  destruct (dict_lookup (row_of str_of_ref h d) k) as [x|] eqn:E;
    [|constructor].
  destruct (Hrow k x Hk E) as [s [-> Hs]]. exact Hs.
Qed.

End Table.

Section TableWitnesses.
Import CsvFixtures.

Lemma save_to_csv_table_witness :
  [VRef 0; VRef 2] <> []
  /\ Forall (closed_product two_records_heap) [VRef 0; VRef 2]
  /\ always_open
       (filename_of no_repr clock two_records_heap [VRef 0; VRef 2]
                    (Some (py "out.csv"))) = true
  /\ (let f := filename_of no_repr clock two_records_heap [VRef 0; VRef 2]
                 (Some (py "out.csv")) in
      let fieldnames :=
        fieldnames_of iter_in_order
          (all_keys_of no_repr two_records_heap [VRef 0; VRef 2]) in
      let lines := map (row_cells no_repr fieldnames)
                       (rows_of no_repr two_records_heap [VRef 0; VRef 2]) in
      let out := save_to_csv no_repr iter_in_order always_open clock
                   (ProductList [VRef 0; VRef 2]) (Some (py "out.csv"))
                   {| objs := two_records_heap; files := [] |} in
      fst out = Ok (if all_written fieldnames lines then Some f else None)
      /\ files (snd out) = dict_set [] f (table_written fieldnames lines)
      /\ (all_written fieldnames lines = true ->
          table_written fieldnames lines
          = {| header := fieldnames; body := lines |})
      /\ List.length lines = List.length [VRef 0; VRef 2]
      /\ Forall (fun line => List.length line = List.length fieldnames)
                lines).
Proof.
  split; [discriminate|].
  split; [exact two_records_closed|].
  split; [reflexivity|].
  exact (save_to_csv_table no_repr iter_in_order always_open clock
           two_records_heap [] [VRef 0; VRef 2] (Some (py "out.csv"))
           ltac:(discriminate) two_records_closed eq_refl).
Defined.

Lemma save_to_csv_header_nodup_witness :
  (forall s, Permutation (iter_in_order s) s)
  /\ [VRef 0; VRef 2] <> []
  /\ Forall (closed_product two_records_heap) [VRef 0; VRef 2]
  /\ always_open
       (filename_of no_repr clock two_records_heap [VRef 0; VRef 2]
                    (Some (py "out.csv"))) = true
  /\ exists hdr,
       header_of
         (snd (save_to_csv no_repr iter_in_order always_open clock
                 (ProductList [VRef 0; VRef 2]) (Some (py "out.csv"))
                 {| objs := two_records_heap; files := [] |}))
         (filename_of no_repr clock two_records_heap [VRef 0; VRef 2]
            (Some (py "out.csv"))) = Some hdr
       /\ NoDup hdr.
Proof.
  split; [intros s; apply Permutation_refl|].
  split; [discriminate|].
  split; [exact two_records_closed|].
  split; [reflexivity|].
  exact (save_to_csv_header_nodup no_repr iter_in_order always_open clock
           (fun s => Permutation_refl s) two_records_heap []
           [VRef 0; VRef 2] (Some (py "out.csv"))
           ltac:(discriminate) two_records_closed eq_refl).
Defined.

Lemma purity_is_no_url :
  forall raw v,
    In (raw, v) (spec_items two_records_heap (nth 0 two_records_heap [])) ->
    clean_text_for_csv no_repr (VStr raw) <> py "URL".
Proof.
  intros raw v [H|[]]. inversion H; subst. vm_compute. discriminate.
Defined.

Lemma row_of_standard_cells_witness :
  (forall raw v,
     In (raw, v) (spec_items two_records_heap (nth 0 two_records_heap [])) ->
     clean_text_for_csv no_repr (VStr raw) <> py "URL")
  /\ dict_lookup (row_of no_repr two_records_heap
                    (nth 0 two_records_heap [])) (py "URL")
     = Some (VStr []).
Proof.
  split; [exact purity_is_no_url|].
  exact (proj1 (proj2 (row_of_standard_cells no_repr two_records_heap
                         (nth 0 two_records_heap []) (py "URL")
                         purity_is_no_url)) eq_refl).
Defined.

Lemma row_of_spec_cell_witness :
  spec_items two_records_heap (nth 2 two_records_heap [])
  = [] ++ (py "Color", VStr (py "clear")) :: [(py "Price", VStr (py "12"))]
  /\ clean_text_for_csv no_repr (VStr (py "Color")) <> []
  /\ ~ In (clean_text_for_csv no_repr (VStr (py "Color"))) standard_fields
  /\ dict_lookup (row_of no_repr two_records_heap
                    (nth 2 two_records_heap []))
                 (clean_text_for_csv no_repr (VStr (py "Color")))
     = Some (VStr (clean_text_for_csv no_repr (VStr (py "clear")))).
Proof.
  assert (Hne : clean_text_for_csv no_repr (VStr (py "Color")) <> [])
    by (vm_compute; discriminate).
  assert (Hstd : ~ In (clean_text_for_csv no_repr (VStr (py "Color")))
                      standard_fields).
  { vm_compute. intros H.
    repeat (destruct H as [H|H]; [discriminate H|]). exact H. }
  split; [reflexivity|]. split; [exact Hne|]. split; [exact Hstd|].
  apply (row_of_spec_cell no_repr two_records_heap
           (nth 2 two_records_heap []) []
           (py "Color") (VStr (py "clear")) [(py "Price", VStr (py "12"))]
           eq_refl Hne Hstd).
  intros raw' v' [H|[]]. inversion H; subst. vm_compute. discriminate.
Defined.

Lemma row_of_one_line_cells_witness :
  py "Price" <> py "URL"
  /\ Forall space_is_sp
       (cell_text no_repr
          (dict_get (row_of no_repr two_records_heap
                       (nth 2 two_records_heap [])) (py "Price") (VStr []))).
Proof.
  split; [discriminate|].
  exact (row_of_one_line_cells no_repr two_records_heap
           (nth 2 two_records_heap []) (py "Price") ltac:(discriminate)).
Defined.

End TableWitnesses.

Section Again.

Variable str_of_ref : loc -> str.
Variable set_iter : pyset -> list str.
Variable can_open : str -> bool.

Lemma filename_of_extends now h added ps filename :
  Forall (closed_product h) ps ->
  filename_of str_of_ref now (h ++ added) ps filename
  = filename_of str_of_ref now h ps filename.
Proof.
  intros Hcl. unfold filename_of.
  destruct filename as [[|c f]|]; try reflexivity;
    (destruct ps as [|p [|q ps]]; try reflexivity;
     inversion Hcl as [|? ? [d [Hd Hrefs]] _]; subst;
     rewrite (product_dict_extends h added p d Hd), Hd;
     unfold dict_get;
     destruct (dict_lookup d (py "product_code")) as [[|code|l]|] eqn:E;
     try reflexivity;
     specialize (Hrefs _ _ E);
     rewrite nth_error_app1 by exact Hrefs; reflexivity).
Qed.

Lemma rows_of_extends h added ps :
  Forall (closed_product h) ps ->
  rows_of str_of_ref (h ++ added) ps = rows_of str_of_ref h ps.
Proof.
  intros Hcl. unfold rows_of. apply map_ext_in. intros p Hp.
  rewrite Forall_forall in Hcl. destruct (Hcl p Hp) as [d [Hd Hrefs]].
  rewrite (product_dict_extends h added p d Hd), Hd.
  now apply row_of_extends.
Qed.

(** X19.  Saving the same records again, when the clock reads [later],
    writes the same table once more: the file of the second call holds
    what the file of the first call holds, and no other file is touched.
    Under the same file name (a name that is given, or a clock that has
    not advanced) the second call returns what the first returned and
    leaves every file as the first call left it; a name made from the
    clock may differ, and then both files are there. *)
Theorem save_to_csv_again now later h fs ps filename :
  ps <> [] ->
  Forall (closed_product h) ps ->
  can_open (filename_of str_of_ref now h ps filename) = true ->
  can_open (filename_of str_of_ref later h ps filename) = true ->
  let f1 := filename_of str_of_ref now h ps filename in
  let f2 := filename_of str_of_ref later h ps filename in
  let first := save_to_csv str_of_ref set_iter can_open now
                 (ProductList ps) filename {| objs := h; files := fs |} in
  let second := save_to_csv str_of_ref set_iter can_open later
                  (ProductList ps) filename (snd first) in
  dict_lookup (files (snd second)) f2 = dict_lookup (files (snd first)) f1
  /\ (forall g, g <> f2 ->
        dict_lookup (files (snd second)) g
        = dict_lookup (files (snd first)) g)
  /\ (f2 = f1 ->
      fst second = fst first /\ files (snd second) = files (snd first))
  /\ (forall c name, filename = Some (c :: name) -> f2 = f1).
Proof.
  intros Hne Hcl Hopen1 Hopen2 f1 f2 first second.
  destruct (save_to_csv_run str_of_ref set_iter can_open now h fs ps filename
              Hne Hcl Hopen1) as [Hout Hfiles].
  fold first in Hout, Hfiles. fold f1 in Hout, Hfiles.
  pose proof (save_to_csv_keeps str_of_ref set_iter can_open now h
                (ProductList ps) filename {| objs := h; files := fs |}) as Hk.
  assert (Hext : extends_heap h (snd first)).
  { unfold first.
    assert (H0 : extends_heap h {| objs := h; files := fs |})
      by (exists []; simpl; now rewrite app_nil_r).
    specialize (Hk H0).
    destruct (save_to_csv str_of_ref set_iter can_open now (ProductList ps)
                filename {| objs := h; files := fs |}) as [[r|e] s1];
      exact Hk. }
  destruct Hext as [added Hadded].
  assert (Hs1 : snd first
                = {| objs := h ++ added; files := files (snd first) |}).
  { destruct (snd first) as [o g1]. simpl in *. now subst o. }
  assert (Hcl' : Forall (closed_product (h ++ added)) ps).
  { eapply Forall_impl; [|exact Hcl]. intros p. apply closed_product_extends. }
  assert (Hopen' : can_open (filename_of str_of_ref later (h ++ added) ps
                               filename) = true)
    by (now rewrite filename_of_extends).
  destruct (save_to_csv_run str_of_ref set_iter can_open later (h ++ added)
              (files (snd first)) ps filename Hne Hcl' Hopen')
    as [Hout2 Hfiles2].
  rewrite <- Hs1 in Hout2, Hfiles2. fold second in Hout2, Hfiles2.
  rewrite filename_of_extends in Hout2, Hfiles2 by exact Hcl.
  fold f2 in Hout2, Hfiles2.
  unfold all_keys_of in Hout2, Hfiles2.
  rewrite (rows_of_extends h added ps Hcl) in Hout2, Hfiles2.
  fold (all_keys_of str_of_ref h ps) in Hout2, Hfiles2.
  split; [|split; [|split]].
  - rewrite Hfiles2, Hfiles. now rewrite !dict_lookup_set_same.
  - intros g Hg. rewrite Hfiles2. now apply dict_lookup_set_other.
  - intros Heq. rewrite Hout2, Hfiles2, Hout, Hfiles, Heq.
    split; [reflexivity | apply dict_set_twice].
  - intros c name ->. reflexivity.
Qed.

(** X18.  The row of a product that [scrape_products_from_csv] recorded as
    failed has the standard columns only, and under any header its line
    holds the normalized product code in [Product Code] and nothing in any
    other cell: the error text reaches no cell. *)
Theorem failed_entry_line h product_code error fieldnames :
  dict_keys (row_of str_of_ref h (failed_entry product_code error))
  = standard_fields
  /\ row_cells str_of_ref fieldnames
       (row_of str_of_ref h (failed_entry product_code error))
     = map (fun column =>
              if str_eqb column (py "Product Code")
              then clean_text_for_csv str_of_ref (VStr product_code)
              else [])
           fieldnames.
Proof.
  assert (Hrow : row_of str_of_ref h (failed_entry product_code error)
                 = row_literal str_of_ref (failed_entry product_code error))
    by reflexivity.
  rewrite Hrow. split; [reflexivity|].
  unfold row_cells. apply map_ext. intros column.
  unfold dict_get, row_literal. cbn [dict_lookup].
  rewrite (str_eqb_sym column).
  repeat match goal with
         | |- context [if str_eqb ?a column then _ else _] =>
             let E := fresh "E" in
             destruct (str_eqb a column) eqn:E;
             [ try reflexivity;
               apply str_eqb_eq in E; subst column;
               repeat match goal with
                      | H : str_eqb _ _ = false |- _ => clear H
                      end;
               reflexivity
             | ]
         end.
  reflexivity.
Qed.

End Again.

Section AgainWitness.
Import CsvFixtures.

Lemma save_to_csv_again_witness :
  [VRef 0; VRef 2] <> []
  /\ Forall (closed_product two_records_heap) [VRef 0; VRef 2]
  /\ always_open
       (filename_of no_repr clock two_records_heap [VRef 0; VRef 2] None)
     = true
  /\ always_open
       (filename_of no_repr later_clock two_records_heap [VRef 0; VRef 2]
                    None) = true
  /\ (let f1 := filename_of no_repr clock two_records_heap
                  [VRef 0; VRef 2] None in
      let f2 := filename_of no_repr later_clock two_records_heap
                  [VRef 0; VRef 2] None in
      let first := save_to_csv no_repr iter_in_order always_open clock
                     (ProductList [VRef 0; VRef 2]) None
                     {| objs := two_records_heap; files := [] |} in
      let second := save_to_csv no_repr iter_in_order always_open later_clock
                      (ProductList [VRef 0; VRef 2]) None (snd first) in
      dict_lookup (files (snd second)) f2
      = dict_lookup (files (snd first)) f1
      /\ (forall g, g <> f2 ->
            dict_lookup (files (snd second)) g
            = dict_lookup (files (snd first)) g)
      /\ (f2 = f1 ->
          fst second = fst first /\ files (snd second) = files (snd first))
      /\ (forall c name, @None str = Some (c :: name) -> f2 = f1)).
Proof.
  split; [discriminate|].
  split; [exact two_records_closed|].
  split; [reflexivity|].
  split; [reflexivity|].
  exact (save_to_csv_again no_repr iter_in_order always_open
           clock later_clock
           two_records_heap [] [VRef 0; VRef 2] None
           ltac:(discriminate) two_records_closed eq_refl eq_refl).
Defined.

(** A second later the list is saved under another name: both files are
    there, with the same table. *)
Example save_to_csv_a_second_later :
  let first := save_to_csv no_repr iter_in_order always_open clock
                 (ProductList [VRef 0; VRef 2]) None
                 {| objs := two_records_heap; files := [] |} in
  let second := save_to_csv no_repr iter_in_order always_open later_clock
                  (ProductList [VRef 0; VRef 2]) None (snd first) in
  fst first = Ok (Some (py "products_1700000000.csv"))
  /\ fst second = Ok (Some (py "products_1700000001.csv"))
  /\ dict_keys (files (snd second))
     = [py "products_1700000000.csv"; py "products_1700000001.csv"].
Proof. vm_compute. repeat split; reflexivity. Qed.

End AgainWitness.

End TableFacts.

(* ===================================================================== *)
(** * More about [extract_product_data] *)
(* ===================================================================== *)

Module RecordFacts.
Import PyStr PyStrFacts Monad MonadFacts Extract ExtractFacts RecordNotions.
Import Csv(dict, dict_lookup, dict_mem, dict_get, dict_set, dict_keys).
Import CsvFacts(bind_ok).
Local Open Scope py_scope.

(** ** The strategies under the test of the specifications *)

Section Later.

Variable D : WebDriver.
Variable lower : str -> str.
Variable json_loads : str -> result json.

Lemma unless_specs_skip (m : X D unit) s :
  nonempty (specifications (data (vars s))) = true ->
  unless_specs D m s = (Ok tt, s).
Proof.
  intros H. unfold unless_specs, bind, get_specs, gets. now rewrite H.
Qed.

(** X10.  Once the specifications are not empty, methods 2 to 10 find
    nothing more: they return without a call to the browser and leave the
    record as it is.  These are the strategies after method 1 in
    [extract_product_data]. *)
Theorem later_strategies_skip s :
  nonempty (specifications (data (vars s))) = true ->
  later_strategies D lower json_loads s = (Ok tt, s)
  /\ extract_specifications D lower json_loads
     = (method0 D ;; labeled_section D lower ;; method1 D lower ;;
        later_strategies D lower json_loads).
Proof.
  intros H. split; [|reflexivity].
  unfold later_strategies, method2, method3, method4, method5, method6,
    method7, method8, method9, method10.
  repeat rewrite (bind_ok _ _ _ _ _ (unless_specs_skip _ s H)).
  now apply unless_specs_skip.
Qed.

End Later.

Section LaterWitness.
Import ExtractFixtures.

Lemma later_strategies_skip_witness :
  nonempty (specifications
              (data (vars (snd (method0 list_and_section_page
                                  (initial_state list_and_section_page [] tt))))))
  = true
  /\ later_strategies list_and_section_page ascii_lower no_json
       (snd (method0 list_and_section_page
               (initial_state list_and_section_page [] tt)))
     = (Ok tt, snd (method0 list_and_section_page
                      (initial_state list_and_section_page [] tt))).
Proof.
  split; [vm_compute; reflexivity|].
  exact (proj1 (later_strategies_skip list_and_section_page ascii_lower
                  no_json
                  (snd (method0 list_and_section_page
                          (initial_state list_and_section_page [] tt)))
                  eq_refl)).
Defined.

End LaterWitness.

(** ** Invariants of the record *)

Section DataRules.

Variable D : WebDriver.
Variable P : product_data -> Prop.

#[local] Notation "'J'" := (on_data D P).

Lemma call_data {A} (f : world D -> result A * world D) :
  preserves J (call D f).
Proof.
  intros s Hs. unfold call. destruct (f (browser s)) as [[a|e] w]; exact Hs.
Qed.

Lemma time_sleep_data : preserves J (time_sleep D).
Proof. intros s Hs. exact Hs. Qed.

Lemma update_data f :
  (forall p, P p -> P (f p)) -> preserves J (update D f).
Proof. intros Hf s Hs. unfold on_data in *. simpl. auto. Qed.

Lemma get_specs_data : preserves J (get_specs D).
Proof. intros s Hs. exact Hs. Qed.

Lemma assign_spec_section_found_data b :
  preserves J (assign_spec_section_found D b).
Proof. intros s Hs. exact Hs. Qed.

Lemma read_spec_section_found_data :
  preserves J (read_spec_section_found D).
Proof.
  intros s Hs. unfold read_spec_section_found.
  destruct (spec_section_found (vars s)); exact Hs.
Qed.

Lemma json_loads_data json_loads (t : str) :
  preserves J (fun s : state D => (json_loads t : result json, s)).
Proof. intros s Hs. destruct (json_loads t); exact Hs. Qed.

End DataRules.

(** One step of the proof that a statement keeps an invariant on the
    record; [field_ok] is for the goal left at an assignment to the
    record. *)
Ltac data_hook field_ok :=
  idtac;
  lazymatch goal with
  | |- hoare _ (call _ _) _ _ => apply call_data
  | |- hoare _ (time_sleep _) _ _ => apply time_sleep_data
  | |- hoare _ (update _ _) _ _ => apply update_data; solve [field_ok]
  | |- hoare _ (set_spec _ _ _) _ _ => unfold set_spec
  | |- hoare _ (unless_specs _ _) _ _ => unfold unless_specs
  | |- hoare _ (get_specs _) _ _ => apply get_specs_data
  | |- hoare _ (assign_spec_section_found _ _) _ _ =>
      apply assign_spec_section_found_data
  | |- hoare _ (read_spec_section_found _) _ _ =>
      apply read_spec_section_found_data
  | |- hoare _ (fun s => (_, s)) _ _ => apply json_loads_data
  | |- hoare _ (when ?c _) _ _ =>
      unfold when; destruct c eqn:?
  | |- hoare _ (if ?c then _ else _) _ _ => destruct c eqn:?
  end.

Section Scalars.

Variable D : WebDriver.
Variable lower : str -> str.
Variable search_price search_currency : str -> option str.
Variable json_loads : str -> result json.

Lemma replace_comma_free s : ~ In 44%N (replace (py ",") [] s).
Proof.
  unfold replace. change (py ",") with [44%N].
  induction s as [|c s IH]; [intros []|].
  cbn [replace_go starts_with List.length Nat.sub app].
  rewrite andb_true_r.
  destruct (44 =? c)%N eqn:E; [exact IH|].
  intros [Hc|Hin]; [|now apply IH].
  subst c. now rewrite N.eqb_refl in E.
Qed.

Ltac described :=
  match goal with
  | Hc : (_ && (20 <? _)%nat)%bool = true |- _ =>
      apply andb_true_iff in Hc; destruct Hc as [_ Hc];
      apply Nat.ltb_lt in Hc; exact Hc
  end.

Ltac scalar_ok :=
  let p := fresh "p" in
  let H := fresh "Hshape" in
  intros p H;
  unfold scalars_shaped, with_product_name, with_product_code,
    with_description, with_price, with_currency, with_specifications,
    with_availability in *;
  cbn [model_number url product_name product_code availability description
       price currency specifications] in *;
  destruct H as (? & ? & ? & ? & ? & ? & ?);
  repeat match goal with |- _ /\ _ => split end;
  try assumption;
  intros t Ht; inversion Ht; subst; clear Ht;
  first [ apply strip_trimmed
        | apply replace_comma_free
        | split; [apply strip_trimmed | described] ].

Lemma extract_body_scalars u :
  preserves (on_data D (scalars_shaped u))
    (extract_body D lower search_price search_currency json_loads).
Proof.
  keep_with fail ltac:(data_hook scalar_ok).
Qed.

End Scalars.

Section Returns.

Variable D : WebDriver.
Variable lower : str -> str.
Variable search_price search_currency : str -> option str.
Variable json_loads : str -> result json.

Lemma scalars_shaped_initial u : scalars_shaped u (initial_product_data u).
Proof. unfold scalars_shaped. cbn. repeat split; discriminate. Qed.

(** The scalar fields of the record that is returned. *)
Lemma extract_scalars w :
  match current_url D w with
  | (Ok u, w1) =>
      exists pd w',
        extract_product_data D lower search_price search_currency
          json_loads w = (Ok pd, w')
        /\ scalars_shaped u pd
  | (Raise e, w1) =>
      extract_product_data D lower search_price search_currency
        json_loads w = (Raise e, w1)
  end.
Proof.
  pose proof (extract_runs D lower search_price search_currency json_loads
                (fun u => on_data D (scalars_shaped u)) w) as H.
  destruct (current_url D w) as [[u|e] w1].
  - destruct H as [pd [w' [Hrun [s' [Hs Hpd]]]]].
    + intros u' w1' _.
      split; [apply extract_body_scalars | apply scalars_shaped_initial].
    + exists pd, w'. split; [exact Hrun|]. now rewrite <- Hpd.
  - apply H. intros u w1' Heq. discriminate Heq.
Qed.

(** X11.  When the current URL is read, [extract_product_data] returns,
    whatever the page and however it changes while it is read, a record
    whose model number is [None] (no statement assigns it) and whose URL is
    the URL that was read on entry; the name, the code and the
    availability it has found are trimmed, a description is trimmed and
    longer than 20 code points, and a price holds no comma.  When reading
    the URL raises, the function raises that exception and the browser is
    in the state that command left. *)
Theorem extract_scalar_fields w :
  match current_url D w with
  | (Ok u, w1) =>
      exists pd w',
        extract_product_data D lower search_price search_currency
          json_loads w = (Ok pd, w')
        /\ model_number pd = None
        /\ url pd = u
        /\ (forall t, product_name pd = Some t -> trimmed t)
        /\ (forall t, product_code pd = Some t -> trimmed t)
        /\ (forall t, availability pd = Some t -> trimmed t)
        /\ (forall t, description pd = Some t ->
              trimmed t /\ 20 < List.length t)
        /\ (forall t, price pd = Some t -> ~ In 44%N t)
  | (Raise e, w1) =>
      extract_product_data D lower search_price search_currency
        json_loads w = (Raise e, w1)
  end.
Proof. exact (extract_scalars w). Qed.

End Returns.

(** ** The entries of the specifications *)

Section Entries.

Variable D : WebDriver.
Variable lower : str -> str.
Variable search_price search_currency : str -> option str.
Variable json_loads : str -> result json.


#[local] Notation "'B9'" :=
  (on_specs D (fun d => forall k v, In (k, v) d -> free_text_entry k v)).

Lemma nonempty_length {A} (l : list A) :
  nonempty l = true -> 0 < List.length l.
Proof. destruct l; [discriminate | simpl; lia]. Qed.

Ltac bounded :=
  let d := fresh "d" in
  let Hd := fresh "Hd" in
  let Hin := fresh "Hin" in
  intros d Hd ? ? Hin; apply dict_set_in in Hin;
  destruct Hin as [Hin|[-> ->]]; [now apply Hd|];
  parsed; unfold both_nonempty in *; parsed;
  repeat match goal with
         | H : (_ <? _)%nat = true |- _ => apply Nat.ltb_lt in H
         | H : nonempty _ = true |- _ => apply nonempty_length in H
         end;
  unfold free_text_entry; repeat split; first [trim | assumption].

Lemma method9_bounded : preserves B9 (method9 D lower).
Proof. keep_with bounded fail. Qed.

(** X13.  The free-text strategy, on a record without specifications,
    stores only entries whose key has more than 2 and fewer than 50 code
    points and whose value is not empty and has fewer than 200, both
    trimmed. *)
Theorem method9_entries_bounded w k v :
  In (k, v) (strategy_alone D (method9 D lower) w) ->
  2 < List.length k < 50 /\ 0 < List.length v < 200
  /\ trimmed k /\ trimmed v.
Proof.
  unfold strategy_alone.
  pose proof (method9_bounded (initial_state D [] w)) as H.
  assert (Hinit : B9 (initial_state D [] w)) by (intros ? ? []).
  specialize (H Hinit).
  destruct (method9 D lower (initial_state D [] w)) as [[u|e] s']; simpl;
    intros Hin; exact (H k v Hin).
Qed.

End Entries.

Section EntriesWitness.
Import ExtractFixtures.

Lemma method9_entries_bounded_witness :
  In (py "Price", py "10 USD")
     (strategy_alone free_text_page (method9 free_text_page ascii_lower) tt)
  /\ 2 < List.length (py "Price") < 50
  /\ 0 < List.length (py "10 USD") < 200
  /\ trimmed (py "Price") /\ trimmed (py "10 USD").
Proof.
  assert (Hin : In (py "Price", py "10 USD")
                  (strategy_alone free_text_page
                     (method9 free_text_page ascii_lower) tt))
    by (vm_compute; left; reflexivity).
  split; [exact Hin|].
  exact (method9_entries_bounded free_text_page ascii_lower tt
           (py "Price") (py "10 USD") Hin).
Defined.

End EntriesWitness.

End RecordFacts.

(* ===================================================================== *)
(** * Facts about [_extract_specs_from_all_elements] *)
(* ===================================================================== *)

Module AllElementsFacts.
Import PyStr PyStrFacts Monad MonadFacts Extract ExtractFacts AllElements.
Import Csv(dict, dict_lookup, dict_mem, dict_get, dict_set, dict_keys).
Import RecordFacts(nonempty_length).
Local Open Scope py_scope.

Section Rules.

Variable D : WebDriver.
Variable P : dict str -> Prop.

#[local] Notation "'F'" := (on_found D P).

Lemma drive_found {A} (f : world D -> result A * world D) :
  preserves F (drive D f).
Proof.
  intros s Hs. unfold drive. destruct (f (page s)) as [[a|e] w]; exact Hs.
Qed.

Lemma assign_is_spec_related_found b :
  preserves F (assign_is_spec_related D b).
Proof. intros s Hs. exact Hs. Qed.

Lemma put_spec_found key value :
  (forall d, P d -> P (dict_set d key value)) ->
  preserves F (put_spec D key value).
Proof. intros H s Hs. unfold on_found in *. simpl. auto. Qed.

End Rules.

Ltac found_hook key_ok :=
  idtac;
  lazymatch goal with
  | |- hoare _ (drive _ _) _ _ => apply drive_found
  | |- hoare _ (assign_is_spec_related _ _) _ _ =>
      apply assign_is_spec_related_found
  | |- hoare _ (put_spec _ _ _) _ _ => apply put_spec_found; solve [key_ok]
  | |- hoare _ (when ?c _) _ _ => unfold when; destruct c eqn:?
  end.

Section Scan.

Variable D : WebDriver.
Variable lower : str -> str.

#[local] Notation "'SE'" :=
  (on_found D (fun d => forall k v, In (k, v) d -> scanned_entry k v)).

Ltac parsed :=
  unfold key_value_ok, both_nonempty in *;
  repeat match goal with
         | H : element_pair _ _ _ = Some _ |- _ => unfold element_pair in H
         | H : key_value_ok _ _ = true |- _ =>
             unfold key_value_ok, both_nonempty in H
         | H : (if ?c then _ else _) = Some _ |- _ => destruct c eqn:?
         | H : None = Some _ |- _ => discriminate H
         | H : (let (_, _) := ?p in _) = Some _ |- _ => destruct p eqn:?
         | H : Some _ = Some _ |- _ => inversion H; subst; clear H
         | H : (_ && _)%bool = true |- _ =>
             apply andb_true_iff in H; destruct H
         | H : (_ <? _)%nat = true |- _ => apply Nat.ltb_lt in H
         | H : nonempty _ = true |- _ => apply nonempty_length in H
         end.

Ltac trim :=
  first [ apply strip_trimmed
        | eapply split_pair_key; eassumption
        | eapply split_pair_value; eassumption ].

Lemma length_nonempty {A} (l : list A) : 0 < List.length l -> l <> [].
Proof. intros H ->. simpl in H. lia. Qed.

Ltac scanned :=
  let d := fresh "d" in
  let Hd := fresh "Hd" in
  let Hin := fresh "Hin" in
  intros d Hd ? ? Hin; apply dict_set_in in Hin;
  destruct Hin as [Hin|[-> ->]]; [now apply Hd|];
  parsed; unfold scanned_entry; repeat split;
  first [trim | assumption | apply length_nonempty; assumption].

Lemma scan_element_found e : preserves SE (scan_element D lower e).
Proof. keep_with fail ltac:(found_hook scanned). Qed.

Lemma all_elements_returns w :
  exists found w',
    _extract_specs_from_all_elements D lower w = (Ok found, w')
    /\ forall k v, In (k, v) found -> scanned_entry k v.
Proof.
  assert (Hbody : preserves SE
            (bind (drive D (find_elements_by_xpath D None all_elements_xpath))
                  (fun all_elements =>
                     for_each all_elements (scan_element D lower)))).
  { apply preserves_bind; [apply drive_found|]. intros all_elements.
    apply preserves_for_each. intros e _. apply scan_element_found. }
  assert (Hinit : forall k v, In (k, v) (@nil (str * str)) ->
                              scanned_entry k v) by (intros ? ? []).
  specialize (Hbody {| page := w; specs := []; is_spec_related := false |}
                Hinit).
  unfold _extract_specs_from_all_elements, extract_specs_from.
  set (body := bind (drive D (find_elements_by_xpath D None
                                all_elements_xpath)) _) in *.
  set (s0 := {| page := w; specs := []; is_spec_related := false |}) in *.
  unfold bind, try_except, gets, ret.
  destruct (body s0) as [[u|e] s'];
    eexists; eexists; (split; [reflexivity | exact Hbody]).
Qed.

(** X14.  Whatever the page, [_extract_specs_from_all_elements] returns a
    dictionary, raising nothing, and every entry of it has a key of more
    than 2 and fewer than 80 code points and a value that is not empty,
    both trimmed of surrounding whitespace. *)
Theorem all_elements_entries w :
  exists found w',
    _extract_specs_from_all_elements D lower w = (Ok found, w')
    /\ forall k v, In (k, v) found ->
         2 < List.length k < 80 /\ v <> [] /\ trimmed k /\ trimmed v.
Proof. exact (all_elements_returns w). Qed.

End Scan.

End AllElementsFacts.

(* ===================================================================== *)
(** * Facts about [load_product_codes_from_csv] *)
(* ===================================================================== *)

Module ProductCodesFacts.
Import PyStr PyStrFacts Monad MonadFacts ProductCodes.
Import Csv(dict, dict_lookup, dict_mem, dict_get, dict_set, dict_keys,
           pyset, set_mem, set_add).
Import CsvFacts(bind_ok, set_mem_in, set_add_in).
Import Extract(nonempty).
Local Open Scope py_scope.

(** ** Removing the duplicates *)

Lemma nonempty_true (s : str) : nonempty s = true <-> s <> [].
Proof. destruct s; simpl; split; congruence. Qed.

Lemma unique_codes_in codes : forall seen c,
  In c (unique_codes seen codes) <-> In c codes /\ c <> [] /\ ~ In c seen.
Proof.
  induction codes as [|code rest IH]; intros seen c; simpl; [tauto|].
  destruct (nonempty code) eqn:En; simpl.
  - apply nonempty_true in En.
    destruct (set_mem code seen) eqn:Es; simpl.
    + rewrite IH. apply set_mem_in in Es.
      intuition (subst; try contradiction; auto).
    + assert (Hs : ~ In code seen).
      { intros H. apply set_mem_in in H. congruence. }
      rewrite IH, set_add_in.
      destruct (list_eq_dec N.eq_dec code c) as [->|Hne];
        intuition (subst; try contradiction; auto).
  - assert (Hempty : code = []) by (destruct code; [reflexivity|discriminate]).
    rewrite IH. intuition (subst; try contradiction; auto).
Qed.

Lemma unique_codes_nodup codes : forall seen,
  NoDup (unique_codes seen codes).
Proof.
  induction codes as [|code rest IH]; intros seen; simpl; [constructor|].
  destruct (nonempty code && negb (set_mem code seen)); auto.
  constructor; auto.
  intros H. apply unique_codes_in in H. destruct H as [_ [_ H]].
  apply H, set_add_in. auto.
Qed.

Lemma set_add_mem s k : set_mem k s = true -> set_add s k = s.
Proof. unfold set_add. now intros ->. Qed.

Lemma unique_codes_app a b : forall seen,
  unique_codes seen (a ++ b)
  = unique_codes seen a
    ++ unique_codes (fold_left set_add (filter nonempty a) seen) b.
Proof.
  induction a as [|code rest IH]; intros seen; [reflexivity|].
  cbn [app unique_codes filter].
  destruct (nonempty code) eqn:En; cbn [andb fold_left]; [|apply IH].
  destruct (set_mem code seen) eqn:Es; cbn [negb].
  - rewrite IH. now rewrite (set_add_mem _ _ Es).
  - cbn [app]. now rewrite IH.
Qed.

Lemma unique_codes_skip_empty codes : forall seen,
  unique_codes seen (filter nonempty codes) = unique_codes seen codes.
Proof.
  induction codes as [|code rest IH]; intros seen; simpl; [reflexivity|].
  destruct (nonempty code) eqn:En; simpl; [|apply IH].
  rewrite En. simpl. destruct (set_mem code seen); simpl; now rewrite IH.
Qed.

(** ** The rows *)

Section Load.

Variable path_exists : str -> bool.
Variable open_csv : str -> result reader.

Lemma read_rows_ok column rest : forall codes,
  (forall row, In row rest -> dict_lookup row column <> Some None) ->
  for_each rest (read_row column) codes
  = (Ok tt, codes ++ filter nonempty (map (cell_code column) rest)).
Proof.
  induction rest as [|row rest IH]; intros codes Hok.
  - simpl. unfold ret. now rewrite app_nil_r.
  - cbn [for_each map filter].
    assert (Hrow : read_row column row codes
                   = (Ok Next,
                      if nonempty (cell_code column row)
                      then codes ++ [cell_code column row] else codes)).
    { unfold read_row, cell_code, dict_get.
      specialize (Hok row (or_introl eq_refl)).
      destruct (dict_lookup row column) as [[v|]|]; try congruence.
      - unfold bind, ret, when. destruct (nonempty (strip v)); reflexivity.
      - unfold bind, ret, when. reflexivity. }
    rewrite (bind_ok _ _ _ _ _ Hrow). rewrite IH.
    + destruct (nonempty (cell_code column row)); [|reflexivity].
      now rewrite <- app_assoc.
    + intros r Hr. apply Hok. now right.
Qed.

Lemma stripped_cells_rows first_row rest e :
  stripped_cells {| rows := first_row :: rest; ending := e |}
  = flat_map (fun row =>
                match dict_lookup row (product_code_column first_row) with
                | Some (Some v) => [strip v]
                | _ => []
                end) (first_row :: rest).
Proof. reflexivity. Qed.

Lemma unique_codes_cells column rest : forall seen,
  unique_codes seen (filter nonempty (map (cell_code column) rest))
  = unique_codes seen
      (flat_map (fun row =>
                   match dict_lookup row column with
                   | Some (Some v) => [strip v]
                   | _ => []
                   end) rest).
Proof.
  induction rest as [|row rest IH]; intros seen; [reflexivity|].
  cbn [map flat_map]. unfold cell_code at 1.
  destruct (dict_lookup row column) as [[v|]|]; cbn [filter app nonempty];
    try apply IH.
  destruct (nonempty (strip v)) eqn:En.
  - cbn [unique_codes]. rewrite En.
    destruct (set_mem (strip v) seen); cbn [negb andb]; now rewrite IH.
  - cbn [unique_codes]. rewrite En. cbn [andb]. apply IH.
Qed.

(** The run of the body on a file that is read to its end. *)
Lemma load_body_ok csv_file r :
  open_csv csv_file = Ok r ->
  ending r = None ->
  no_short_row r ->
  load_body open_csv csv_file []
  = (Ok (unique_codes [] (stripped_cells r)),
     match rows r with
     | [] | [] :: _ => []
     | first_row :: rest => codes_read first_row rest
     end).
Proof.
  intros Hopen Hend Hshort. unfold load_body, bind at 1. rewrite Hopen.
  destruct r as [rs e]. cbn [rows ending] in *. subst e.
  unfold no_short_row in Hshort. cbn [rows] in Hshort.
  destruct rs as [|first_row rest]; [reflexivity|].
  destruct Hshort as [Hfirst_row Hshort].
  destruct first_row as [|[k0 v0] first_row]; [congruence|].
  clear Hfirst_row.
  set (first := (k0, v0) :: first_row) in *.
  set (column := product_code_column first) in *.
  rewrite stripped_cells_rows. fold column.
  set (codes1 := match dict_get first column None with
                 | Some v => if nonempty v then [strip v] else []
                 | None => []
                 end).
  assert (H1 : match dict_get first column None with
               | Some v => when (nonempty v) (append (strip v))
               | None => ret tt
               end [] = (Ok tt, codes1)).
  { unfold codes1. destruct (dict_get first column None) as [v|];
      [|reflexivity].
    unfold when. destruct (nonempty v); reflexivity. }
  unfold codes_read. fold column. fold codes1.
  cbv zeta. fold column. rewrite (bind_ok _ _ _ _ _ H1).
  rewrite (bind_ok _ _ _ _ _ (read_rows_ok column rest codes1 Hshort)).
  unfold bind, ret, get. f_equal. f_equal.
  rewrite unique_codes_app. cbn [flat_map].
  rewrite (unique_codes_app
             (match dict_lookup first column with
              | Some (Some v) => [strip v]
              | _ => []
              end)).
  assert (Hfirst : forall seen,
    unique_codes seen codes1
    = unique_codes seen match dict_lookup first column with
                        | Some (Some v) => [strip v]
                        | _ => []
                        end).
  { intros seen. unfold codes1, dict_get.
    destruct (dict_lookup first column) as [[v|]|]; try reflexivity.
    destruct (nonempty v) eqn:En; [reflexivity|].
    destruct v; [|discriminate]. reflexivity. }
  assert (Hseen : filter nonempty codes1
                  = filter nonempty match dict_lookup first column with
                                    | Some (Some v) => [strip v]
                                    | _ => []
                                    end).
  { unfold codes1, dict_get.
    destruct (dict_lookup first column) as [[v|]|]; try reflexivity.
    destruct (nonempty v) eqn:En; [reflexivity|].
    destruct v; [|discriminate]. reflexivity. }
  rewrite Hfirst, Hseen. f_equal. apply unique_codes_cells.
Qed.

(** X15.  When the file exists, is read to its end and has no row too
    short for the column of the codes, [load_product_codes_from_csv]
    returns the stripped cells of that column without the empty ones and
    without duplicates, in the order of their first occurrence: the list
    has no duplicate, every code is trimmed, and a code is in it exactly
    when it is a non-empty stripped cell of the column. *)
Theorem load_product_codes_unique csv_file r :
  path_exists csv_file = true ->
  open_csv csv_file = Ok r ->
  ending r = None ->
  no_short_row r ->
  load_product_codes_from_csv path_exists open_csv csv_file
  = unique_codes [] (stripped_cells r)
  /\ NoDup (load_product_codes_from_csv path_exists open_csv csv_file)
  /\ Forall trimmed (load_product_codes_from_csv path_exists open_csv csv_file)
  /\ forall c,
       In c (load_product_codes_from_csv path_exists open_csv csv_file)
       <-> c <> [] /\ In c (stripped_cells r).
Proof.
  intros Hex Hopen Hend Hshort.
  assert (Hrun : load_product_codes_from_csv path_exists open_csv csv_file
                 = unique_codes [] (stripped_cells r)).
  { unfold load_product_codes_from_csv, try_except. rewrite Hex. cbn [negb].
    now rewrite (load_body_ok csv_file r Hopen Hend Hshort). }
  rewrite Hrun. split; [reflexivity|].
  split; [apply unique_codes_nodup|].
  split.
  - apply Forall_forall. intros c Hc. apply unique_codes_in in Hc.
    destruct Hc as [Hc _]. unfold stripped_cells in Hc.
    destruct (rows r) as [|first_row rest]; [destruct Hc|].
    apply in_flat_map in Hc. destruct Hc as [row [_ Hc]].
    destruct (dict_lookup row (product_code_column first_row)) as [[v|]|];
      try destruct Hc as [<-|[]]; try destruct Hc.
    apply strip_trimmed.
  - intros c. rewrite unique_codes_in. cbn [In]. tauto.
Qed.

End Load.

Section Paths.

Variable path_exists : str -> bool.
Variable open_csv : str -> result reader.

Lemma stripped_cells_first first_row rest e v :
  dict_get first_row (product_code_column first_row) None = Some v ->
  In (strip v)
     (stripped_cells {| rows := first_row :: rest; ending := e |}).
Proof.
  intros Hv. rewrite stripped_cells_rows. cbn [flat_map].
  apply in_or_app. left. unfold dict_get in Hv.
  destruct (dict_lookup first_row (product_code_column first_row))
    as [[x|]|]; try discriminate.
  inversion Hv. now left.
Qed.

Lemma stripped_cells_rest first_row rest e row :
  In row rest ->
  cell_code (product_code_column first_row) row <> [] ->
  In (cell_code (product_code_column first_row) row)
     (stripped_cells {| rows := first_row :: rest; ending := e |}).
Proof.
  intros Hrow Hne. rewrite stripped_cells_rows. cbn [flat_map].
  apply in_or_app. right. apply in_flat_map. exists row. split; auto.
  unfold cell_code in *.
  destruct (dict_lookup row (product_code_column first_row)) as [[x|]|];
    try congruence.
  now left.
Qed.

Lemma stripped_cells_trimmed r : Forall trimmed (stripped_cells r).
Proof.
  apply Forall_forall. intros c Hc. unfold stripped_cells in Hc.
  destruct (rows r) as [|first_row rest]; [destruct Hc|].
  apply in_flat_map in Hc. destruct Hc as [row [_ Hc]].
  destruct (dict_lookup row (product_code_column first_row)) as [[v|]|];
    try destruct Hc as [<-|[]]; try destruct Hc.
  apply strip_trimmed.
Qed.

(** While the rows are read, the codes are stripped cells of the column. *)
Lemma load_body_cells csv_file r :
  open_csv csv_file = Ok r ->
  hoare (fun codes => incl codes (stripped_cells r))
        (load_body open_csv csv_file)
        (fun res _ => incl res (stripped_cells r))
        (fun codes => incl codes (stripped_cells r)).
Proof.
  intros Hopen. unfold load_body.
  eapply hoare_bind with
    (R := fun r' codes => r' = r /\ incl codes (stripped_cells r)).
  { intros codes Hc. rewrite Hopen. auto. }
  intros r'. apply hoare_pure. intros ->.
  destruct r as [rs e]. cbn [rows ending].
  destruct rs as [|first_row rest].
  { destruct e; [apply hoare_raise; auto | intros codes Hc; exact Hc]. }
  destruct first_row as [|[k0 v0] first_row];
    [intros codes Hc; exact Hc|].
  set (first := (k0, v0) :: first_row).
  set (cells := stripped_cells {| rows := first :: rest; ending := e |}).
  cbv zeta.
  assert (Happend : forall c, In c cells ->
            preserves (fun codes => incl codes cells) (append c)).
  { intros c Hc codes Hcodes. unfold append, modify.
    apply incl_app; auto. intros x [<-|[]]. exact Hc. }
  apply preserves_with with (phi := fun _ => True).
  { destruct (dict_get first (product_code_column first) None) as [v|] eqn:Ev.
    - unfold when. destruct (nonempty v).
      + eapply hoare_conseq;
          [apply Happend; now apply stripped_cells_first | auto ..].
      + intros codes Hc. simpl. auto.
    - intros codes Hc. simpl. auto. }
  intros _ _.
  apply preserves_with with (phi := fun _ => True).
  { eapply hoare_conseq;
      [apply preserves_for_each with (I := fun codes => incl codes cells)
      | auto ..].
    intros row Hrow. unfold read_row.
    apply preserves_with with
      (phi := fun code => code = cell_code (product_code_column first) row).
    { unfold cell_code, dict_get.
      destruct (dict_lookup row (product_code_column first)) as [[v|]|];
        intros codes Hc; simpl; auto. }
    intros code ->.
    apply preserves_bind; [|intros; apply preserves_ret].
    unfold when.
    destruct (nonempty (cell_code (product_code_column first) row)) eqn:En;
      [|apply preserves_ret].
    apply Happend. apply stripped_cells_rest; auto.
    now apply nonempty_true. }
  intros _ _.
  apply preserves_with with (phi := fun _ => True).
  { destruct e; [apply hoare_raise; auto|].
    intros codes Hc. simpl. auto. }
  intros _ _.
  intros codes Hc. unfold bind, get, ret.
  intros c Hin. apply unique_codes_in in Hin. apply Hc. tauto.
Qed.

(** X16.  Whatever the file holds and wherever reading it fails,
    [load_product_codes_from_csv] returns only stripped cells of the column
    of the codes, so every code it returns is trimmed; it returns the
    empty list when the file does not exist or cannot be opened. *)
Theorem load_product_codes_from_cells csv_file :
  match path_exists csv_file, open_csv csv_file with
  | true, Ok r =>
      incl (load_product_codes_from_csv path_exists open_csv csv_file)
           (stripped_cells r)
      /\ Forall trimmed
           (load_product_codes_from_csv path_exists open_csv csv_file)
  | _, _ => load_product_codes_from_csv path_exists open_csv csv_file = []
  end.
Proof.
  unfold load_product_codes_from_csv.
  destruct (path_exists csv_file); [|reflexivity]. cbn [negb].
  destruct (open_csv csv_file) as [r|e] eqn:Hopen.
  - assert (Hincl : incl
      match try_except (load_body open_csv csv_file) get [] with
      | (Ok product_codes, _) => product_codes
      | (Raise _, product_codes) => product_codes
      end (stripped_cells r)).
    { pose proof (load_body_cells csv_file r Hopen [] (incl_nil_l _)) as H.
      unfold try_except.
      destruct (load_body open_csv csv_file []) as [[res|x] codes];
        [exact H | simpl; exact H]. }
    split; [exact Hincl|].
    apply Forall_forall. intros c Hc.
    pose proof (stripped_cells_trimmed r) as Ht.
    rewrite Forall_forall in Ht. apply Ht, Hincl, Hc.
  - unfold try_except, load_body, bind. now rewrite Hopen.
Qed.

Lemma bind_raise {S A B} (m : M S A) (f : A -> M S B) s e s' :
  m s = (Raise e, s') -> bind m f s = (Raise e, s').
Proof. unfold bind. now intros ->. Qed.

Lemma read_rows_short column before short after : forall codes,
  (forall row, In row before -> dict_lookup row column <> Some None) ->
  dict_lookup short column = Some None ->
  for_each (before ++ short :: after) (read_row column) codes
  = (Raise AttributeError,
     codes ++ filter nonempty (map (cell_code column) before)).
Proof.
  induction before as [|row before IH]; intros codes Hbefore Hshort.
  - cbn [app for_each map filter]. rewrite app_nil_r.
    unfold read_row, dict_get, bind. now rewrite Hshort.
  - cbn [app for_each map filter].
    assert (Hrow : read_row column row codes
                   = (Ok Next,
                      if nonempty (cell_code column row)
                      then codes ++ [cell_code column row] else codes)).
    { unfold read_row, cell_code, dict_get.
      specialize (Hbefore row (or_introl eq_refl)).
      destruct (dict_lookup row column) as [[v|]|]; try congruence.
      - unfold bind, ret, when. destruct (nonempty (strip v)); reflexivity.
      - unfold bind, ret, when. reflexivity. }
    rewrite (bind_ok _ _ _ _ _ Hrow). rewrite IH.
    + destruct (nonempty (cell_code column row)); [|reflexivity].
      now rewrite <- app_assoc.
    + intros r Hr. apply Hbefore. now right.
    + exact Hshort.
Qed.

(** X17.  A row that is too short for the column of the codes ends the
    reading: [load_product_codes_from_csv] returns the codes of the rows
    before it as they were read, duplicates included, and ignores the rows
    after it, whatever they are. *)
Theorem load_product_codes_short_row csv_file first_row before short after e :
  path_exists csv_file = true ->
  open_csv csv_file
  = Ok {| rows := first_row :: before ++ short :: after; ending := e |} ->
  first_row <> [] ->
  (forall row, In row before ->
     dict_lookup row (product_code_column first_row) <> Some None) ->
  dict_lookup short (product_code_column first_row) = Some None ->
  load_product_codes_from_csv path_exists open_csv csv_file
  = codes_read first_row before.
Proof.
  intros Hex Hopen Hfirst Hbefore Hshort.
  unfold load_product_codes_from_csv, try_except. rewrite Hex. cbn [negb].
  unfold load_body, bind at 1. rewrite Hopen. cbn [rows ending].
  destruct first_row as [|[k0 v0] first_row]; [congruence|].
  set (first := (k0, v0) :: first_row) in *.
  set (column := product_code_column first) in *.
  cbv zeta. fold column.
  set (codes1 := match dict_get first column None with
                 | Some v => if nonempty v then [strip v] else []
                 | None => []
                 end).
  assert (H1 : match dict_get first column None with
               | Some v => when (nonempty v) (append (strip v))
               | None => ret tt
               end [] = (Ok tt, codes1)).
  { unfold codes1. destruct (dict_get first column None) as [v|];
      [|reflexivity].
    unfold when. destruct (nonempty v); reflexivity. }
  rewrite (bind_ok _ _ _ _ _ H1).
  pose proof (read_rows_short column before short after codes1
                Hbefore Hshort) as Hloop.
  rewrite (bind_raise _ _ _ _ _ Hloop). reflexivity.
Qed.

End Paths.

(** ** The theorems on concrete files *)

Section CodesWitnesses.
Import ProductCodesFixtures.

Lemma three_codes_full : no_short_row three_codes.
Proof.
  split; [discriminate|].
  intros row [<-|[<-|[]]]; vm_compute; discriminate.
Defined.

Lemma load_product_codes_unique_witness :
  every_path (py "codes.csv") = true
  /\ open_three (py "codes.csv") = Ok three_codes
  /\ ending three_codes = None
  /\ no_short_row three_codes
  /\ load_product_codes_from_csv every_path open_three (py "codes.csv")
     = [py "A-1"; py "B-2"].
Proof.
  split; [reflexivity|]. split; [reflexivity|]. split; [reflexivity|].
  split; [exact three_codes_full|].
  exact (eq_trans
           (proj1 (load_product_codes_unique every_path open_three
                     (py "codes.csv") three_codes
                     eq_refl eq_refl eq_refl three_codes_full))
           eq_refl).
Defined.

Lemma load_product_codes_short_row_witness :
  every_path (py "codes.csv") = true
  /\ dict_lookup (nth 2 (rows short_line) [])
       (product_code_column (nth 0 (rows short_line) [])) = Some None
  /\ load_product_codes_from_csv every_path open_short (py "codes.csv")
     = [py "A-1"; py "A-1"].
Proof.
  split; [reflexivity|]. split; [reflexivity|].
  refine (eq_trans
            (load_product_codes_short_row every_path open_short
               (py "codes.csv")
               (nth 0 (rows short_line) [])
               [nth 1 (rows short_line) []]
               (nth 2 (rows short_line) [])
               [nth 3 (rows short_line) []]
               None eq_refl eq_refl _ _ eq_refl)
            eq_refl).
  - discriminate.
  - intros row [<-|[]]. vm_compute. discriminate.
Defined.

End CodesWitnesses.

End ProductCodesFacts.

(* ===================================================================== *)
(** * Facts about [scrape_product] *)
(* ===================================================================== *)

Module NavigateFacts.
Import PyStr PyStrFacts Monad MonadFacts Extract ExtractFacts.
Import AllElements AllElementsFacts RecordNotions RecordFacts Navigate.
Import Csv(dict, dict_lookup, dict_mem, dict_get, dict_set, dict_keys).
Local Open Scope py_scope.

(** A postcondition for every outcome. *)
Lemma hoare_any {S A} (m : M S A) (Q : A -> S -> Prop) (E : S -> Prop) :
  (forall a s, Q a s) -> (forall s, E s) ->
  hoare (fun _ => True) m Q E.
Proof. intros HQ HE s _. destruct (m s) as [[a|e] s']; auto. Qed.

(** A statement of which nothing is known. *)
Lemma hoare_skip {S A B} (m : M S A) (f : A -> M S B)
      (Q : B -> S -> Prop) :
  (forall a, hoare (fun _ => True) (f a) Q (fun _ => True)) ->
  hoare (fun _ => True) (bind m f) Q (fun _ => True).
Proof.
  intros Hf s _. unfold bind. destruct (m s) as [[a|e] s']; [|exact I].
  now apply Hf.
Qed.

Lemma hoare_assume {S A} (phi : Prop) (m : M S A)
      (Q : A -> S -> Prop) (E : S -> Prop) :
  (phi -> hoare (fun _ => True) m Q E) -> hoare (fun _ => phi) m Q E.
Proof. intros H s Hphi. exact (H Hphi s I). Qed.

(** What a call that always returns gives. *)
Lemma hoare_returns {S A} (m : M S A) (phi : A -> Prop) :
  (forall s, exists a s', m s = (Ok a, s') /\ phi a) ->
  hoare (fun _ => True) m (fun a _ => phi a) (fun _ => True).
Proof.
  intros H s _. destruct (H s) as [a [s' [-> Ha]]]. exact Ha.
Qed.

Lemma dict_update_in {V} (other : dict V) : forall d k v,
  In (k, v) (dict_update d other) -> In (k, v) d \/ In (k, v) other.
Proof.
  unfold dict_update.
  induction other as [|[k0 v0] other IH]; intros d k v Hin; [now left|].
  cbn [fold_left fst snd] in Hin. apply IH in Hin.
  destruct Hin as [Hin|Hin]; [|right; now right].
  apply dict_set_in in Hin. destruct Hin as [Hin|[-> ->]]; auto.
  right. now left.
Qed.

(** ** The browser on its way: every statement leaves it in a state that
    its commands reach *)

Section Way.

Variable B : Browser.
Variable R : world (driver B) -> Prop.

Hypothesis R_step : forall w w', R w -> browser_step B w w' -> R w'.

#[local] Notation "'D'" := (driver B).

Lemma command_keeps {A} (f : world D -> result A * world D) :
  (forall w, browser_step B w (snd (f w))) -> preserves R f.
Proof.
  intros Hf w Hw. pose proof (R_step _ _ Hw (Hf w)) as H.
  destruct (f w) as [[a|e] w']; exact H.
Qed.

Lemma wait_or_raise_keeps {A} (f : world D -> waited A * world D) :
  (forall w, browser_step B w (snd (f w))) ->
  preserves R (wait_or_raise B f).
Proof.
  intros Hf w Hw. unfold wait_or_raise.
  pose proof (R_step _ _ Hw (Hf w)) as H.
  destruct (f w) as [[a| |e] w']; exact H.
Qed.

Lemma nav_time_sleep_keeps : preserves R (Navigate.time_sleep B).
Proof.
  intros w Hw. simpl. eapply R_step; [exact Hw|].
  apply browser_driver. constructor.
Qed.

Lemma first_present_keeps timeout found selectors :
  preserves R found ->
  preserves R (first_present B timeout selectors found).
Proof.
  intros Hfound.
  induction selectors as [|selector rest IH]; [apply preserves_ret|].
  intros w Hw. cbn [first_present].
  pose proof (R_step _ _ Hw (browser_until_present B timeout selector w))
    as Hstep.
  destruct (until_present B timeout selector w) as [[e| |e] w'];
    cbn [snd] in Hstep.
  - assert (Hk : preserves R (bind found (fun _ => ret (Some e))))
      by (apply preserves_bind; [exact Hfound | intros; apply preserves_ret]).
    exact (Hk w' Hstep).
  - exact (IH w' Hstep).
  - exact Hstep.
Qed.

Lemma for_first_keeps {X} (l : list X) (body : X -> Nav B bool) :
  (forall x, In x l -> preserves R (body x)) ->
  preserves R (for_first l body).
Proof.
  induction l as [|x l IH]; intros Hb; [apply preserves_ret|].
  cbn [for_first]. apply preserves_bind; [apply Hb; now left|].
  intros [|]; [apply preserves_ret|].
  apply IH. intros y Hy. apply Hb. now right.
Qed.

Lemma for_each_else_keeps {X} (l : list X) (body : X -> Nav B ctl) orelse :
  (forall x, In x l -> preserves R (body x)) ->
  preserves R orelse ->
  preserves R (for_each_else l body orelse).
Proof.
  intros Hb Helse. induction l as [|x l IH]; [exact Helse|].
  cbn [for_each_else]. apply preserves_bind; [apply Hb; now left|].
  intros [|]; [|apply preserves_ret].
  apply IH. intros y Hy. apply Hb. now right.
Qed.

End Way.

Ltac browser_steps :=
  solve [ apply browser_driver; constructor | constructor ].

Ltac way_closed :=
  solve [ assumption | intros ? ? ? ?; eapply reach_step; eassumption ].

Ltac way_hook :=
  idtac;
  lazymatch goal with
  | |- hoare _ (for_first _ _) _ _ =>
      apply for_first_keeps; intros
  | |- hoare _ (for_each_else _ _ _) _ _ =>
      apply for_each_else_keeps; [intros|]
  | |- hoare _ (first_present _ _ _ _) _ _ =>
      apply first_present_keeps; [way_closed|]
  | |- hoare _ (wait_or_raise _ _) _ _ =>
      apply wait_or_raise_keeps; [way_closed | intros; browser_steps]
  | |- hoare _ (Navigate.time_sleep _) _ _ =>
      apply nav_time_sleep_keeps; way_closed
  | |- hoare _ (if ?c then _ else _) _ _ => destruct c
  | |- hoare _ ?m _ _ =>
      apply command_keeps; [way_closed | intros; browser_steps]
  end.

Lemma keeps_then {S A C} (I : S -> Prop) (m : M S A) (f : A -> M S C)
      (Q : C -> S -> Prop) :
  preserves I m ->
  (forall a, hoare I (f a) Q (fun _ => True)) ->
  hoare I (bind m f) Q (fun _ => True).
Proof.
  intros Hm Hf. eapply hoare_bind; [|exact Hf].
  eapply hoare_conseq; [exact Hm | auto ..].
Qed.

Section Scrape.

Variable B : Browser.
Variable lower : str -> str.
Variable search_price search_currency : str -> option str.
Variable json_loads : str -> result json.

#[local] Notation "'D'" := (driver B).
#[local] Notation "'scraped''" := (scraped B lower json_loads).
#[local] Notation "'on_the_way'" := (reachable (browser_step B)).

Lemma search_product_way w0 code :
  preserves (on_the_way w0) (search_product B code).
Proof. keep_with fail way_hook. Qed.

Lemma expand_specification_sections_way w0 :
  preserves (on_the_way w0) (_expand_specification_sections B).
Proof. keep_with fail way_hook. Qed.

(** The record of [extract_product_data], entered on the way from [w0]. *)
Lemma extract_product_data_record w0 :
  hoare (on_the_way w0)
    (extract_product_data D lower search_price search_currency json_loads)
    (fun pd _ =>
       model_number pd = None
       /\ forall k v, In (k, v) (specifications pd) ->
            (k <> [] /\ v <> [] /\ trimmed k /\ trimmed v)
            \/ exists w1, on_the_way w0 w1
                          /\ verbatim_entry D lower json_loads w1 k v)
    (fun _ => True).
Proof.
  intros w Hw.
  pose proof (extract_scalars D lower search_price search_currency
                json_loads w) as Hs.
  pose proof (extract_entries D lower search_price search_currency
                json_loads w) as He.
  destruct (current_url D w) as [[u|e] w1].
  - destruct Hs as [pd [w' [Hrun [Hmodel _]]]].
    destruct He as [pd2 [w2 [Hrun2 Hentries]]].
    rewrite Hrun in Hrun2. inversion Hrun2; subst pd2 w2.
    rewrite Hrun. split; [exact Hmodel|].
    intros k v Hin. destruct (Hentries k v Hin) as [Hplain|Hv];
      [left; exact Hplain | right; exists w; auto].
  - rewrite Hs. exact I.
Qed.

Lemma retry_specifications_record w0 code pd :
  scraped' w0 code (Some pd) ->
  hoare (fun _ => True) (retry_specifications B lower pd)
        (fun pd' _ => scraped' w0 code (Some pd')) (fun _ => True).
Proof.
  intros [Hcode [Hmodel Hentries]]. unfold retry_specifications.
  apply hoare_skip; intros ?.
  apply hoare_skip; intros ?.
  apply hoare_skip; intros ?.
  apply hoare_skip; intros ?.
  eapply hoare_bind.
  { apply (hoare_returns (_extract_specs_from_all_elements D lower)
             (fun found => forall k v, In (k, v) found -> scanned_entry k v)).
    apply all_elements_returns. }
  intros additional_specs. cbv beta.
  intros w Hfound. cbv zeta.
  unfold bind. destruct (_save_page_for_debugging B w) as [[u|e] w']; [|exact I].
  unfold ret, scraped.
  destruct (nonempty additional_specs); cbn; auto.
  split; [exact Hcode|]. split; [exact Hmodel|].
  intros k v Hin. apply dict_update_in in Hin.
  destruct Hin as [Hin|Hin]; [now apply Hentries|].
  left. destruct (Hfound k v Hin) as [[Hlen _] [Hv [Hk Htv]]].
  repeat split; auto. intros ->. simpl in Hlen. lia.
Qed.


Lemma first_present_none timeout found selectors : forall w,
  (forall t selector w, In selector selectors ->
     fst (until_present B t selector w) = TimedOut) ->
  fst (first_present B timeout selectors found w) = Ok None.
Proof.
  induction selectors as [|selector rest IH]; intros w Hno; [reflexivity|].
  cbn [first_present].
  pose proof (Hno timeout selector w (or_introl eq_refl)) as H.
  destruct (until_present B timeout selector w) as [[e| |e] w'];
    simpl in H; try discriminate.
  apply IH. intros t s w0 Hin. apply Hno. now right.
Qed.

Lemma search_product_fails code :
  no_search_box B ->
  hoare (fun _ => True) (search_product B code)
        (fun found _ => found = false) (fun _ => False).
Proof.
  intros Hno w _. unfold search_product, try_except, bind.
  pose proof (first_present_none 15 (ret tt) search_selectors w Hno) as H.
  destruct (first_present B 15 search_selectors (ret tt) w) as [[r|e] w'];
    simpl in H; [|discriminate].
  inversion H. reflexivity.
Qed.

(** X21.  When the search box never appears, [scrape_product] returns
    [None], whatever else the browser does. *)
Theorem scrape_product_without_search_box code country_name country_url w :
  no_search_box B ->
  fst (scrape_product B lower search_price search_currency json_loads
         code country_name country_url w) = Ok None.
Proof.
  intros Hno. unfold scrape_product.
  match goal with
  | |- context [try_except ?body _ w] =>
      assert (Hbody : hoare (fun _ => True) body
                            (fun r _ => r = None) (fun _ => True))
  end.
  { apply hoare_skip; intros ?.
    eapply hoare_bind with (R := fun found _ => found = false).
    { eapply hoare_conseq;
        [now apply search_product_fails | auto | auto | intros s []]. }
    intros found. apply hoare_assume. intros ->. intros s _. reflexivity. }
  specialize (Hbody w I). unfold try_except.
  match goal with
  | H : match ?m with _ => _ end |- _ => destruct m as [[r|e] w']
  end; [simpl; now subst | reflexivity].
Qed.

End Scrape.

(** ** Runs on a concrete browser *)

Section Shops.
Import ExtractFixtures NavigateFixtures.

(** On the page with a search box the record has the code asked for and
    the specifications of the page. *)
Example scrape_product_shop :
  option_map (fun r => option_map
                         (fun pd => (product_code pd, specifications pd)) r)
    (match fst (scrape_product shop ascii_lower no_match no_match no_json
                  (py "76181-190") None (Some (py "https://shop/us/")) tt) with
     | Ok r => Some r
     | Raise _ => None
     end)
  = Some (Some (Some (py "76181-190"),
                [(py "Purity", py "99%"); (py "Color", py "clear")])).
Proof. vm_compute. reflexivity. Qed.

Lemma shop_without_search_has_no_box : no_search_box shop_without_search.
Proof. intros timeout selector w _. reflexivity. Defined.

Lemma scrape_product_without_search_box_witness :
  no_search_box shop_without_search
  /\ fst (scrape_product shop_without_search ascii_lower no_match no_match
            no_json (py "76181-190") None None tt) = Ok None.
Proof.
  split; [exact shop_without_search_has_no_box|].
  exact (scrape_product_without_search_box shop_without_search ascii_lower
           no_match no_match no_json (py "76181-190") None None tt
           shop_without_search_has_no_box).
Defined.

End Shops.

End NavigateFacts.

(* ===================================================================== *)
(** * Facts about [extract_countries_and_urls] *)
(* ===================================================================== *)

Module CountriesFacts.
Import PyStr PyStrFacts Monad MonadFacts Extract ExtractFacts Navigate.
Import Countries.
Import Csv(dict, dict_lookup, dict_mem, dict_get, dict_set, dict_keys).
Import CsvFacts(dict_keys_set_old, dict_keys_set_new).
Import TableFacts(dict_lookup_in).
Local Open Scope py_scope.

Lemma firstn_keys_set {V} (d : dict V) k v a b c :
  firstn 3 (dict_keys d) = [a; b; c] ->
  firstn 3 (dict_keys (dict_set d k v)) = [a; b; c].
Proof.
  intros H. destruct (dict_mem k d) eqn:E.
  - now rewrite dict_keys_set_old.
  - rewrite dict_keys_set_new by exact E.
    assert (Hlen : 3 <= List.length (dict_keys d)).
    { pose proof (length_firstn 3 (dict_keys d)) as Hle.
      rewrite H in Hle. cbn [List.length] in Hle. lia. }
    rewrite firstn_app.
    replace (3 - List.length (dict_keys d)) with 0 by lia.
    cbn [firstn]. now rewrite app_nil_r.
Qed.

Lemma well_filed_file_under key info d :
  listed info -> well_filed d -> well_filed (file_under key info d).
Proof.
  intros Hinfo [Hkeys Hall]. unfold file_under. split.
  - now apply firstn_keys_set.
  - intros region infos info' Hin Hinfo'.
    apply dict_set_in in Hin. destruct Hin as [Hin|[-> ->]].
    + exact (Hall region infos info' Hin Hinfo').
    + apply in_app_or in Hinfo'. destruct Hinfo' as [Hold|[<-|[]]]; auto.
      unfold dict_get in Hold.
      destruct (dict_lookup d key) as [l|] eqn:E; [|destruct Hold].
      apply dict_lookup_in in E. exact (Hall key l info' E Hold).
Qed.

Section Rules.

Variable B : Browser.
Variable P : dict (list country_info) -> Prop.

#[local] Notation "'C'" := (on_countries B P).

Lemma browse_countries {A} (m : Nav B A) : preserves C (browse B m).
Proof.
  intros s Hs. unfold browse. destruct (m (site s)) as [[a|e] w]; exact Hs.
Qed.

Lemma assign_current_region_countries region :
  preserves C (assign_current_region B region).
Proof. intros s Hs. exact Hs. Qed.

Lemma file_country_countries key info :
  (forall d, P d -> P (file_under key info d)) ->
  preserves C (file_country B key info).
Proof. intros H s Hs. unfold on_countries in *. simpl. auto. Qed.

End Rules.

Ltac countries_hook info_ok :=
  idtac;
  lazymatch goal with
  | |- hoare _ (browse _ _) _ _ => apply browse_countries
  | |- hoare _ (assign_current_region _ _) _ _ =>
      apply assign_current_region_countries
  | |- hoare _ (file_country _ _ _) _ _ =>
      apply file_country_countries; solve [info_ok]
  | |- hoare _ (when ?c _) _ _ => unfold when; destruct c eqn:?
  end.

Section Harvest.

Variable B : Browser.

#[local] Notation "'D'" := (driver B).
#[local] Notation "'W'" := (on_countries B well_filed).

Lemma nonempty_ne {A} (l : list A) : nonempty l = true -> l <> [].
Proof. destruct l; [discriminate | discriminate]. Qed.

Ltac listed_ok :=
  let d := fresh "d" in
  intros d; apply well_filed_file_under;
  unfold listed; cbn [country url];
  split; [|split; [apply strip_trimmed | discriminate]];
  match goal with
  | H : nonempty _ = true |- _ => exact (nonempty_ne _ H)
  | H : negb (nonempty _) = false |- _ =>
      apply negb_false_iff in H; exact (nonempty_ne _ H)
  end.

Lemma extract_countries_body_filed :
  preserves W (extract_countries_body B).
Proof. keep_with fail ltac:(countries_hook listed_ok). Qed.

(** X22.  Whatever the browser does, [extract_countries_and_urls] returns
    a dictionary, raising nothing; its first three keys are [Europe],
    [North America] and [Asia/Pacific] in this order, and every country
    filed under any region has a name that is not empty and is trimmed,
    and a link that is not empty. *)
Theorem extract_countries_well_filed w :
  exists found w',
    extract_countries_and_urls B w = (Ok found, w')
    /\ firstn 3 (dict_keys found)
       = [py "Europe"; py "North America"; py "Asia/Pacific"]
    /\ forall region infos info,
         In (region, infos) found -> In info infos ->
         country info <> [] /\ trimmed (country info) /\ url info <> [].
Proof.
  pose proof extract_countries_body_filed as Hbody.
  assert (Hinit : well_filed initial_countries_data).
  { split; [reflexivity|].
    intros region infos info Hin Hinfo. cbn [initial_countries_data In] in Hin.
    repeat (destruct Hin as [Hin|Hin];
            [inversion Hin; subst; destruct Hinfo|]).
    destruct Hin. }
  specialize (Hbody {| site := w; countries_data := initial_countries_data;
                       current_region := [] |} Hinit).
  unfold extract_countries_and_urls.
  set (s0 := {| site := w; countries_data := initial_countries_data;
                current_region := [] |}) in *.
  unfold bind, try_except, gets, ret.
  destruct (extract_countries_body B s0) as [[u|e] s'];
    eexists; eexists; (split; [reflexivity | exact Hbody]).
Qed.

End Harvest.

End CountriesFacts.

(* ===================================================================== *)
(** * Facts about the country files *)
(* ===================================================================== *)

Module CountryFilesFacts.
Import PyStr PyStrFacts Monad Extract Countries CountryFiles.
Import Csv(dict, dict_lookup, dict_mem, dict_get, dict_set, dict_keys).

Lemma region_entries_written region infos :
  region_entries region (map info_json infos)
  = Ok (map (fun info => flat_entry_json (region, info)) infos).
Proof.
  induction infos as [|info infos IH]; [reflexivity|].
  cbn [map region_entries info_json]. rewrite IH. reflexivity.
Qed.

Lemma flatten_regions_written countries_data :
  flatten_regions
    (map (fun entry => (fst entry, JList (map info_json (snd entry))))
         countries_data)
  = Ok (map flat_entry_json (flat_list countries_data)).
Proof.
  induction countries_data as [|[region infos] rest IH]; [reflexivity|].
  cbn [map flatten_regions fst snd]. rewrite region_entries_written, IH.
  unfold flat_list. cbn [flat_map fst snd]. rewrite map_app, map_map.
  reflexivity.
Qed.

Section Load.

Variable path_exists : string -> bool.
Variable json_load : string -> result json.

(** X23.  Whichever of the two files that [extract_countries] writes is
    there, [load_countries] returns the same list: the flat list read from
    [countries_flat_list.json], or the same list rebuilt from
    [countries_and_urls.json] when the flat file is missing. *)
Theorem load_countries_same_list countries_data :
  (path_exists flat_file = true ->
   json_load flat_file = Ok (flat_list_json (flat_list countries_data)))
  ->
  (path_exists nested_file = true ->
   json_load nested_file = Ok (countries_json countries_data))
  ->
  path_exists flat_file = true \/ path_exists nested_file = true ->
  load_countries path_exists json_load
  = Some (flat_list_json (flat_list countries_data)).
Proof.
  intros Hflat Hnested Hsome. unfold load_countries.
  destruct (path_exists flat_file) eqn:Ef.
  - now rewrite Hflat.
  - destruct Hsome as [Hsome|Hsome]; [discriminate|].
    rewrite Hsome, (Hnested Hsome). unfold countries_json.
    now rewrite flatten_regions_written.
Qed.

End Load.

Section LoadWitness.
Import CountryFilesFixtures.

Lemma load_countries_same_list_witness :
  (only_nested flat_file = true ->
   read_two_regions flat_file = Ok (flat_list_json (flat_list two_regions)))
  /\ (only_nested nested_file = true ->
      read_two_regions nested_file = Ok (countries_json two_regions))
  /\ (only_nested flat_file = true \/ only_nested nested_file = true)
  /\ load_countries only_nested read_two_regions
     = Some (flat_list_json (flat_list two_regions)).
Proof.
  assert (H1 : only_nested flat_file = true ->
               read_two_regions flat_file
               = Ok (flat_list_json (flat_list two_regions)))
    by (intros H; discriminate H).
  assert (H2 : only_nested nested_file = true ->
               read_two_regions nested_file = Ok (countries_json two_regions))
    by (intros _; reflexivity).
  assert (H3 : only_nested flat_file = true \/ only_nested nested_file = true)
    by (right; reflexivity).
  split; [exact H1|]. split; [exact H2|]. split; [exact H3|].
  exact (load_countries_same_list only_nested read_two_regions two_regions
           H1 H2 H3).
Defined.

End LoadWitness.

End CountryFilesFacts.

(* ===================================================================== *)
(** * Facts about [display_countries] and [get_country_selection] *)
(* ===================================================================== *)

Module SelectionFacts.
Import PyStr PyStrFacts Selection.
Import Csv(dict, dict_lookup, dict_mem, dict_get, dict_set, dict_keys, sorted,
           str_le, str_lt).
Import CsvFacts(dict_keys_set_old, dict_keys_set_new, dict_mem_keys,
                sorted_perm, sorted_sorted, sorted_strict,
                str_ltb_asym, str_le_trans, str_ltb_irrefl,
                dict_lookup_set_same, dict_lookup_set_other).
Import TableFacts(dict_lookup_in).
Import ExtractFacts(dict_set_in).

(** ** Sorting by a key *)

Section SortedBy.

Context {X : Type}.
Variable key : X -> str.

Let key_le (a b : X) : Prop := str_le (key a) (key b).

Lemma insert_by_perm x l : Permutation (insert_by key x l) (x :: l).
Proof.
  induction l as [|y l IH]; simpl; auto.
  destruct (str_ltb (key x) (key y)); auto.
  rewrite IH. apply perm_swap.
Qed.

Lemma insert_by_sorted x l :
  StronglySorted key_le l -> StronglySorted key_le (insert_by key x l).
Proof.
  induction l as [|y l IH]; intros Hl; simpl.
  - repeat constructor.
  - inversion Hl as [|? ? Hl' Hy]; subst.
    destruct (str_ltb (key x) (key y)) eqn:E.
    + constructor; auto. constructor.
      * apply str_ltb_asym. exact E.
      * eapply Forall_impl; [|exact Hy]. intros z Hz.
        eapply str_le_trans; [|exact Hz]. apply str_ltb_asym. exact E.
    + constructor; auto.
      eapply Permutation_Forall.
      * symmetry. apply insert_by_perm.
      * constructor; auto.
Qed.

Lemma sorted_by_from acc l :
  StronglySorted key_le acc ->
  StronglySorted key_le (fold_left (fun a x => insert_by key x a) l acc)
  /\ Permutation (fold_left (fun a x => insert_by key x a) l acc) (acc ++ l).
Proof.
  revert acc; induction l as [|x l IH]; intros acc Hacc; simpl.
  - split; auto. now rewrite app_nil_r.
  - destruct (IH (insert_by key x acc)) as [H1 H2].
    + now apply insert_by_sorted.
    + split; auto. rewrite H2, insert_by_perm.
      apply Permutation_middle.
Qed.

Lemma sorted_by_sorted l :
  StronglySorted (fun a b => str_le (key a) (key b)) (sorted_by key l).
Proof. apply sorted_by_from. constructor. Qed.

Lemma sorted_by_perm l : Permutation (sorted_by key l) l.
Proof. apply (sorted_by_from [] l). constructor. Qed.

(** The sort looks at the keys only. *)
Lemma insert_by_ext (key' : X -> str) x l :
  (forall y, key' y = key y) -> insert_by key' x l = insert_by key x l.
Proof.
  intros Hk. induction l as [|y l IH]; [reflexivity|].
  cbn [insert_by]. now rewrite !Hk, IH.
Qed.

Lemma sorted_by_ext (key' : X -> str) l :
  (forall y, key' y = key y) -> sorted_by key' l = sorted_by key l.
Proof.
  intros Hk. unfold sorted_by. generalize (@nil X).
  induction l as [|x l IH]; intros acc; [reflexivity|].
  cbn [fold_left]. now rewrite (insert_by_ext key' x acc Hk), IH.
Qed.

End SortedBy.

(** ** Sorted lists *)

Lemma strongly_sorted_app {X} (R : X -> X -> Prop) a b :
  StronglySorted R a -> StronglySorted R b ->
  (forall x y, In x a -> In y b -> R x y) ->
  StronglySorted R (a ++ b).
Proof.
  induction a as [|x a IH]; intros Ha Hb Hab; [exact Hb|].
  inversion Ha as [|? ? Ha' Hx]; subst. cbn [app]. constructor.
  - apply IH; auto. intros u v Hu Hv. apply Hab; auto. now right.
  - apply Forall_app. split; auto.
    apply Forall_forall. intros y Hy. apply Hab; auto. now left.
Qed.

Lemma strongly_sorted_among {X} (R R' : X -> X -> Prop) l :
  StronglySorted R l ->
  (forall x y, In x l -> In y l -> R x y -> R' x y) ->
  StronglySorted R' l.
Proof.
  induction l as [|x l IH]; intros Hl Himp; [constructor|].
  inversion Hl as [|? ? Hl' Hx]; subst. constructor.
  - apply IH; auto. intros u v Hu Hv. apply Himp; now right.
  - rewrite Forall_forall in *. intros y Hy.
    apply Himp; [now left | now right | now apply Hx].
Qed.

(** ** Dictionaries of lists *)

Lemma dict_get_set_perm {X} (regions : dict (list X)) r c :
  Permutation
    (List.concat (map snd (dict_set regions r (dict_get regions r [] ++ [c]))))
    (c :: List.concat (map snd regions)).
Proof.
  unfold dict_get.
  induction regions as [|[k v] regions IH]; cbn [dict_lookup dict_set].
  - cbn. apply Permutation_refl.
  - destruct (str_eqb k r) eqn:E.
    + cbn [map snd List.concat]. rewrite <- app_assoc. cbn [app].
      symmetry. apply Permutation_middle.
    + cbn [map snd List.concat]. rewrite IH.
      symmetry. apply Permutation_middle.
Qed.

Lemma dict_get_keys {V} (d : dict V) default :
  NoDup (dict_keys d) ->
  map (fun k => dict_get d k default) (dict_keys d) = map snd d.
Proof.
  unfold dict_get.
  induction d as [|[k v] d IH]; intros Hnd; [reflexivity|].
  inversion Hnd as [|? ? Hk Hnd']; subst.
  cbn [dict_keys map fst snd dict_lookup]. rewrite str_eqb_refl. f_equal.
  rewrite <- IH by exact Hnd'. apply map_ext_in. intros k' Hk'.
  destruct (str_eqb k k') eqn:E; [|reflexivity].
  apply str_eqb_eq in E. subst k'. contradiction.
Qed.

Lemma dict_get_in {V} (d : dict (list V)) k (x : V) :
  In x (dict_get d k []) -> exists l, In (k, l) d /\ In x l.
Proof.
  unfold dict_get. destruct (dict_lookup d k) as [l|] eqn:E; [|intros []].
  intros Hx. exists l. split; auto. now apply dict_lookup_in.
Qed.

(** ** Numbered lists *)

Lemma combine_app_same {X Y} (a : list X) : forall (a' : list Y) b b',
  List.length a = List.length a' ->
  combine (a ++ b) (a' ++ b') = combine a a' ++ combine b b'.
Proof.
  induction a as [|x a IH]; intros [|y a'] b b' Hlen;
    try discriminate; [reflexivity|].
  cbn [app combine]. f_equal. apply IH. now inversion Hlen.
Qed.

Lemma numbered_from_cons {X} start (x : X) l :
  numbered_from start (x :: l) = (start, x) :: numbered_from (S start) l.
Proof. reflexivity. Qed.

Lemma numbered_from_app {X} start (a b : list X) :
  numbered_from start (a ++ b)
  = numbered_from start a ++ numbered_from (start + List.length a) b.
Proof.
  unfold numbered_from. rewrite length_app, seq_app.
  rewrite combine_app_same by (now rewrite length_seq). reflexivity.
Qed.

Lemma numbered_from_nth {X} (l : list X) : forall start k x,
  nth_error l k = Some x ->
  nth_error (numbered_from start l) k = Some (start + k, x).
Proof.
  induction l as [|y l IH]; intros start [|k] x H; try discriminate.
  - inversion H. cbn. now rewrite Nat.add_0_r.
  - rewrite numbered_from_cons. cbn [nth_error] in *.
    rewrite (IH (S start) k x H). f_equal. f_equal. lia.
Qed.

Lemma numbered_from_in {X} (l : list X) : forall start n x,
  In (n, x) (numbered_from start l) -> start <= n /\ In x l.
Proof.
  induction l as [|y l IH]; intros start n x H; [destruct H|].
  rewrite numbered_from_cons in H. destruct H as [H|H].
  - inversion H; subst. split; [lia | now left].
  - destruct (IH _ _ _ H). split; [lia | now right].
Qed.

Lemma numbered_from_once {X} (l : list X) : forall start n m x,
  NoDup l ->
  In (n, x) (numbered_from start l) -> In (m, x) (numbered_from start l) ->
  n = m.
Proof.
  induction l as [|y l IH]; intros start n m x Hnd Hn Hm; [destruct Hn|].
  inversion Hnd as [|? ? Hy Hnd']; subst.
  rewrite numbered_from_cons in Hn, Hm.
  destruct Hn as [Hn|Hn], Hm as [Hm|Hm].
  - congruence.
  - inversion Hn; subst. apply numbered_from_in in Hm. tauto.
  - inversion Hm; subst. apply numbered_from_in in Hn. tauto.
  - eauto.
Qed.

Lemma numbered_lines_app a b :
  numbered_lines (a ++ b) = numbered_lines a ++ numbered_lines b.
Proof. unfold numbered_lines. apply flat_map_app. Qed.

(** ** The index that an object is left with *)

Lemma index_given_app a : forall start b r before,
  index_given start (a ++ b) r before
  = index_given (start + List.length a) b r (index_given start a r before).
Proof.
  induction a as [|x a IH]; intros start b r before; cbn [app index_given].
  - now rewrite Nat.add_0_r.
  - rewrite IH. cbn [List.length]. f_equal. lia.
Qed.

Lemma index_given_out l : forall start r before,
  ~ In r l -> index_given start l r before = before.
Proof.
  induction l as [|x l IH]; intros start r before Hr; [reflexivity|].
  cbn [index_given]. rewrite IH by (intros H; apply Hr; now right).
  destruct (Nat.eqb_spec r x); [|reflexivity].
  exfalso. apply Hr. now left.
Qed.

(** An object of the list is left with the last of its numbers. *)
Lemma index_given_last l : forall start r before,
  In r l ->
  exists m, index_given start l r before = Some m
    /\ In (m, r) (numbered_from start l)
    /\ forall n, In (n, r) (numbered_from start l) -> n <= m.
Proof.
  induction l as [|x l IH]; intros start r before Hr; [destruct Hr|].
  cbn [index_given]. rewrite numbered_from_cons.
  destruct (in_dec Nat.eq_dec r l) as [Hin|Hout].
  - destruct (IH (S start) r (if Nat.eqb r x then Some start else before) Hin)
      as [m [Hm [Hnum Hlast]]].
    exists m. split; [exact Hm|]. split; [now right|].
    intros n [Hn|Hn]; [|now apply Hlast].
    inversion Hn; subst. apply numbered_from_in in Hnum. lia.
  - destruct Hr as [->|Hr]; [|contradiction].
    rewrite index_given_out by exact Hout. rewrite Nat.eqb_refl.
    exists start. split; [reflexivity|]. split; [now left|].
    intros n [Hn|Hn]; [inversion Hn; lia|].
    apply numbered_from_in in Hn. tauto.
Qed.

(** ** The countries by region *)

Section Display.

Variable h : heap.

#[local] Notation "'region_at'" := (fun r : loc => region_of (entry (h r))).
#[local] Notation "'name_at'" := (fun r : loc => name_key (entry (h r))).
#[local] Notation "'shown_at'" := (fun r : loc => shown_name (entry (h r))).

Lemma group_from_perm countries : forall regions : dict (list loc),
  Permutation
    (List.concat
       (map snd
          (fold_left (fun regions country =>
                        let region := region_of (entry (h country)) in
                        dict_set regions region
                          (dict_get regions region [] ++ [country]))
                     countries regions)))
    (List.concat (map snd regions) ++ countries).
Proof.
  induction countries as [|c countries IH]; intros regions; cbn [fold_left].
  - now rewrite app_nil_r.
  - rewrite IH. cbv zeta. rewrite dict_get_set_perm. cbn [app].
    apply Permutation_middle.
Qed.

Lemma group_by_region_perm countries :
  Permutation (List.concat (map snd (group_by_region h countries)))
              countries.
Proof. apply (group_from_perm countries []). Qed.

(** The invariant of the grouping: no region twice, and every country
    under its own region. *)
Definition grouped (regions : dict (list loc)) : Prop :=
  NoDup (dict_keys regions)
  /\ forall r cs c, In (r, cs) regions -> In c cs -> region_at c = r.

Lemma grouped_step regions c :
  grouped regions ->
  grouped (dict_set regions (region_at c)
             (dict_get regions (region_at c) [] ++ [c])).
Proof.
  intros [Hnd Hall]. split.
  - destruct (dict_mem (region_at c) regions) eqn:E.
    + now rewrite dict_keys_set_old.
    + rewrite dict_keys_set_new by exact E.
      apply NoDup_app; auto.
      * repeat constructor. intros [].
      * intros k Hk [<-|[]]. apply dict_mem_keys in Hk. congruence.
  - intros r cs c' Hin Hc'. apply dict_set_in in Hin.
    destruct Hin as [Hin|[-> ->]]; [eauto|].
    apply in_app_or in Hc'. destruct Hc' as [Hold|[<-|[]]]; auto.
    unfold dict_get in Hold.
    destruct (dict_lookup regions (region_at c)) as [l|] eqn:E;
      [|destruct Hold].
    apply dict_lookup_in in E. eauto.
Qed.

Lemma group_by_region_grouped countries :
  grouped (group_by_region h countries).
Proof.
  unfold group_by_region.
  assert (H : forall regions, grouped regions ->
            grouped (fold_left (fun regions country =>
                        let region := region_of (entry (h country)) in
                        dict_set regions region
                          (dict_get regions region [] ++ [country]))
                     countries regions)).
  { induction countries as [|c countries IH]; intros regions Hr; auto.
    cbn [fold_left]. apply IH. now apply grouped_step. }
  apply H. split; [constructor | intros r cs c []].
Qed.

(** ** The display *)

(** The fields of the objects are as in [h]. *)
Definition same_entries (st : display) : Prop :=
  forall r, entry (objects st r) = entry (h r).

Lemma numbered_lines_countries start cs :
  numbered_lines
    (map (fun p => Numbered (fst p) (shown_at (snd p)))
         (numbered_from start cs))
  = map (fun p => (fst p, shown_at (snd p))) (numbered_from start cs).
Proof.
  unfold numbered_lines.
  induction (numbered_from start cs) as [|p l IH]; [reflexivity|].
  cbn [map flat_map app]. now rewrite IH.
Qed.

Lemma show_countries cs : forall st,
  same_entries st ->
  index (fold_left show_country cs st) = index st + List.length cs
  /\ printed (fold_left show_country cs st)
     = printed st
       ++ map (fun p => Numbered (fst p) (shown_at (snd p)))
              (numbered_from (index st) cs)
  /\ all_countries_flat (fold_left show_country cs st)
     = all_countries_flat st ++ cs
  /\ same_entries (fold_left show_country cs st)
  /\ forall r,
       selection_index (objects (fold_left show_country cs st) r)
       = index_given (index st) cs r (selection_index (objects st r)).
Proof.
  induction cs as [|c cs IH]; intros st Hst; cbn [fold_left].
  - cbn. rewrite Nat.add_0_r, !app_nil_r. auto.
  - assert (Hst1 : same_entries (show_country st c)).
    { intros r. cbn. unfold assign_selection_index.
      destruct (Nat.eqb r c); [cbn|]; apply Hst. }
    destruct (IH (show_country st c) Hst1) as [H1 [H2 [H3 [H4 H5]]]].
    rewrite H1, H2, H3. rewrite numbered_from_cons.
    cbn [index printed all_countries_flat show_country List.length map
         fst snd].
    rewrite <- !app_assoc. cbn [app]. rewrite (Hst c).
    split; [lia|]. split; [reflexivity|]. split; [reflexivity|].
    split; [exact H4|].
    intros r. rewrite H5. cbn [index_given index objects show_country].
    unfold assign_selection_index.
    destruct (Nat.eqb r c); reflexivity.
Qed.

(** The countries in the order of the display. *)
Definition in_display_order (regions : dict (list loc))
           (keys : list str) : list loc :=
  flat_map (fun region => sorted_by name_at (dict_get regions region []))
           keys.

Lemma show_region_run regions st region :
  same_entries st ->
  let cs := sorted_by name_at (dict_get regions region []) in
  index (show_region regions st region) = index st + List.length cs
  /\ printed (show_region regions st region)
     = (printed st ++ [Heading region])
       ++ map (fun p => Numbered (fst p) (shown_at (snd p)))
              (numbered_from (index st) cs)
  /\ all_countries_flat (show_region regions st region)
     = all_countries_flat st ++ cs
  /\ same_entries (show_region regions st region)
  /\ forall r,
       selection_index (objects (show_region regions st region) r)
       = index_given (index st) cs r (selection_index (objects st r)).
Proof.
  intros Hst cs. unfold show_region. cbv zeta.
  rewrite (sorted_by_ext name_at
             (fun x => name_key (entry (objects st x))))
    by (intros y; now rewrite (Hst y)).
  fold cs.
  apply (show_countries cs
           {| index := index st; printed := printed st ++ [Heading region];
              all_countries_flat := all_countries_flat st;
              objects := objects st |}).
  exact Hst.
Qed.

Lemma show_regions regions keys : forall st,
  same_entries st ->
  index (fold_left (show_region regions) keys st)
  = index st + List.length (in_display_order regions keys)
  /\ numbered_lines (printed (fold_left (show_region regions) keys st))
     = numbered_lines (printed st)
       ++ map (fun p => (fst p, shown_at (snd p)))
              (numbered_from (index st) (in_display_order regions keys))
  /\ all_countries_flat (fold_left (show_region regions) keys st)
     = all_countries_flat st ++ in_display_order regions keys
  /\ same_entries (fold_left (show_region regions) keys st)
  /\ forall r,
       selection_index (objects (fold_left (show_region regions) keys st) r)
       = index_given (index st) (in_display_order regions keys) r
           (selection_index (objects st r)).
Proof.
  induction keys as [|region keys IH]; intros st Hst; cbn [fold_left].
  - cbn. rewrite Nat.add_0_r, !app_nil_r. auto.
  - destruct (show_region_run regions st region Hst)
      as [R1 [R2 [R3 [R4 R5]]]].
    destruct (IH (show_region regions st region) R4)
      as [H1 [H2 [H3 [H4 H5]]]].
    rewrite H1, H2, H3, R1, R2, R3. clear H1 H2 H3 IH.
    unfold in_display_order. cbn [flat_map].
    fold (in_display_order regions keys).
    rewrite length_app, numbered_from_app, !map_app.
    rewrite !numbered_lines_app, numbered_lines_countries.
    cbn [numbered_lines flat_map app]. rewrite <- !app_assoc.
    split; [lia|]. split; [reflexivity|]. split; [reflexivity|].
    split; [exact H4|].
    intros r. rewrite H5, R1, R5. now rewrite index_given_app.
Qed.

Lemma in_display_order_perm countries :
  Permutation
    (in_display_order (group_by_region h countries)
       (sorted (dict_keys (group_by_region h countries))))
    countries.
Proof.
  set (regions := group_by_region h countries).
  destruct (group_by_region_grouped countries) as [Hnd _]. fold regions in Hnd.
  unfold in_display_order.
  rewrite (Permutation_flat_map _ (sorted_perm (dict_keys regions))).
  transitivity (flat_map (fun region => dict_get regions region [])
                         (dict_keys regions)).
  - clear Hnd. induction (dict_keys regions) as [|k ks IH]; [constructor|].
    cbn [flat_map]. apply Permutation_app; [apply sorted_by_perm | exact IH].
  - rewrite flat_map_concat_map, (dict_get_keys regions [] Hnd).
    apply group_by_region_perm.
Qed.

Lemma in_display_order_sorted regions keys :
  grouped regions ->
  StronglySorted str_lt keys ->
  StronglySorted (fun a b => display_le (entry (h a)) (entry (h b)))
                 (in_display_order regions keys).
Proof.
  intros [_ Hall] Hkeys.
  assert (Hreg : forall region c,
            In c (sorted_by name_at (dict_get regions region [])) ->
            region_at c = region).
  { intros region c Hc.
    apply (Permutation_in _ (sorted_by_perm _ _)) in Hc.
    apply dict_get_in in Hc.
    destruct Hc as [l [Hl Hc]]. eauto. }
  induction Hkeys as [|region keys Hkeys IH Hlt]; [constructor|].
  unfold in_display_order. cbn [flat_map].
  apply strongly_sorted_app.
  - eapply strongly_sorted_among; [apply sorted_by_sorted|].
    intros x y Hx Hy Hle. right. split.
    + now rewrite (Hreg _ _ Hx), (Hreg _ _ Hy).
    + exact Hle.
  - exact IH.
  - intros x y Hx Hy. left. rewrite (Hreg _ _ Hx).
    apply in_flat_map in Hy. destruct Hy as [region' [Hr Hy]].
    rewrite (Hreg _ _ Hy). rewrite Forall_forall in Hlt. now apply Hlt.
Qed.

(** The run of [display_countries] on a list that is not empty. *)
Lemma display_countries_run countries :
  countries <> [] ->
  exists ordered,
    value (display_countries h countries) = Some ordered
    /\ Permutation ordered countries
    /\ StronglySorted (fun a b => display_le (entry (h a)) (entry (h b)))
                      ordered
    /\ numbered_lines (lines (display_countries h countries))
       = map (fun p => (fst p, shown_at (snd p))) (numbered_from 1 ordered)
    /\ (forall r, entry (heap_after (display_countries h countries) r)
                  = entry (h r))
    /\ (forall r,
          selection_index (heap_after (display_countries h countries) r)
          = index_given 1 ordered r (selection_index (h r))).
Proof.
  intros Hne. destruct countries as [|c cs]; [congruence|].
  set (regions := group_by_region h (c :: cs)).
  set (keys := sorted (dict_keys regions)).
  exists (in_display_order regions keys).
  destruct (show_regions regions keys
              {| index := 1; printed := []; all_countries_flat := [];
                 objects := h |})
    as [_ [H2 [H3 [H4 H5]]]]; [intros r; reflexivity|].
  cbn [index printed all_countries_flat objects numbered_lines flat_map app]
    in H2, H3, H5.
  unfold display_countries. fold regions. fold keys. cbv zeta.
  cbn [value lines heap_after].
  split; [now rewrite H3|].
  split; [apply in_display_order_perm|].
  split.
  { apply in_display_order_sorted; [apply group_by_region_grouped|].
    apply sorted_strict; [|apply sorted_sorted].
    eapply Permutation_NoDup; [symmetry; apply sorted_perm|].
    apply group_by_region_grouped. }
  split; [exact H2|]. split; [exact H4 | exact H5].
Qed.

(** What the display leaves in an object of the list. *)
Lemma displayed_object countries ordered r :
  Permutation ordered countries ->
  (forall r, entry (heap_after (display_countries h countries) r)
             = entry (h r)) ->
  (forall r, selection_index (heap_after (display_countries h countries) r)
             = index_given 1 ordered r (selection_index (h r))) ->
  In r countries ->
  exists m,
    as_dict (heap_after (display_countries h countries) r)
    = with_selection_index m (entry (h r))
    /\ In (m, r) (numbered_from 1 ordered)
    /\ forall n, In (n, r) (numbered_from 1 ordered) -> n <= m.
Proof.
  intros Hperm Hentry Hindex Hr.
  assert (Hin : In r ordered)
    by (eapply Permutation_in; [symmetry; exact Hperm | exact Hr]).
  destruct (index_given_last ordered 1 r (selection_index (h r)) Hin)
    as [m [Hm [Hnum Hlast]]].
  exists m. split; [|split; assumption].
  unfold as_dict. now rewrite Hindex, Hm, Hentry.
Qed.

(** X24.  For a list that is not empty, [display_countries] returns the
    same objects in the order of the display, sorted by region and, within
    a region, by name, and the line with the number [k] shows the name of
    the object at place [k], counted from 1.  It writes into the objects of
    the list their selection index and changes nothing else: an object is
    left with the last number under which it was printed.  When the
    objects of the list are distinct, as in a list that was loaded, the
    object at place [k] has the selection index [k]. *)
Theorem display_countries_numbered countries :
  countries <> [] ->
  exists ordered,
    value (display_countries h countries) = Some ordered
    /\ Permutation ordered countries
    /\ StronglySorted (fun a b => display_le (entry (h a)) (entry (h b)))
                      ordered
    /\ numbered_lines (lines (display_countries h countries))
       = map (fun p => (fst p, shown_name (entry (h (snd p)))))
             (numbered_from 1 ordered)
    /\ (forall r, entry (heap_after (display_countries h countries) r)
                  = entry (h r))
    /\ (forall r, ~ In r countries ->
          selection_index (heap_after (display_countries h countries) r)
          = selection_index (h r))
    /\ (forall r, In r countries ->
          exists m,
            as_dict (heap_after (display_countries h countries) r)
            = with_selection_index m (entry (h r))
            /\ In (m, r) (numbered_from 1 ordered)
            /\ forall n, In (n, r) (numbered_from 1 ordered) -> n <= m)
    /\ (NoDup countries ->
        forall n r, In (n, r) (numbered_from 1 ordered) ->
          as_dict (heap_after (display_countries h countries) r)
          = with_selection_index n (entry (h r))).
Proof.
  intros Hne.
  destruct (display_countries_run countries Hne)
    as [ordered [Hvalue [Hperm [Hsorted [Hlines [Hentry Hindex]]]]]].
  exists ordered.
  split; [exact Hvalue|]. split; [exact Hperm|]. split; [exact Hsorted|].
  split; [exact Hlines|]. split; [exact Hentry|].
  split; [|split].
  - intros r Hr. rewrite Hindex. apply index_given_out.
    intros Hin. apply Hr. eapply Permutation_in; eauto.
  - intros r Hr. now apply (displayed_object countries ordered r).
  - intros Hnd n r Hn.
    assert (Hr : In r countries).
    { eapply Permutation_in; [exact Hperm|].
      now apply numbered_from_in in Hn. }
    destruct (displayed_object countries ordered r Hperm Hentry Hindex Hr)
      as [m [Hm [Hnum _]]].
    rewrite Hm. f_equal.
    apply (numbered_from_once ordered 1 m n r); auto.
    eapply Permutation_NoDup; [symmetry; exact Hperm | exact Hnd].
Qed.

(** ** The selection *)

(** The object at a place of the list that is displayed. *)
Lemma displayed_at countries k :
  countries <> [] ->
  k < List.length countries ->
  exists all country,
    value (display_countries h countries) = Some all
    /\ List.length all = List.length countries
    /\ nth k all 0 = country
    /\ In country countries
    /\ In (S k, country) (numbered_from 1 all)
    /\ In (S k, shown_name (entry (h country)))
          (numbered_lines (lines (display_countries h countries)))
    /\ exists m,
         as_dict (heap_after (display_countries h countries) country)
         = with_selection_index m (entry (h country))
         /\ S k <= m
         /\ In (m, shown_name (entry (h country)))
               (numbered_lines (lines (display_countries h countries)))
         /\ (NoDup countries -> m = S k).
Proof.
  intros Hne Hk.
  destruct (display_countries_run countries Hne)
    as [ordered [Hvalue [Hperm [_ [Hlines [Hentry Hindex]]]]]].
  assert (Hlen : List.length ordered = List.length countries)
    by (now apply Permutation_length).
  destruct (nth_error ordered k) as [country|] eqn:Ek;
    [|apply nth_error_None in Ek; lia].
  pose proof (numbered_from_nth ordered 1 k country Ek) as Hnum.
  apply nth_error_In in Hnum. cbn [Nat.add] in Hnum.
  assert (Hin : In country countries).
  { eapply Permutation_in; [exact Hperm|]. eapply nth_error_In; eauto. }
  assert (Hshown : forall n, In (n, country) (numbered_from 1 ordered) ->
            In (n, shown_name (entry (h country)))
               (numbered_lines (lines (display_countries h countries)))).
  { intros n Hn. rewrite Hlines.
    exact (in_map (fun p => (fst p, shown_name (entry (h (snd p)))))
                  _ (n, country) Hn). }
  exists ordered, country.
  split; [exact Hvalue|]. split; [exact Hlen|].
  split; [now apply nth_error_nth|]. split; [exact Hin|].
  split; [exact Hnum|]. split; [now apply Hshown|].
  destruct (displayed_object countries ordered country Hperm Hentry Hindex Hin)
    as [m [Hm [Hmnum Hlast]]].
  exists m. split; [exact Hm|]. split; [now apply Hlast|].
  split; [now apply Hshown|].
  intros Hnd. apply (numbered_from_once ordered 1 m (S k) country); auto.
  eapply Permutation_NoDup; [symmetry; exact Hperm | exact Hnd].
Qed.

Section Ask.

Variable lower : str -> str.
Variable parse_int : str -> option Z.

Lemma ask_selected all answers : forall c,
  ask lower parse_int all answers = Selected c ->
  exists k, k < List.length all /\ c = nth k all 0.
Proof.
  induction answers as [|[s|] answers IH]; intros c H; cbn [ask] in H;
    try discriminate.
  cbv zeta in H.
  destruct (str_eqb (lower (strip s)) (py "q")); [discriminate|].
  destruct (parse_int (lower (strip s))) as [n|]; [|now apply IH].
  destruct ((1 <=? n)%Z && (n <=? Z.of_nat (List.length all))%Z) eqn:E;
    [|now apply IH].
  apply andb_true_iff in E. destruct E as [E1 E2].
  apply Z.leb_le in E1, E2. inversion H.
  exists (Z.to_nat (n - 1)). split; [lia | reflexivity].
Qed.

Lemma ask_first_valid all again s rest n :
  Forall (asked_again lower parse_int (List.length all)) again ->
  lower (strip s) <> py "q" ->
  parse_int (lower (strip s)) = Some (Z.of_nat n) ->
  1 <= n <= List.length all ->
  ask lower parse_int all (again ++ Typed s :: rest)
  = Selected (nth (n - 1) all 0).
Proof.
  intros Hagain Hq Hn Hrange.
  induction Hagain as [|a again [t [-> [Ht Hparse]]] _ IH]; cbn [app ask].
  - cbv zeta. apply str_eqb_neq in Hq. rewrite Hq, Hn.
    replace ((1 <=? Z.of_nat n)%Z
             && (Z.of_nat n <=? Z.of_nat (List.length all))%Z)
      with true
      by (symmetry; apply andb_true_iff; split; apply Z.leb_le; lia).
    f_equal. f_equal. lia.
  - cbv zeta. apply str_eqb_neq in Ht. rewrite Ht.
    destruct (parse_int (lower (strip t))) as [m|]; [|exact IH].
    replace ((1 <=? m)%Z && (m <=? Z.of_nat (List.length all))%Z)
      with false; [exact IH|].
    symmetry. apply andb_false_iff.
    destruct (Z.leb_spec 1 m); [|now left].
    right. apply Z.leb_gt. lia.
Qed.

Lemma get_country_selection_run countries answers :
  countries <> [] ->
  exists all,
    value (display_countries h countries) = Some all
    /\ List.length all = List.length countries
    /\ lines (get_country_selection lower parse_int h countries answers)
       = lines (display_countries h countries)
    /\ value (get_country_selection lower parse_int h countries answers)
       = ask lower parse_int all answers
    /\ heap_after (get_country_selection lower parse_int h countries answers)
       = heap_after (display_countries h countries).
Proof.
  intros Hne.
  destruct (displayed_at countries 0 Hne) as [all [_ [Hall [Hlen _]]]].
  { destruct countries; [congruence | simpl; lia]. }
  exists all. split; [exact Hall|]. split; [exact Hlen|].
  unfold get_country_selection.
  destruct countries as [|c0 countries0] eqn:Ec; [congruence|].
  rewrite <- Ec in *. cbv zeta. rewrite Hall.
  destruct all as [|c all]; [rewrite Ec in Hlen; discriminate Hlen|].
  cbn [lines value heap_after]. auto.
Qed.

(** X25.  The first answer that is a number of the list selects the
    object displayed under that number: after answers that are asked
    again, the answer [n] makes [get_country_selection] return an object
    of the list whose name the line with the number [n] shows.  The object
    has the selection index under which its name was printed last, which
    is [n] when the objects of the list are distinct. *)
Theorem get_country_selection_answer countries again s rest n :
  countries <> [] ->
  Forall (asked_again lower parse_int (List.length countries)) again ->
  lower (strip s) <> py "q" ->
  parse_int (lower (strip s)) = Some (Z.of_nat n) ->
  1 <= n <= List.length countries ->
  exists country,
    In country countries
    /\ value (get_country_selection lower parse_int h countries
                (again ++ Typed s :: rest))
       = Selected country
    /\ In (n, shown_name (entry (h country)))
          (numbered_lines
             (lines (get_country_selection lower parse_int h countries
                       (again ++ Typed s :: rest))))
    /\ exists m,
         as_dict (heap_after (get_country_selection lower parse_int h
                                countries (again ++ Typed s :: rest))
                             country)
         = with_selection_index m (entry (h country))
         /\ n <= m
         /\ In (m, shown_name (entry (h country)))
               (numbered_lines
                  (lines (get_country_selection lower parse_int h countries
                            (again ++ Typed s :: rest))))
         /\ (NoDup countries -> m = n).
Proof.
  intros Hne Hagain Hq Hn Hrange.
  destruct (displayed_at countries (n - 1) Hne)
    as [all [country [Hall [Hlen [Hnth [Hin [_ [Hline Hobject]]]]]]]]; [lia|].
  replace (S (n - 1)) with n in * by lia.
  destruct (get_country_selection_run countries (again ++ Typed s :: rest) Hne)
    as [all' [Hall' [_ [Hlines [Hvalue Hheap]]]]].
  rewrite Hall in Hall'. inversion Hall'; subst all'.
  exists country. split; [exact Hin|].
  rewrite Hlines, Hvalue, Hheap.
  split; [|split; [exact Hline | exact Hobject]].
  rewrite <- Hlen in Hagain, Hrange.
  rewrite (ask_first_valid all again s rest n Hagain Hq Hn Hrange).
  now rewrite Hnth.
Qed.

(** X26.  Whatever is typed, a country that [get_country_selection]
    returns is an object of the list, and the dictionary it is then is the
    country as it was loaded with the selection index under which its name
    was printed. *)
Theorem get_country_selection_displayed countries answers c :
  value (get_country_selection lower parse_int h countries answers)
  = Selected c ->
  In c countries
  /\ exists n,
       as_dict (heap_after (get_country_selection lower parse_int h
                              countries answers) c)
       = with_selection_index n (entry (h c))
       /\ In (n, shown_name (entry (h c)))
             (numbered_lines
                (lines (get_country_selection lower parse_int h countries
                          answers))).
Proof.
  intros Hsel.
  destruct countries as [|c0 countries0] eqn:Ec; [discriminate Hsel|].
  rewrite <- Ec in *.
  assert (Hne : countries <> []) by (rewrite Ec; discriminate).
  destruct (get_country_selection_run countries answers Hne)
    as [all [Hall [Hlen [Hlines [Hvalue Hheap]]]]].
  rewrite Hvalue in Hsel. rewrite Hlines, Hheap.
  destruct (ask_selected all answers c Hsel) as [k [Hk ->]].
  destruct (displayed_at countries k Hne)
    as [all' [country [Hall' [_ [Hnth [Hin [_ [_ Hobject]]]]]]]]; [lia|].
  rewrite Hall in Hall'. inversion Hall'; subst all'.
  rewrite Hnth. split; [exact Hin|].
  destruct Hobject as [m [Hm [_ [Hline _]]]].
  exists m. split; assumption.
Qed.

End Ask.

End Display.

(** ** The theorems on a concrete list *)

Section SelectionWitnesses.
Import SelectionFixtures.

(** The three countries are displayed by region and name, and each object
    has the number of its line. *)
Example display_three_countries :
  let out := display_countries three_objects three_countries in
  value out = Some [1; 2; 0]
  /\ numbered_lines (lines out)
     = [ (1, py "Japan"); (2, py "Austria"); (3, py "Belgium") ]
  /\ map (fun r => selection_index (heap_after out r)) three_countries
     = [Some 3; Some 1; Some 2].
Proof. vm_compute. repeat split; reflexivity. Qed.

(** An object that is in the list twice is printed twice and is left with
    the second number: both places of the list returned are that object,
    with the selection index 2. *)
Example display_same_country_twice :
  let out := display_countries three_objects same_country_twice in
  value out = Some [0; 0]
  /\ numbered_lines (lines out) = [ (1, py "Belgium"); (2, py "Belgium") ]
  /\ as_dict (heap_after out 0) = with_selection_index 2 belgium.
Proof. vm_compute. repeat split; reflexivity. Qed.

Lemma display_countries_numbered_witness :
  three_countries <> []
  /\ exists ordered,
       value (display_countries three_objects three_countries) = Some ordered
       /\ Permutation ordered three_countries
       /\ StronglySorted
            (fun a b => display_le (entry (three_objects a))
                                   (entry (three_objects b)))
            ordered
       /\ numbered_lines
            (lines (display_countries three_objects three_countries))
          = map (fun p => (fst p, shown_name (entry (three_objects (snd p)))))
                (numbered_from 1 ordered)
       /\ (forall r,
             entry (heap_after
                      (display_countries three_objects three_countries) r)
             = entry (three_objects r))
       /\ (forall r, ~ In r three_countries ->
             selection_index
               (heap_after (display_countries three_objects three_countries)
                           r)
             = selection_index (three_objects r))
       /\ (forall r, In r three_countries ->
             exists m,
               as_dict (heap_after
                          (display_countries three_objects three_countries)
                          r)
               = with_selection_index m (entry (three_objects r))
               /\ In (m, r) (numbered_from 1 ordered)
               /\ forall n, In (n, r) (numbered_from 1 ordered) -> n <= m)
       /\ (NoDup three_countries ->
           forall n r, In (n, r) (numbered_from 1 ordered) ->
             as_dict (heap_after
                        (display_countries three_objects three_countries) r)
             = with_selection_index n (entry (three_objects r))).
Proof.
  split; [discriminate|].
  exact (display_countries_numbered three_objects three_countries
           ltac:(discriminate)).
Defined.

Lemma x_is_asked_again :
  Forall (asked_again as_typed parse_digit (List.length three_countries))
         [Typed (py "x"); Typed (py "7")].
Proof.
  constructor; [|constructor; [|constructor]].
  - exists (py "x"). split; [reflexivity|]. split; [discriminate | exact I].
  - exists (py "7"). split; [reflexivity|]. split; [discriminate|].
    vm_compute. intros [_ H]. apply H. reflexivity.
Defined.

Lemma get_country_selection_answer_witness :
  let answers := [Typed (py "x"); Typed (py "7")] ++ Typed (py " 2") :: [] in
  let out := get_country_selection as_typed parse_digit three_objects
               three_countries answers in
  three_countries <> []
  /\ Forall (asked_again as_typed parse_digit (List.length three_countries))
            [Typed (py "x"); Typed (py "7")]
  /\ as_typed (strip (py " 2")) <> py "q"
  /\ parse_digit (as_typed (strip (py " 2"))) = Some (Z.of_nat 2)
  /\ 1 <= 2 <= List.length three_countries
  /\ exists country,
       In country three_countries
       /\ value out = Selected country
       /\ In (2, shown_name (entry (three_objects country)))
             (numbered_lines (lines out))
       /\ exists m,
            as_dict (heap_after out country)
            = with_selection_index m (entry (three_objects country))
            /\ 2 <= m
            /\ In (m, shown_name (entry (three_objects country)))
                  (numbered_lines (lines out))
            /\ (NoDup three_countries -> m = 2).
Proof.
  assert (H1 : three_countries <> []) by discriminate.
  assert (H3 : as_typed (strip (py " 2")) <> py "q")
    by (vm_compute; discriminate).
  assert (H4 : parse_digit (as_typed (strip (py " 2"))) = Some (Z.of_nat 2))
    by (vm_compute; reflexivity).
  assert (H5 : 1 <= 2 <= List.length three_countries) by (simpl; lia).
  cbv zeta.
  split; [exact H1|]. split; [exact x_is_asked_again|].
  split; [exact H3|]. split; [exact H4|]. split; [exact H5|].
  exact (get_country_selection_answer three_objects as_typed parse_digit
           three_countries [Typed (py "x"); Typed (py "7")] (py " 2") [] 2
           H1 x_is_asked_again H3 H4 H5).
Defined.

(** The answer 2 selects Austria, the second country displayed. *)
Example get_country_selection_second :
  let out := get_country_selection as_typed parse_digit three_objects
               three_countries [Typed (py "x"); Typed (py " 2")] in
  value out = Selected 2
  /\ as_dict (heap_after out 2) = with_selection_index 2 austria.
Proof. vm_compute. split; reflexivity. Qed.

Lemma get_country_selection_displayed_witness :
  value (get_country_selection as_typed parse_digit three_objects
           three_countries [Typed (py "3")])
  = Selected 0
  /\ In 0 three_countries
  /\ exists n,
       as_dict (heap_after (get_country_selection as_typed parse_digit
                              three_objects three_countries
                              [Typed (py "3")]) 0)
       = with_selection_index n (entry (three_objects 0))
       /\ In (n, shown_name (entry (three_objects 0)))
             (numbered_lines
                (lines (get_country_selection as_typed parse_digit
                          three_objects three_countries [Typed (py "3")]))).
Proof.
  assert (H : value (get_country_selection as_typed parse_digit three_objects
                       three_countries [Typed (py "3")])
              = Selected 0)
    by (vm_compute; reflexivity).
  split; [exact H|].
  exact (get_country_selection_displayed three_objects as_typed parse_digit
           three_countries [Typed (py "3")] 0 H).
Defined.

End SelectionWitnesses.

End SelectionFacts.
